(** * Ticket bot: shallow embedding of the ticket lifecycle and its checks

    The development follows the Python sources:
    - [utils/db_manager.py]: the three SQLite tables and their accessors;
    - [cogs/ticket_cog.py]: the staff-role resolver, the component
      interaction router ([on_interaction]), the permissions of a new
      ticket channel and the panel command;
    - [cogs/ticket_commands.py]: the [/ticket close] command;
    - [cogs/config_cog.py]: the administrative commands and their
      autocompletes;
    - [utils/views.py]: the close modal ([CloseTicketModal.on_submit])
      and the buttons of the two views.

    Storage is modelled as finite maps keyed by the tables' unique keys,
    exceptions as an explicit outcome type, and the chat platform as an
    oracle record that fixes which external calls succeed. *)

From Stdlib Require Import ZArith String Ascii Bool Lia.
From stdpp Require Import base option list gmap strings.

Local Open Scope string_scope.
Local Open Scope list_scope.
Local Open Scope Z_scope.

(** ** Python exceptions raised by the modelled code *)

Inductive exn : Type :=
| IndexError
| ValueError
| AttributeError
| NameError
| ProgrammingError
| OperationalError
| IntegrityError
| TypeError
| HTTPException                 (* discord.HTTPException *)
| NotFound                      (* discord.NotFound, an HTTPException *)
| Forbidden.                    (* discord.Forbidden, an HTTPException *)

Global Instance exn_eq_dec : EqDecision exn.
Proof. solve_decision. Defined.

Inductive outcome (A : Type) : Type :=
| Return (a : A)
| Raise (e : exn).
Arguments Return {A} a.
Arguments Raise {A} e.

(** ** String primitives

    Strings are sequences of 8-bit characters.  On ASCII text (every
    character below 128, [isascii]) the functions below are Python's.
    Python's [str.lower] and [int] know more letters, digits and blanks
    than the ASCII ones, so on other text [lower] and [int] are not
    Python's: the properties that depend on them are stated for ASCII
    strings. *)

Module PyStr.

(** [s.isascii()] *)
Definition isascii (s : string) : bool :=
  forallb (λ c, (nat_of_ascii c <? 128)%nat) (list_ascii_of_string s).

(** [str.lower] on ASCII letters; other characters are left alone. *)
Definition lower_char (c : ascii) : ascii :=
  let n := nat_of_ascii c in
  if ((65 <=? n) && (n <=? 90))%nat then ascii_of_nat (n + 32) else c.

Fixpoint lower (s : string) : string :=
  match s with
  | EmptyString => EmptyString
  | String c r => String (lower_char c) (lower r)
  end.

(** [s.replace(" ", "-")]. *)
Fixpoint replace_space (s : string) : string :=
  match s with
  | EmptyString => EmptyString
  | String c r =>
      String (if Ascii.eqb c " " then "-"%char else c) (replace_space r)
  end.

(** [s.split(':')]: never returns the empty list. *)
Fixpoint split_colon (s : string) : list string :=
  match s with
  | EmptyString => [EmptyString]
  | String c r =>
      if Ascii.eqb c ":" then EmptyString :: split_colon r
      else match split_colon r with
           | h :: t => String c h :: t
           | [] => [String c EmptyString]
           end
  end.

(** The blanks that [int] strips from an ASCII string: the space and the
    characters 9 to 13 (tab, line feed, vertical tab, form feed, carriage
    return). *)
Definition is_space (c : ascii) : bool :=
  let n := nat_of_ascii c in
  ((n =? 32) || ((9 <=? n) && (n <=? 13)))%nat.

Definition digit_of (c : ascii) : option Z :=
  let n := nat_of_ascii c in
  if ((48 <=? n) && (n <=? 57))%nat then Some (Z.of_nat (n - 48)) else None.

Fixpoint lstrip (cs : list ascii) : list ascii :=
  match cs with
  | c :: r => if is_space c then lstrip r else cs
  | [] => []
  end.

Definition strip (cs : list ascii) : list ascii :=
  rev (lstrip (rev (lstrip cs))).

(** Digits of a Python integer literal: at least one digit, single
    underscores allowed between digits only.  [prev] tells whether the
    previous character was a digit. *)
Fixpoint digits (acc : Z) (prev : bool) (cs : list ascii) : option Z :=
  match cs with
  | [] => if prev then Some acc else None
  | c :: r =>
      match digit_of c with
      | Some d => digits (10 * acc + d) true r
      | None =>
          if Ascii.eqb c "_" && prev
          then match r with
               | [] => None
               | _ => digits acc false r
               end
          else None
      end
  end.

(** [int(s)] for an ASCII string argument: [None] stands for
    [ValueError].  Blanks around the literal are stripped, one sign is
    allowed. *)
Definition int (s : string) : option Z :=
  match strip (list_ascii_of_string s) with
  | "+"%char :: r => digits 0 false r
  | "-"%char :: r => Z.opp <$> digits 0 false r
  | r => digits 0 false r
  end.

(** [str(n)] for an integer: decimal digits, most significant first, with
    a leading minus sign for a negative number.  [fuel] bounds the number
    of digits; the number of binary digits is enough. *)
Definition digit_char (d : Z) : ascii := ascii_of_nat (48 + Z.to_nat d).

Fixpoint render (fuel : nat) (n : Z) (acc : list ascii) : list ascii :=
  match fuel with
  | O => acc
  | S f =>
      let acc' := digit_char (n mod 10) :: acc in
      if n <? 10 then acc' else render f (n / 10) acc'
  end.

Definition render_nat (n : Z) : list ascii :=
  render (S (Z.to_nat (Z.log2 n))) n [].

Definition str (n : Z) : string :=
  string_of_list_ascii
    (if n <? 0 then "-"%char :: render_nat (- n) else render_nat n).

End PyStr.

(** The slug applied to a ticket type's internal name:
    [name.lower().replace(" ", "-")]. *)
Definition normalize (name : string) : string :=
  PyStr.replace_space (PyStr.lower name).

(** ** Data model: the three tables of [initialize_database] *)

(** The nullable INTEGER columns of [guild_configs] ([guild_id] is the
    primary key and indexes the table). *)
Inductive int_column : Type :=
| panel_channel_id
| panel_message_id
| ticket_channel_category_id
| archive_channel_category_id
| transcript_channel_id
| log_channel_id
| ticket_limit_per_user
| allow_user_close
| ticket_counter.

Global Instance int_column_eq_dec : EqDecision int_column.
Proof. solve_decision. Defined.

(** A [guild_configs] row.  [default_staff_roles] is TEXT holding a JSON
    list of role ids; it is kept decoded. *)
Record guild_config : Type := {
  ints : int_column → option Z;
  default_staff_roles : option (list Z);
  ticket_naming_format : option string
}.

(** The column DEFAULTs of the schema. *)
Definition column_default (c : int_column) : option Z :=
  match c with
  | ticket_limit_per_user => Some 1
  | allow_user_close => Some 1
  | ticket_counter => Some 0
  | _ => None
  end.

Definition default_row : guild_config :=
  {| ints := column_default;
     default_staff_roles := None;
     ticket_naming_format := Some "ticket-{user_short}-{id}" |}.

(** One [key=value] of [**kwargs] for [update_guild_config]. *)
Inductive config_kwarg : Type :=
| KwInt (c : int_column) (v : option Z)
| KwRoles (v : option (list Z))
| KwFormat (v : option string).

Definition set_int (c : int_column) (v : option Z) (r : guild_config)
  : guild_config :=
  {| ints := λ c', if decide (c' = c) then v else ints r c';
     default_staff_roles := default_staff_roles r;
     ticket_naming_format := ticket_naming_format r |}.

Definition set_kwarg (r : guild_config) (kw : config_kwarg) : guild_config :=
  match kw with
  | KwInt c v => set_int c v r
  | KwRoles v =>
      {| ints := ints r; default_staff_roles := v;
         ticket_naming_format := ticket_naming_format r |}
  | KwFormat v =>
      {| ints := ints r; default_staff_roles := default_staff_roles r;
         ticket_naming_format := v |}
  end.

Definition set_kwargs (kwargs : list config_kwarg) (r : guild_config)
  : guild_config :=
  fold_left set_kwarg kwargs r.

(** A [ticket_types] row; the table is keyed by its UNIQUE pair
    [(guild_id, name)]. *)
Record ticket_type : Type := {
  display_name : string;
  description : option string;
  emoji : option string;
  button_style : string;
  welcome_message : option string;
  specific_staff_roles : option (list Z)
}.

Inductive ticket_status : Type := Open | Claimed | Closed.

Global Instance ticket_status_eq_dec : EqDecision ticket_status.
Proof. solve_decision. Defined.

(** A [tickets] row; the table is keyed by its UNIQUE [channel_id]. *)
Record ticket : Type := {
  guild_id : Z;
  ticket_display_id : Z;
  user_id : Z;
  ticket_type_name : string;
  status : ticket_status;
  created_at : Z;
  closed_by_user_id : option Z;
  closed_at : option Z;
  close_reason : option string;
  transcript_message_id : option string
}.

Global Instance ticket_eq_dec : EqDecision ticket.
Proof. solve_decision. Defined.

(** The columns [update_ticket] is called with in this repository. *)
Inductive ticket_kwarg : Type :=
| KwStatus (v : ticket_status)
| KwClosedBy (v : option Z)
| KwClosedAt (v : option Z)
| KwCloseReason (v : option string)
| KwTranscript (v : option string).

Definition set_ticket_kwarg (t : ticket) (kw : ticket_kwarg) : ticket :=
  let mk st cb ca cr tr :=
    {| guild_id := guild_id t; ticket_display_id := ticket_display_id t;
       user_id := user_id t; ticket_type_name := ticket_type_name t;
       status := st; created_at := created_at t;
       closed_by_user_id := cb; closed_at := ca; close_reason := cr;
       transcript_message_id := tr |} in
  match kw with
  | KwStatus v =>
      mk v (closed_by_user_id t) (closed_at t) (close_reason t)
         (transcript_message_id t)
  | KwClosedBy v =>
      mk (status t) v (closed_at t) (close_reason t) (transcript_message_id t)
  | KwClosedAt v =>
      mk (status t) (closed_by_user_id t) v (close_reason t)
         (transcript_message_id t)
  | KwCloseReason v =>
      mk (status t) (closed_by_user_id t) (closed_at t) v
         (transcript_message_id t)
  | KwTranscript v =>
      mk (status t) (closed_by_user_id t) (closed_at t) (close_reason t) v
  end.

Record database : Type := {
  guild_configs : gmap Z guild_config;
  ticket_types : gmap (Z * string) ticket_type;
  tickets : gmap Z ticket
}.

Definition with_configs (db : database) (m : gmap Z guild_config) : database :=
  {| guild_configs := m; ticket_types := ticket_types db;
     tickets := tickets db |}.

Definition with_types (db : database) (m : gmap (Z * string) ticket_type)
  : database :=
  {| guild_configs := guild_configs db; ticket_types := m;
     tickets := tickets db |}.

Definition with_tickets (db : database) (m : gmap Z ticket) : database :=
  {| guild_configs := guild_configs db; ticket_types := ticket_types db;
     tickets := m |}.

Definition empty_db : database :=
  {| guild_configs := ∅; ticket_types := ∅; tickets := ∅ |}.

(** ** [utils/db_manager.py] *)

(** [sqlite3] binds a sequence of parameters only when its length equals
    the number of [?] placeholders of the statement; otherwise
    [execute] raises [ProgrammingError] and the statement does not run. *)
Definition execute {A B : Type} (placeholders : nat) (parameters : list B)
    (effect : A) : outcome A :=
  if (placeholders =? length parameters)%nat then Return effect
  else Raise ProgrammingError.

Definition get_guild_config (g : Z) (db : database) : option guild_config :=
  guild_configs db !! g.

(** [INSERT INTO guild_configs (guild_id, cols) VALUES (...)
     ON CONFLICT(guild_id) DO UPDATE SET col = ?, ...]:
    a new row takes the column DEFAULTs for the columns not listed, an
    existing row keeps them. *)
Definition insert_on_conflict_update (g : Z) (kwargs : list config_kwarg)
    (db : database) : database :=
  let row := default (default_row) (guild_configs db !! g) in
  with_configs db (<[g := set_kwargs kwargs row]> (guild_configs db)).

(** [INSERT OR REPLACE INTO guild_configs (guild_id, cols) VALUES (...)]:
    a conflicting row is deleted first, so the columns not listed take
    their DEFAULTs. *)
Definition insert_or_replace (g : Z) (kwargs : list config_kwarg)
    (db : database) : database :=
  with_configs db (<[g := set_kwargs kwargs default_row]> (guild_configs db)).

(** [update_guild_config(guild_id, **kwargs)].  A list value is stored as
    its JSON text, which the model keeps decoded.  The first statement has
    [len(kwargs) + 1] placeholders in VALUES and [len(kwargs)] in SET and
    is executed with [insert_values + update_values]; the second is
    executed with [(guild_id, *values)]; the commit comes last, so a
    raise leaves the stored data as it was.  With no keyword both
    statements are malformed SQL. *)
Definition update_guild_config (g : Z) (kwargs : list config_kwarg)
    (db : database) : outcome unit * database :=
  let values : list (Z + config_kwarg) := inr <$> kwargs in
  let n := length kwargs in
  let insert_values := inl g :: values in
  let update_values := values ++ [inl g] in
  match kwargs with
  | [] => (Raise OperationalError, db)
  | _ =>
      match execute (S n + n) (insert_values ++ update_values)
                    (insert_on_conflict_update g kwargs db) with
      | Raise e => (Raise e, db)
      | Return db1 =>
          match execute (S n) (inl g :: values)
                        (insert_or_replace g kwargs db1) with
          | Raise e => (Raise e, db)
          | Return db2 => (Return (), db2)
          end
      end
  end.

(** The three statements of [get_and_increment_ticket_counter]; each is
    committed on its own.  The outer [option] of the SELECT is the
    presence of the row, the inner one a NULL counter. *)
Definition select_ticket_counter (g : Z) (db : database) : option (option Z) :=
  (λ r, ints r ticket_counter) <$> guild_configs db !! g.

Definition insert_or_ignore_config (g : Z) (db : database) : database :=
  match guild_configs db !! g with
  | Some _ => db
  | None =>
      with_configs db
        (<[g := set_int ticket_counter (Some 0) default_row]> (guild_configs db))
  end.

(** An SQLite INTEGER, and a Python [int] that [sqlite3] accepts as a
    parameter, is a 64-bit signed integer. *)
Definition int64 (n : Z) : Prop := - 2 ^ 63 ≤ n < 2 ^ 63.

(** [UPDATE guild_configs SET ticket_counter = ticket_counter + 1]
    (NULL + 1 is NULL).  The counter is counted in [Z].  SQLite agrees
    with it as long as the sum is an [int64]; at 2^63 - 1 the sum is
    computed as a REAL and the counter stops advancing, so the
    properties of the numbers handed out are stated below that bound. *)
Definition increment_ticket_counter (g : Z) (db : database) : database :=
  with_configs db
    (alter (λ r, set_int ticket_counter (Z.succ <$> ints r ticket_counter) r)
           g (guild_configs db)).

(** [row[0] if row else 1] *)
Definition read_back (g : Z) (db : database) : option Z :=
  match select_ticket_counter g db with
  | Some v => v
  | None => Some 1
  end.

(** One call running alone, start to end. *)
Definition get_and_increment_ticket_counter (g : Z) (db : database)
  : option Z * database :=
  let db1 := match select_ticket_counter g db with
             | None => insert_or_ignore_config g db
             | Some _ => db
             end in
  let db2 := increment_ticket_counter g db1 in
  (read_back g db2, db2).

(** *** Ticket types *)

(** [json.dumps(specific_staff_roles) if specific_staff_roles else None]:
    an empty list of roles is stored as NULL, like no list. *)
Definition roles_json (specific_staff_roles : option (list Z))
  : option (list Z) :=
  match specific_staff_roles with
  | Some [] => None
  | _ => specific_staff_roles
  end.

(** The row that is inserted for the arguments [row] of
    [add_ticket_type]. *)
Definition as_stored (row : ticket_type) : ticket_type :=
  {| display_name := display_name row; description := description row;
     emoji := emoji row; button_style := button_style row;
     welcome_message := welcome_message row;
     specific_staff_roles := roles_json (specific_staff_roles row) |}.

Definition add_ticket_type (g : Z) (name : string) (row : ticket_type)
    (db : database) : bool * database :=
  let key := (g, normalize name) in
  match ticket_types db !! key with
  | Some _ => (false, db)                          (* IntegrityError *)
  | None => (true, with_types db (<[key := as_stored row]> (ticket_types db)))
  end.

(** [SELECT * FROM ticket_types WHERE guild_id = ? ORDER BY display_name];
    the order of the rows is not modelled. *)
Definition get_ticket_types (g : Z) (db : database)
  : list (string * ticket_type) :=
  (λ kv, (kv.1.2, kv.2))
    <$> filter (λ kv, kv.1.1 = g) (map_to_list (ticket_types db)).

Definition get_ticket_type_by_name (g : Z) (name : string) (db : database)
  : option ticket_type :=
  ticket_types db !! (g, name).

Definition remove_ticket_type (g : Z) (name : string) (db : database)
  : bool * database :=
  match ticket_types db !! (g, name) with
  | Some _ => (true, with_types db (delete (g, name) (ticket_types db)))
  | None => (false, db)
  end.

(** *** Tickets *)

(** [ticket_display_id] and [channel_id] are NOT NULL, [channel_id] is
    UNIQUE: a violation raises [IntegrityError].  The integer arguments
    are taken to be [int64]: [sqlite3] refuses a larger Python [int] with
    [OverflowError] before the statement runs. *)
Definition create_ticket (g u ch : Z) (type_name : string)
    (display_id : option Z) (now : Z) (db : database)
  : outcome unit * database :=
  match display_id, tickets db !! ch with
  | Some n, None =>
      let row := {| guild_id := g; ticket_display_id := n; user_id := u;
                    ticket_type_name := type_name; status := Open;
                    created_at := now; closed_by_user_id := None;
                    closed_at := None; close_reason := None;
                    transcript_message_id := None |} in
      (Return (), with_tickets db (<[ch := row]> (tickets db)))
  | _, _ => (Raise IntegrityError, db)
  end.

Definition get_ticket_by_channel (ch : Z) (db : database) : option ticket :=
  tickets db !! ch.

(** [... WHERE guild_id = ? AND user_id = ? AND status != 'closed'] *)
Definition is_open_ticket_of (g u : Z) (t : ticket) : bool :=
  bool_decide (guild_id t = g) && bool_decide (user_id t = u)
  && negb (bool_decide (status t = Closed)).

Definition get_open_tickets_by_user (g u : Z) (db : database) : list ticket :=
  filter (λ t, is_open_ticket_of g u t = true) (map_to_list (tickets db)).*2.

(** [UPDATE tickets SET col = ?, ... WHERE channel_id = ?]; without a
    keyword the SET list is empty and the statement is malformed. *)
Definition update_ticket (ch : Z) (kwargs : list ticket_kwarg) (db : database)
  : outcome unit * database :=
  match kwargs with
  | [] => (Raise OperationalError, db)
  | _ =>
      (Return (),
       with_tickets db
         (alter (λ t, fold_left set_ticket_kwarg kwargs t) ch (tickets db)))
  end.

(** ** The chat platform, as seen by the handlers *)

Inductive channel_kind : Type := CategoryChannel | TextChannel.

(** [discord.Guild]: its id, the live roles [get_role] resolves, the role
    every member holds ([default_role]) and the channels [get_channel]
    finds. *)
Record guild : Type := {
  gd_id : Z;
  gd_roles : list Z;
  default_role : Z;
  gd_channels : gmap Z channel_kind
}.

Definition get_role (gd : guild) (role_id : Z) : option Z :=
  if bool_decide (role_id ∈ gd_roles gd) then Some role_id else None.

Definition get_channel (gd : guild) (ch : option Z) : option channel_kind :=
  ch ≫= λ c, gd_channels gd !! c.

Inductive interaction_type : Type := component | application_command | modal_submit.

Record interaction : Type := {
  i_type : interaction_type;
  custom_id : option string;            (* interaction.data['custom_id'] *)
  i_guild : guild;                      (* interaction.guild *)
  channel_id : Z;
  user : Z;                             (* interaction.user.id *)
  user_roles : list Z                   (* interaction.user.roles *)
}.

(** What the platform answers to the calls a handler makes. *)
Record platform : Type := {
  now : Z;                              (* datetime.now(timezone.utc) *)
  history : outcome unit;               (* ticket_channel.history(...) *)
  transcript_send : outcome string;     (* fetch_user, then transcript_channel.send: the jump_url *)
  channel_send : outcome unit;          (* ticket_channel.send *)
  channel_edit : outcome unit;          (* ticket_channel.edit *)
  set_permissions : outcome unit;       (* ticket_channel.set_permissions *)
  member_present : bool;                (* guild.get_member(owner) is not None *)
  create_text_channel : outcome Z;      (* the new channel's id *)
  log_send : outcome unit;              (* log_channel.send *)
  panel_send : outcome Z;               (* interaction.channel.send: the message id *)
  old_panel_delete : outcome unit;      (* fetch_message, then delete *)
  ticket_cog_loaded : bool              (* bot.get_cog("TicketCog") *)
}.

(** User-visible replies, one constructor per message text. *)
Inductive message : Type :=
| InvalidButtonId | DifferentServer | NotFullyConfigured
| LimitReached (limit : option Z) | InvalidCategory | NoValidStaffRoles
| ChannelCreateFailed | TicketCreated (ch : Z)
| InvalidCloseButtonId | DifferentTicket | NotValidOrAlreadyClosed
| NoPermission
| NotActiveOrAlreadyClosed | ServerConfigNotFound | TicketCogNotFound
| NoPermissionCommand | TicketClosedByCommand | ClosedInDbChannelError
| TicketOrConfigNotFound | TranscriptSendError | TranscriptChannelNotFound
| TicketClosed (display_id : Z) | ClosedButChannelError
| SetupDone | TypeAdded (key : string) | TypeNotAdded (key : string)
| InvalidStyleWarning (style : string)
| TypeRemoved (key : string) | TypeNotFound (key : string)
| RunSetupFirst | NoTicketTypes | PanelNotCreated | PanelCreated | PanelError.

(** Effects on the platform, in the order they happen. *)
Inductive event : Type :=
| Defer
| Reply (m : message)                   (* response.send_message / followup.send *)
| SendModal (ticket_channel_id : Z)
| ChannelCreated (ch : Z)
| TranscriptPosted
| ChannelMessage (ch : Z)
| ChannelRenamed (ch : Z)
| ChannelMoved (ch : Z)
| OwnerAccessChanged (ch : Z)
| StaffNotified
| PanelPosted (message_id : Z).

(** ** Handlers: state, exceptions and an effect log *)

Record world : Type := { store : database; trace : list event }.

Definition M (A : Type) : Type := world → outcome A * world.

Definition ret {A} (a : A) : M A := λ w, (Return a, w).

Definition bind {A B} (m : M A) (k : A → M B) : M B :=
  λ w, match m w with
       | (Return a, w') => k a w'
       | (Raise e, w') => (Raise e, w')
       end.

Definition raise {A} (e : exn) : M A := λ w, (Raise e, w).

Notation "'let*' x ':=' m 'in' k" := (bind m (λ x, k))
  (at level 10, x name, m at level 100, k at level 200).
Notation "m '>>' k" := (bind m (λ _, k))
  (at level 100, k at level 200, right associativity).

Definition emit (ev : event) : M unit :=
  λ w, (Return (), {| store := store w; trace := trace w ++ [ev] |}).

(** A read of the store. *)
Definition query {A} (f : database → A) : M A :=
  λ w, (Return (f (store w)), w).

(** A [db_manager] call that may write and may raise. *)
Definition call {A} (f : database → outcome A * database) : M A :=
  λ w, let '(r, db') := f (store w) in (r, {| store := db'; trace := trace w |}).

(** An awaited platform call with a fixed answer. *)
Definition await {A} (answer : outcome A) : M A :=
  match answer with
  | Return a => ret a
  | Raise e => raise e
  end.

(** [try: m  except <catches>: handler] *)
Definition try_except {A} (m : M A) (catches : exn → bool) (handler : M A)
  : M A :=
  λ w, match m w with
       | (Raise e, w') => if catches e then handler w' else (Raise e, w')
       | r => r
       end.

(** [parts[n]] *)
Definition index (parts : list string) (n : nat) : M string :=
  match parts !! n with
  | Some s => ret s
  | None => raise IndexError
  end.

(** [int(s)] *)
Definition int (s : string) : M Z :=
  match PyStr.int s with
  | Some n => ret n
  | None => raise ValueError
  end.

(** [row.get(key, default)] on a row fetched with
    [db.row_factory = aiosqlite.Row].  [sqlite3.Row] offers indexing by
    name or position, [keys()], [len()] and iteration; it has no [get]
    attribute, so the lookup of the method raises [AttributeError],
    whatever [stored] value the column holds. *)
Definition Row_get {A} (stored : A) : M A := raise AttributeError.

(** Python truthiness of an INTEGER column read from a row. *)
Definition truthy (v : option Z) : bool :=
  match v with
  | Some n => negb (n =? 0)%Z
  | None => false
  end.

(** ** Further Python primitives *)

(** String methods used by the autocompletes, on ASCII text as in
    [PyStr]. *)
Module PyText.

Definition upper_char (c : ascii) : ascii :=
  let n := nat_of_ascii c in
  if ((97 <=? n) && (n <=? 122))%nat then ascii_of_nat (n - 32) else c.

(** [s.capitalize()]: the first character in upper case, the others in
    lower case. *)
Definition capitalize (s : string) : string :=
  match s with
  | EmptyString => EmptyString
  | String c r => String (upper_char c) (PyStr.lower r)
  end.

(** [needle in hay] for two strings: [needle] occurs in [hay] as a
    substring; the empty string occurs in every string. *)
Fixpoint contains (needle hay : string) : bool :=
  String.prefix needle hay
  || match hay with
     | EmptyString => false
     | String _ r => contains needle r
     end.

End PyText.

(** A Python dict as the list of its items, in insertion order:
    [d.get(key, default)], [d.get(key)] and [d[key] = value]. *)
Fixpoint dict_get {K V : Type} `{EqDecision K} (d : list (K * V)) (key : K)
    (default_ : V) : V :=
  match d with
  | [] => default_
  | (k, v) :: rest =>
      if decide (k = key) then v else dict_get rest key default_
  end.

Fixpoint dict_lookup {K V : Type} `{EqDecision K} (d : list (K * V))
    (key : K) : option V :=
  match d with
  | [] => None
  | (k, v) :: rest => if decide (k = key) then Some v else dict_lookup rest key
  end.

Fixpoint dict_set {K V : Type} `{EqDecision K} (d : list (K * V)) (key : K)
    (value : V) : list (K * V) :=
  match d with
  | [] => [(key, value)]
  | (k, v) :: rest =>
      if decide (k = key) then (k, value) :: rest
      else (k, v) :: dict_set rest key value
  end.

(** ** [utils/views.py]: the buttons of the two views *)

(** The [custom_id] of the close button of [TicketActionsView]:
    [f"ticket_actions:close:{ticket_channel_id}:{ticket_owner_id}"]. *)
Definition close_button_custom_id (ticket_channel_id ticket_owner_id : Z)
  : string :=
  "ticket_actions:close:" +:+ PyStr.str ticket_channel_id +:+ ":"
  +:+ PyStr.str ticket_owner_id.

(** The [custom_id] of a panel button of [TicketPanelView.populate_buttons]:
    [f"ticket_panel:create:{guild_id}:{tt_row['name']}"]. *)
Definition panel_button_custom_id (g : Z) (name : string) : string :=
  "ticket_panel:create:" +:+ PyStr.str g +:+ ":" +:+ name.

(** [discord.ButtonStyle], as far as the panel uses it; [grey] is an
    alias of [secondary]. *)
Inductive ButtonStyle : Type := primary | secondary | success | danger.

Definition grey : ButtonStyle := secondary.

(** [ui.Button(label=..., emoji=..., style=..., disabled=..., custom_id=...)] *)
Record Button : Type := {
  label : string;
  button_emoji : option string;
  style : ButtonStyle;
  disabled : bool;
  button_custom_id : string
}.

(** The dict [style_map] of [populate_buttons]. *)
Definition style_map : list (string * ButtonStyle) :=
  [("primary", primary); ("secondary", secondary); ("success", success);
   ("danger", danger)].

(** [View.add_item]: a view holds at most 25 items; adding one more
    raises [ValueError]. *)
Definition add_item (children : list Button) (item : Button)
  : outcome (list Button) :=
  if (25 <=? length children)%nat then Raise ValueError
  else Return (children ++ [item]).

Definition no_types_button : Button :=
  {| label := "No ticket types configured"; button_emoji := None;
     style := grey; disabled := true;
     button_custom_id := "ticket_panel:no_types" |}.

(** The button of one row of [ticket_types]; [tt_row] is the pair of the
    row's [name] and its other columns. *)
Definition panel_button (g : Z) (tt_row : string * ticket_type) : Button :=
  {| label := display_name tt_row.2;
     button_emoji :=
       match emoji tt_row.2 with
       | Some e => if bool_decide (e = "") then None else Some e
       | None => None
       end;
     style := dict_get style_map (PyStr.lower (button_style tt_row.2)) primary;
     disabled := false;
     button_custom_id := panel_button_custom_id g tt_row.1 |}.

(** [populate_buttons(guild_id)], from the [rows] that
    [get_ticket_types(guild_id)] fetched, in the order of its ORDER BY:
    the items of the view once the call is over. *)
Definition populate_buttons (g : Z) (rows : list (string * ticket_type))
  : outcome (list Button) :=
  match rows with
  | [] => add_item [] no_types_button
  | _ :: _ =>
      foldl (λ view tt_row,
               match view with
               | Return children => add_item children (panel_button g tt_row)
               | Raise e => Raise e
               end)
            (Return []) rows
  end.

(** ** [cogs/ticket_cog.py] *)

(** The loop [for role_id in role_ids: role = guild.get_role(role_id);
    if role: roles.append(role)]. *)
Definition resolve_roles (gd : guild) (role_ids : list Z) : list Z :=
  omap (get_role gd) role_ids.

(** The roles the resolver looked up for a column. *)
Definition resolved (gd : guild) (column : option (list Z)) : list Z :=
  match column with
  | Some role_ids => resolve_roles gd role_ids
  | None => []
  end.

Definition get_staff_roles_for_ticket_type (gd : guild) (type_name : string)
    (guild_config : option guild_config) (db : database) : list Z :=
  let ticket_type_db := get_ticket_type_by_name (gd_id gd) type_name db in
  let specific_roles := resolved gd (ticket_type_db ≫= specific_staff_roles) in
  match specific_roles with
  | _ :: _ => specific_roles
  | [] =>
      let default_roles := resolved gd (guild_config ≫= default_staff_roles) in
      match default_roles with
      | _ :: _ => default_roles
      | [] => [default_role gd]
      end
  end.

(** [any(role in interaction.user.roles for role in applicable_staff_roles
         if role != interaction.guild.default_role)] *)
Definition is_staff (gd : guild) (held staff : list Z) : bool :=
  existsb (λ role, bool_decide (role ∈ held))
          (filter (λ role, role ≠ default_role gd) staff).

(** [not staff_roles_to_apply or staff_roles_to_apply == [guild.default_role]] *)
Definition no_valid_staff_roles (gd : guild) (staff : list Z) : bool :=
  bool_decide (staff = []) || bool_decide (staff = [default_role gd]).

Definition catches_index_or_value (e : exn) : bool :=
  bool_decide (e = IndexError) || bool_decide (e = ValueError).

(** [except discord.HTTPException] *)
Definition catches_http (e : exn) : bool :=
  bool_decide (e = HTTPException) || bool_decide (e = NotFound)
  || bool_decide (e = Forbidden).

(** [except (discord.NotFound, discord.Forbidden, AttributeError)] *)
Definition catches_stale_panel (e : exn) : bool :=
  bool_decide (e = NotFound) || bool_decide (e = Forbidden)
  || bool_decide (e = AttributeError).

Definition catches_any (e : exn) : bool := true.

(** The handlers of this file read some columns with [row.get(...)].  They
    are written once over the implementation [row_get] of that call; the
    bot's own handlers take [Row_get], the behaviour of the rows that
    [db_manager] returns. *)
Section RowAccess.

Variable row_get : ∀ A : Type, A → M A.

(** The branch for [ticket_panel:create:{guild_id}:{type_name}]. *)
Definition create_flow_with (pf : platform) (i : interaction)
    (parts : list string) : M unit :=
  emit Defer >>
  let* parsed :=
    try_except
      (let* p2 := index parts 2 in
       let* guild_id_from_id := int p2 in
       let* name := index parts 3 in
       ret (Some (guild_id_from_id, name)))
      catches_index_or_value
      (emit (Reply InvalidButtonId) >> ret None) in
  match parsed with
  | None => ret ()
  | Some (guild_id_from_id, name) =>
      let gd := i_guild i in
      if negb (bool_decide (gd_id gd = guild_id_from_id))
      then emit (Reply DifferentServer)
      else
        let* guild_config := query (get_guild_config (gd_id gd)) in
        let* ticket_type_db := query (get_ticket_type_by_name (gd_id gd) name) in
        match guild_config, ticket_type_db with
        | Some cfg, Some type_row =>
            if negb (truthy (ints cfg ticket_channel_category_id))
            then emit (Reply NotFullyConfigured)
            else
              (* Check ticket limit *)
              let* open_tickets :=
                query (get_open_tickets_by_user (gd_id gd) (user i)) in
              let* limit := row_get _ (ints cfg ticket_limit_per_user) in
              match limit with
              | None => raise TypeError
              | Some l =>
                  if (l <=? Z.of_nat (length open_tickets))%Z
                  then
                    let* shown := row_get _ (ints cfg ticket_limit_per_user) in
                    emit (Reply (LimitReached shown))
                  else
                    match get_channel gd (ints cfg ticket_channel_category_id) with
                    | Some CategoryChannel =>
                        let* staff :=
                          query (get_staff_roles_for_ticket_type gd name (Some cfg)) in
                        if no_valid_staff_roles gd staff
                        then emit (Reply NoValidStaffRoles)
                        else
                          let* display_id :=
                            call (λ db, let '(n, db') :=
                                          get_and_increment_ticket_counter (gd_id gd) db
                                        in (Return n, db')) in
                          (* Naming format: [naming_format.replace(...)] needs a
                             string and [f"{ticket_display_id:04d}"] a number;
                             the name itself is not modelled *)
                          let* naming_format := row_get _ (ticket_naming_format cfg) in
                          (match naming_format, display_id with
                           | None, _ => raise AttributeError
                           | Some _, None => raise TypeError
                           | Some _, Some _ => ret ()
                           end) >>
                          let* created :=
                            try_except
                              (let* ch := await (create_text_channel pf) in
                               emit (ChannelCreated ch) >> ret (Some ch))
                              catches_http
                              (emit (Reply ChannelCreateFailed) >> ret None) in
                          match created with
                          | None => ret ()
                          | Some ch =>
                              call (create_ticket (gd_id gd) (user i) ch name
                                                  display_id (now pf)) >>
                              let* welcome := row_get _ (welcome_message type_row) in
                              await (channel_send pf) >>
                              emit (ChannelMessage ch) >>
                              emit (Reply (TicketCreated ch)) >>
                              (* Staff Notification *)
                              if truthy (ints cfg log_channel_id)
                              then match get_channel gd (ints cfg log_channel_id) with
                                   | Some _ =>
                                       try_except
                                         (await (log_send pf) >> emit StaffNotified)
                                         catches_any (ret ())
                                   | None => ret ()
                                   end
                              else ret ()
                          end
                    | _ => emit (Reply InvalidCategory)
                    end
              end
        | _, _ => emit (Reply NotFullyConfigured)
        end
  end.

(** The branch for [ticket_actions:close:{channel_id}:{owner_id}]; the
    owner segment is not read. *)
Definition close_flow_with (pf : platform) (i : interaction)
    (parts : list string) : M unit :=
  let* parsed :=
    try_except
      (let* p2 := index parts 2 in
       let* channel_id_from_id := int p2 in
       ret (Some channel_id_from_id))
      catches_index_or_value
      (emit (Reply InvalidCloseButtonId) >> ret None) in
  match parsed with
  | None => ret ()
  | Some channel_id_from_id =>
      if negb (bool_decide (channel_id i = channel_id_from_id))
      then emit (Reply DifferentTicket)
      else
        let* ticket_data := query (get_ticket_by_channel (channel_id i)) in
        match ticket_data with
        | None => emit (Reply NotValidOrAlreadyClosed)
        | Some t =>
            if bool_decide (status t = Closed)
            then emit (Reply NotValidOrAlreadyClosed)
            else
              let gd := i_guild i in
              let* guild_config := query (get_guild_config (gd_id gd)) in
              let* can_user_close :=
                match guild_config with
                | Some cfg =>
                    let* v := row_get _ (ints cfg allow_user_close) in
                    ret (bool_decide (v = Some 1))
                | None => ret false
                end in
              let is_owner := bool_decide (user i = user_id t) in
              (* Determine if interactor is staff for this ticket *)
              let* applicable_staff_roles :=
                query (get_staff_roles_for_ticket_type gd (ticket_type_name t)
                                                       guild_config) in
              if negb (is_staff gd (user_roles i) applicable_staff_roles)
                 && (negb is_owner || negb can_user_close)
              then emit (Reply NoPermission)
              else emit (SendModal (channel_id i))
        end
  end.

(** The listener.  [parts[1]] is read in the branch conditions, outside
    the [try] blocks of the two flows. *)
Definition on_interaction_with (pf : platform) (i : interaction) : M unit :=
  match i_type i, custom_id i with
  | component, Some cid =>
      let parts := PyStr.split_colon cid in
      let* action_type := index parts 0 in
      let* is_create :=
        if bool_decide (action_type = "ticket_panel")
        then let* p1 := index parts 1 in ret (bool_decide (p1 = "create"))
        else ret false in
      if is_create then create_flow_with pf i parts
      else
        let* is_close :=
          if bool_decide (action_type = "ticket_actions")
          then let* p1 := index parts 1 in ret (bool_decide (p1 = "close"))
          else ret false in
        if is_close then close_flow_with pf i parts else ret ()
  | _, _ => ret ()
  end.

(** [/ticketpanel create].  [populate_buttons] fetches the ticket types
    again and stands outside the [try]. *)
Definition create_ticket_panel_with (pf : platform) (i : interaction)
  : M unit :=
  emit Defer >>
  let gd := i_guild i in
  let* guild_config := query (get_guild_config (gd_id gd)) in
  match guild_config with
  | None => emit (Reply RunSetupFirst)
  | Some cfg =>
      if negb (truthy (ints cfg ticket_channel_category_id))
         || negb (bool_decide (is_Some (default_staff_roles cfg)))
      then emit (Reply RunSetupFirst)
      else
        let* ticket_types := query (get_ticket_types (gd_id gd)) in
        match ticket_types with
        | [] => emit (Reply NoTicketTypes)
        | _ :: _ =>
            let* rows := query (get_ticket_types (gd_id gd)) in
            let* children := await (populate_buttons (gd_id gd) rows) in
            let nothing_to_show :=
              match children with
              | [] => true
              | [only] =>
                  bool_decide (button_custom_id only = "ticket_panel:no_types")
              | _ => false
              end in
            if nothing_to_show then emit (Reply PanelNotCreated)
            else
            try_except
              ((* If an old panel message exists, try to delete it *)
               let* old_message := row_get _ (ints cfg panel_message_id) in
               let* old_panel_known :=
                 if truthy old_message
                 then let* old_channel := row_get _ (ints cfg panel_channel_id) in
                      ret (truthy old_channel)
                 else ret false in
               (if old_panel_known : bool
                then try_except (await (old_panel_delete pf))
                                catches_stale_panel (ret ())
                else ret ()) >>
               let* panel_message := await (panel_send pf) in
               emit (PanelPosted panel_message) >>
               call (update_guild_config (gd_id gd)
                       [KwInt panel_channel_id (Some (channel_id i));
                        KwInt panel_message_id (Some panel_message)]) >>
               emit (Reply PanelCreated))
              catches_any
              (emit (Reply PanelError))
        end
  end.

End RowAccess.

Definition create_flow := create_flow_with (@Row_get).
Definition close_flow := close_flow_with (@Row_get).
Definition on_interaction := on_interaction_with (@Row_get).
Definition create_ticket_panel := create_ticket_panel_with (@Row_get).

(** What [row.get(key, default)] would return on a mapping that holds
    every column: the stored value.  No row of the bot behaves so; it
    serves to tell what the handlers are written to do. *)
Definition mapping_get (A : Type) (stored : A) : M A := ret stored.

(** ** [cogs/ticket_commands.py] *)

(** The module imports [discord], [commands], [app_commands],
    [db_manager], [views] and [json]; the name [datetime] is unbound in
    it, so evaluating [datetime.datetime.now(...)] raises [NameError]. *)
Definition datetime_now_unbound : M Z := raise NameError.

Definition close_ticket_command (pf : platform) (i : interaction)
    (reason : option string) : M unit :=
  let* ticket_data := query (get_ticket_by_channel (channel_id i)) in
  match ticket_data with
  | None => emit (Reply NotActiveOrAlreadyClosed)
  | Some t =>
      if bool_decide (status t = Closed)
      then emit (Reply NotActiveOrAlreadyClosed)
      else
        let gd := i_guild i in
        let* guild_config := query (get_guild_config (gd_id gd)) in
        match guild_config with
        | None => emit (Reply ServerConfigNotFound)
        | Some cfg =>
            if negb (ticket_cog_loaded pf)
            then emit (Reply TicketCogNotFound)
            else
              let* applicable_staff_roles :=
                query (get_staff_roles_for_ticket_type gd (ticket_type_name t)
                                                       (Some cfg)) in
              if negb (is_staff gd (user_roles i) applicable_staff_roles)
              then emit (Reply NoPermissionCommand)
              else
                emit Defer >>
                let close_reason_text :=
                  match reason with
                  | Some text =>
                      if bool_decide (text = "") then "Closed via command."
                      else text
                  | None => "Closed via command."
                  end in
                (if truthy (ints cfg transcript_channel_id)
                 then match get_channel gd (ints cfg transcript_channel_id) with
                      | Some _ => await (transcript_send pf) >> emit TranscriptPosted
                      | None => ret ()
                      end
                 else ret ()) >>
                (* the arguments of update_ticket are evaluated first *)
                let* closed_at_now := datetime_now_unbound in
                call (update_ticket (channel_id i)
                        [KwStatus Closed; KwClosedBy (Some (user i));
                         KwClosedAt (Some closed_at_now);
                         KwCloseReason (Some close_reason_text);
                         KwTranscript None]) >>
                try_except
                  (await (channel_edit pf) >>
                   emit (ChannelRenamed (channel_id i)) >>
                   await (channel_send pf) >>
                   emit (ChannelMessage (channel_id i)) >>
                   emit (Reply TicketClosedByCommand))
                  catches_any
                  (emit (Reply ClosedInDbChannelError))
        end
  end.

(** ** [utils/views.py]: [CloseTicketModal.on_submit] *)

(** [self.reason_input.value or "No reason provided."] *)
Definition reason_of (reason_input : string) : string :=
  if bool_decide (reason_input = "") then "No reason provided."
  else reason_input.


Definition on_submit (pf : platform) (i : interaction) (ticket_channel_id : Z)
    (reason_input : string) : M unit :=
  emit Defer >>
  let gd := i_guild i in
  let* guild_config := query (get_guild_config (gd_id gd)) in
  let* ticket_data := query (get_ticket_by_channel ticket_channel_id) in
  let ticket_channel := get_channel gd (Some ticket_channel_id) in
  match ticket_data, ticket_channel, guild_config with
  | Some t, Some _, Some cfg =>
      let reason := reason_of reason_input in
      (* --- Transcript Generation --- *)
      let* transcript_message_link :=
        if truthy (ints cfg transcript_channel_id)
        then match get_channel gd (ints cfg transcript_channel_id) with
             | Some _ =>
                 (* the history loop stands before the try block *)
                 await (history pf) >>
                 try_except
                   (let* jump_url := await (transcript_send pf) in
                    emit TranscriptPosted >> ret (Some jump_url))
                   catches_any
                   (emit (Reply TranscriptSendError) >> ret None)
             | None => emit (Reply TranscriptChannelNotFound) >> ret None
             end
        else ret None in
      (* --- Update DB --- *)
      call (update_ticket ticket_channel_id
              [KwStatus Closed; KwClosedBy (Some (user i));
               KwClosedAt (Some (now pf)); KwCloseReason (Some reason);
               KwTranscript transcript_message_link]) >>
      (* --- Notify User in Ticket Channel --- *)
      try_except
        (await (channel_send pf) >> emit (ChannelMessage ticket_channel_id))
        catches_http (ret ()) >>
      (* --- Modify Channel (Archive or Permissions) --- *)
      let lock_owner :=
        if member_present pf
        then await (set_permissions pf) >>
             emit (OwnerAccessChanged ticket_channel_id)
        else ret () in
      let rename_and_lock :=
        await (channel_edit pf) >> emit (ChannelRenamed ticket_channel_id) >>
        lock_owner in
      try_except
        ((if truthy (ints cfg archive_channel_category_id)
          then match get_channel gd (ints cfg archive_channel_category_id) with
               | Some _ =>
                   await (channel_edit pf) >>
                   emit (ChannelMoved ticket_channel_id) >> lock_owner
               | None => rename_and_lock
               end
          else rename_and_lock) >>
         emit (Reply (TicketClosed (ticket_display_id t))))
        catches_any
        (emit (Reply ClosedButChannelError))
  | _, _, _ => emit (Reply TicketOrConfigNotFound)
  end.

(** ** [cogs/config_cog.py] *)

Definition setup_defaults (i : interaction) (staff_role : Z)
    (ticket_creation_category : Z)
    (transcript_channel log_channel archive_category : option Z) : M unit :=
  emit Defer >>
  call (update_guild_config (gd_id (i_guild i))
          [KwRoles (Some [staff_role]);
           KwInt ticket_channel_category_id (Some ticket_creation_category);
           KwInt transcript_channel_id transcript_channel;
           KwInt log_channel_id log_channel;
           KwInt archive_channel_category_id archive_category;
           KwFormat (Some "ticket-{user_short}-{id}");
           KwInt ticket_limit_per_user (Some 1);
           KwInt allow_user_close (Some 1)]) >>
  emit (Reply SetupDone).

Definition valid_styles : list string :=
  ["primary"; "secondary"; "success"; "danger"].

Definition add_type (i : interaction) (internal_name : string)
    (display : string) (descr emoji_ button_style_ welcome : option string)
    (specific_staff_role : option Z) : M unit :=
  emit Defer >>
  let internal_name_clean := normalize internal_name in
  let actual_button_style :=
    match button_style_ with
    | Some style => if bool_decide (style ∈ valid_styles) then style else "primary"
    | None => "primary"
    end in
  let roles_list := (λ r, [r]) <$> specific_staff_role in
  let* success :=
    call (λ db, let '(b, db') :=
                  add_ticket_type (gd_id (i_guild i)) internal_name_clean
                    {| display_name := display; description := descr;
                       emoji := emoji_; button_style := actual_button_style;
                       welcome_message := welcome;
                       specific_staff_roles := roles_list |} db
                in (Return b, db')) in
  emit (Reply (if success : bool then TypeAdded internal_name_clean
               else TypeNotAdded internal_name_clean)) >>
  match button_style_ with
  | Some style =>
      if bool_decide (style ∈ valid_styles) then ret ()
      else emit (Reply (InvalidStyleWarning style))
  | None => ret ()
  end.

Definition remove_type (i : interaction) (internal_name : string) : M unit :=
  emit Defer >>
  let internal_name_clean := normalize internal_name in
  let* success :=
    call (λ db, let '(b, db') :=
                  remove_ticket_type (gd_id (i_guild i)) internal_name_clean db
                in (Return b, db')) in
  emit (Reply (if success : bool then TypeRemoved internal_name_clean
               else TypeNotFound internal_name_clean)).

(** ** [cogs/config_cog.py]: the autocompletes *)

(** [app_commands.Choice(name=..., value=...)] *)
Record Choice : Type := { choice_name : string; choice_value : string }.

Definition styles : list string :=
  ["primary"; "secondary"; "success"; "danger"].

Definition button_style_autocomplete (current : string) : list Choice :=
  take 25
    ((λ style_, {| choice_name := PyText.capitalize style_;
                   choice_value := style_ |})
       <$> filter (λ style_, PyText.contains (PyStr.lower current)
                                              (PyStr.lower style_) = true)
                  styles).

(** [remove_type_autocomplete], from the rows [types] that
    [get_ticket_types(interaction.guild_id)] fetched. *)
Definition remove_type_autocomplete (types : list (string * ticket_type))
    (current : string) : list Choice :=
  take 25
    ((λ tt, {| choice_name := display_name tt.2 +:+ " (" +:+ tt.1 +:+ ")";
               choice_value := tt.1 |})
       <$> filter (λ tt, PyText.contains (PyStr.lower current)
                                          (PyStr.lower tt.1)
                         || PyText.contains (PyStr.lower current)
                                            (PyStr.lower (display_name tt.2))
                         = true)
                  types).

(** ** [cogs/ticket_cog.py]: the permissions of a new ticket channel *)

(** The keys of the [overwrites] dict: roles and members.  A role and a
    member are never equal; two roles, or two members, are equal when
    their ids are. *)
Inductive target : Type :=
| RoleTarget (role_id : Z)
| MemberTarget (member_id : Z).

Global Instance target_eq_dec : EqDecision target.
Proof. solve_decision. Defined.

(** [discord.PermissionOverwrite(...)]: [Some true] allows, [Some false]
    denies, [None] leaves the permission as inherited.  [read_messages]
    is discord.py's alias of [view_channel] and [manage_permissions] its
    alias of [manage_roles]; the record has one field per permission. *)
Record PermissionOverwrite : Type := {
  view_channel : option bool;
  send_messages : option bool;
  attach_files : option bool;
  embed_links : option bool;
  manage_messages : option bool;
  manage_channels : option bool;
  manage_roles : option bool
}.

Definition hidden : PermissionOverwrite :=
  {| view_channel := Some false; send_messages := None; attach_files := None;
     embed_links := None; manage_messages := None; manage_channels := None;
     manage_roles := None |}.

Definition for_opener : PermissionOverwrite :=
  {| view_channel := Some true; send_messages := Some true;
     attach_files := Some true; embed_links := Some true;
     manage_messages := None; manage_channels := None; manage_roles := None |}.

Definition for_bot : PermissionOverwrite :=
  {| view_channel := Some true; send_messages := Some true;
     attach_files := None; embed_links := None; manage_messages := None;
     manage_channels := Some true; manage_roles := Some true |}.

Definition for_staff : PermissionOverwrite :=
  {| view_channel := Some true; send_messages := Some true;
     attach_files := Some true; embed_links := Some true;
     manage_messages := Some true; manage_channels := None;
     manage_roles := None |}.

(** The dict [overwrites] of the create branch: the literal with the
    default role, the opener [user_] and the bot [me], then one
    assignment per staff role. *)
Definition overwrites (gd : guild) (user_ me : Z)
    (staff_roles_to_apply : list Z) : list (target * PermissionOverwrite) :=
  foldl (λ d role, dict_set d (RoleTarget role) for_staff)
        (dict_set
           (dict_set [(RoleTarget (default_role gd), hidden)]
                     (MemberTarget user_) for_opener)
           (MemberTarget me) for_bot)
        staff_roles_to_apply.

(** ** Overlapping calls of [get_and_increment_ticket_counter]

    Every [await] of the coroutine is a point where another handler may
    run, and every statement is committed on its own, so the unit of
    interleaving is the single SQL statement. *)

Module Interleaving.

Inductive pc : Type :=
| AtSelect                     (* before the first SELECT *)
| AtInsert                     (* row was None: before INSERT OR IGNORE *)
| AtUpdate                     (* before the UPDATE *)
| AtReadBack                   (* before the second SELECT *)
| Returned (n : option Z).

Definition step (g : Z) (p : pc) (db : database) : pc * database :=
  match p with
  | AtSelect =>
      (match select_ticket_counter g db with
       | None => AtInsert
       | Some _ => AtUpdate
       end, db)
  | AtInsert => (AtUpdate, insert_or_ignore_config g db)
  | AtUpdate => (AtReadBack, increment_ticket_counter g db)
  | AtReadBack => (Returned (read_back g db), db)
  | Returned n => (Returned n, db)
  end.

(** [schedule] names, statement by statement, the caller that runs. *)
Fixpoint run (schedule : list nat) (callers : list (Z * pc)) (db : database)
  : list (Z * pc) * database :=
  match schedule with
  | [] => (callers, db)
  | k :: rest =>
      match callers !! k with
      | Some (g, p) =>
          let '(p', db') := step g p db in
          run rest (<[k := (g, p')]> callers) db'
      | None => run rest callers db
      end
  end.

Definition results (callers : list (Z * pc)) : list (option (option Z)) :=
  (λ c, match c.2 with Returned n => Some n | _ => None end) <$> callers.

End Interleaving.

(** ** Operations on the stored state, for the invariants *)

(** [n] calls for one guild, each started after the previous one has
    returned: the numbers handed out, in order, and the final store. *)
Fixpoint calls_in_sequence (n : nat) (g : Z) (db : database)
  : list (option Z) * database :=
  match n with
  | O => ([], db)
  | S k =>
      let first := get_and_increment_ticket_counter g db in
      let others := calls_in_sequence k g first.2 in
      (first.1 :: others.1, others.2)
  end.

(** The counter a call starts from: 0 when the guild has no row yet. *)
Definition counter_before (g : Z) (db : database) : option Z :=
  match select_ticket_counter g db with
  | Some v => v
  | None => Some 0
  end.

(** The operations that write a [guild_configs] row. *)
Inductive config_write : Type :=
| CounterIncrement (g : Z)
| ConfigUpsert (g : Z) (kwargs : list config_kwarg)
| InitialSetup (i : interaction) (staff_role ticket_creation_category : Z)
               (transcript_channel log_channel archive_category : option Z).

Definition apply_write (db : database) (op : config_write) : database :=
  match op with
  | CounterIncrement g => (get_and_increment_ticket_counter g db).2
  | ConfigUpsert g kwargs => (update_guild_config g kwargs db).2
  | InitialSetup i r c t l a =>
      store (setup_defaults i r c t l a {| store := db; trace := [] |}).2
  end.

(** The entry points of the bot, the read-only listing command apart. *)
Inductive operation : Type :=
| OnInteraction (i : interaction)
| CreatePanel (i : interaction)
| CloseCommand (i : interaction) (reason : option string)
| ModalSubmit (i : interaction) (ticket_channel_id : Z) (reason_input : string)
| SetupDefaults (i : interaction) (staff_role ticket_creation_category : Z)
                (transcript_channel log_channel archive_category : option Z)
| AddType (i : interaction) (internal_name display : string)
          (descr emoji_ button_style_ welcome : option string)
          (specific_staff_role : option Z)
| RemoveType (i : interaction) (internal_name : string).

Definition perform (pf : platform) (op : operation) : M unit :=
  match op with
  | OnInteraction i => on_interaction pf i
  | CreatePanel i => create_ticket_panel pf i
  | CloseCommand i reason => close_ticket_command pf i reason
  | ModalSubmit i ch reason_input => on_submit pf i ch reason_input
  | SetupDefaults i r c t l a => setup_defaults i r c t l a
  | AddType i n d ds e b w r => add_type i n d ds e b w r
  | RemoveType i n => remove_type i n
  end.

(** ** Sample data used by the worked examples *)

Module Sample.

Definition row_with (pairs : list config_kwarg) : guild_config :=
  set_kwargs pairs default_row.

(** Guild 1: staff role 50, ticket category 10, transcript channel 30. *)
Definition the_guild : guild :=
  {| gd_id := 1; gd_roles := [1; 50]; default_role := 1;
     gd_channels := {[ 10 := CategoryChannel; 30 := TextChannel;
                       100 := TextChannel ]} |}.

Definition configured : guild_config :=
  row_with [KwRoles (Some [50]); KwInt ticket_channel_category_id (Some 10);
            KwInt transcript_channel_id (Some 30);
            KwInt ticket_counter (Some 5)].

Definition billing : ticket_type :=
  {| display_name := "Billing"; description := None; emoji := None;
     button_style := "primary"; welcome_message := None;
     specific_staff_roles := None |}.

Definition open_ticket : ticket :=
  {| guild_id := 1; ticket_display_id := 5; user_id := 7;
     ticket_type_name := "billing"; status := Open; created_at := 0;
     closed_by_user_id := None; closed_at := None; close_reason := None;
     transcript_message_id := None |}.

Definition closed_ticket : ticket :=
  fold_left set_ticket_kwarg
    [KwStatus Closed; KwClosedBy (Some 9); KwClosedAt (Some 3);
     KwCloseReason (Some "resolved")] open_ticket.

Definition db_open : database :=
  {| guild_configs := {[ 1 := configured ]};
     ticket_types := {[ (1, "billing") := billing ]};
     tickets := {[ 100 := open_ticket ]} |}.

Definition db_closed : database :=
  with_tickets db_open {[ 100 := closed_ticket ]}.

(** No configuration row; the type has its own staff role 50. *)
Definition db_unconfigured : database :=
  {| guild_configs := ∅;
     ticket_types :=
       {[ (1, "billing") :=
            {| display_name := "Billing"; description := None;
               emoji := None; button_style := "primary";
               welcome_message := None;
               specific_staff_roles := Some [50] |} ]};
     tickets := {[ 100 := open_ticket ]} |}.

(** Configured, but the only staff role on record (60) is no longer a
    role of the guild. *)
Definition db_stale_staff : database :=
  {| guild_configs :=
       {[ 1 := row_with [KwRoles (Some [60]);
                         KwInt ticket_channel_category_id (Some 10)] ]};
     ticket_types := {[ (1, "billing") := billing ]};
     tickets := ∅ |}.

Definition click (cid : string) (who : Z) (held : list Z) : interaction :=
  {| i_type := component; custom_id := Some cid; i_guild := the_guild;
     channel_id := 100; user := who; user_roles := held |}.

Definition command (who : Z) (held : list Z) : interaction :=
  {| i_type := application_command; custom_id := None;
     i_guild := the_guild; channel_id := 100; user := who;
     user_roles := held |}.

Definition all_fine : platform :=
  {| now := 42; history := Return (); transcript_send := Return "jump";
     channel_send := Return (); channel_edit := Return ();
     set_permissions := Return (); member_present := true;
     create_text_channel := Return 200; log_send := Return ();
     panel_send := Return 300; old_panel_delete := Return ();
     ticket_cog_loaded := true |}.

(** Reading the channel history fails (e.g. missing permission). *)
Definition history_fails : platform :=
  {| now := 42; history := Raise HTTPException;
     transcript_send := Return "jump";
     channel_send := Return (); channel_edit := Return ();
     set_permissions := Return (); member_present := true;
     create_text_channel := Return 200; log_send := Return ();
     panel_send := Return 300; old_panel_delete := Return ();
     ticket_cog_loaded := true |}.

Definition modal (who : Z) (held : list Z) : interaction :=
  {| i_type := modal_submit; custom_id := None; i_guild := the_guild;
     channel_id := 100; user := who; user_roles := held |}.

Definition start (db : database) : world := {| store := db; trace := [] |}.

End Sample.

(** ** Vocabulary of the properties *)

(** A handler [preserves R] when the world it leaves is related by [R] to
    the world it started from, whatever the outcome. *)
Definition preserves (R : relation world) {A} (m : M A) : Prop :=
  ∀ w, R w (m w).2.

(** [on_store Rdb] relates the stores and ignores the events. *)
Definition on_store (Rdb : relation database) : relation world :=
  λ w w', Rdb (store w) (store w').

(** [emits_only P]: the events added all satisfy [P]. *)
Definition emits_only (P : event → Prop) : relation world :=
  λ w w', ∃ new, trace w' = trace w ++ new ∧ Forall P new.

(** Every ticket that is closed in [db] is still there and closed in
    [db']. *)
Definition keeps_closed (db db' : database) : Prop :=
  ∀ ch t, tickets db !! ch = Some t → status t = Closed →
          ∃ t', tickets db' !! ch = Some t' ∧ status t' = Closed.

Definition same_tickets (db db' : database) : Prop := tickets db = tickets db'.

Definition not_modal (ev : event) : Prop := ∀ c, ev ≠ SendModal c.

Definition not_refusal (ev : event) : Prop := ev ≠ Reply NoPermissionCommand.

Definition not_provisioning (ev : event) : Prop := ∀ ch, ev ≠ ChannelCreated ch.

(** Characters of a rendered integer. *)
Definition is_digit (c : ascii) : Prop := is_Some (PyStr.digit_of c).

Definition plain (c : ascii) : Prop :=
  PyStr.is_space c = false ∧ Ascii.eqb c ":" = false.

(** A string without the separator of structured identifiers. *)
Definition colon_free (s : string) : Prop :=
  Forall (λ c, Ascii.eqb c ":" = false) (list_ascii_of_string s).

(** Whether a keyword names the INTEGER column [c]. *)
Definition names_int (c : int_column) (kw : config_kwarg) : bool :=
  match kw with
  | KwInt c' _ => bool_decide (c' = c)
  | _ => false
  end.

(** The fields of a [guild_configs] row that a keyword can name, the
    field a keyword names, and two rows agreeing on a field. *)
Inductive config_field : Type :=
| IntField (c : int_column)
| StaffRolesField
| NamingFormatField.

Definition field_of (kw : config_kwarg) : config_field :=
  match kw with
  | KwInt c _ => IntField c
  | KwRoles _ => StaffRolesField
  | KwFormat _ => NamingFormatField
  end.

Definition same_field (f : config_field) (r r' : guild_config) : Prop :=
  match f with
  | IntField c => ints r' c = ints r c
  | StaffRolesField => default_staff_roles r' = default_staff_roles r
  | NamingFormatField => ticket_naming_format r' = ticket_naming_format r
  end.

(** Overlapping callers of the counter: a caller has [incremented] once
    its UPDATE ran; [in_step] ties the stored counter and the numbers
    already returned to the number of such callers. *)
Definition incremented (p : Interleaving.pc) : bool :=
  match p with
  | Interleaving.AtReadBack | Interleaving.Returned _ => true
  | _ => false
  end.

Definition increments (callers : list (Z * Interleaving.pc)) : nat :=
  length (filter (λ c, incremented c.2 = true) callers).

Definition in_step (g : Z) (base : Z) (callers : list (Z * Interleaving.pc))
    (db : database) : Prop :=
  Forall (λ c, c.1 = g) callers
  ∧ match select_ticket_counter g db with
    | None =>
        base = 0
        ∧ Forall (λ c, c.2 = Interleaving.AtSelect
                       ∨ c.2 = Interleaving.AtInsert) callers
    | Some v => v = Some (base + Z.of_nat (increments callers))
    end
  ∧ Forall (λ c, ∀ n, c.2 = Interleaving.Returned n →
                      ∃ k, n = Some k
                           ∧ base + 1 ≤ k ≤ base + Z.of_nat (increments callers))
           callers.

(** ** Vocabulary of the further properties *)

(** Type rows as [/configticket tickettype add] writes them: the key is a
    slug and the style is one of the four names. *)
Definition well_formed_types (db : database) : Prop :=
  ∀ g name row, ticket_types db !! (g, name) = Some row →
                normalize name = name ∧ button_style row ∈ valid_styles.

(** [db'] differs from [db] at most in the ticket row of channel [ch]. *)
Definition touches_only_ticket (ch : Z) (db db' : database) : Prop :=
  guild_configs db' = guild_configs db
  ∧ ticket_types db' = ticket_types db
  ∧ ∀ ch', ch' ≠ ch → tickets db' !! ch' = tickets db !! ch'.

(** The columns that say whose ticket a row is and what it is about. *)
Definition same_identity (t t' : ticket) : Prop :=
  guild_id t' = guild_id t ∧ user_id t' = user_id t
  ∧ ticket_display_id t' = ticket_display_id t
  ∧ ticket_type_name t' = ticket_type_name t
  ∧ created_at t' = created_at t.

(** From [db] to [db'] no configuration row has changed, no ticket row
    has appeared or disappeared, and a ticket row that changed is closed
    and still the same ticket. *)
Definition only_closes (db db' : database) : Prop :=
  guild_configs db' = guild_configs db
  ∧ ∀ ch, match tickets db !! ch, tickets db' !! ch with
          | None, None => True
          | Some t, Some t' =>
              same_identity t t' ∧ (t' = t ∨ status t' = Closed)
          | _, _ => False
          end.

(** Events of the create branch past its checks: the counter has been
    taken and a channel is asked for. *)
Definition provisions (ev : event) : bool :=
  match ev with
  | ChannelCreated _ | ChannelMessage _ | StaffNotified
  | Reply (TicketCreated _) | Reply ChannelCreateFailed => true
  | _ => false
  end.

(** Events of a panel being put up. *)
Definition posts_panel (ev : event) : bool :=
  match ev with
  | PanelPosted _ | Reply PanelCreated => true
  | _ => false
  end.

(** Events of [/ticket close] past its write. *)
Definition closes_by_command (ev : event) : bool :=
  match ev with
  | ChannelRenamed _ | ChannelMessage _ | Reply TicketClosedByCommand
  | Reply ClosedInDbChannelError => true
  | _ => false
  end.

(** Whether [on_submit] reads the channel history: a transcript channel
    is configured and [get_channel] finds it. *)
Definition transcript_due (gd : guild) (cfg : guild_config) : bool :=
  truthy (ints cfg transcript_channel_id)
  && bool_decide (is_Some (get_channel gd (ints cfg transcript_channel_id))).

(** The key of [ticket_types] an operation is about, if any. *)
Definition type_key_of (op : operation) : option (Z * string) :=
  match op with
  | AddType i internal_name _ _ _ _ _ _ | RemoveType i internal_name =>
      Some (gd_id (i_guild i), normalize internal_name)
  | _ => None
  end.

(** Whether the name an operation is given for a ticket type, if it is
    given one, is in ASCII: [type_key_of] is then the key the Python code
    computes. *)
Definition type_name_in_ascii (op : operation) : bool :=
  match op with
  | AddType _ internal_name _ _ _ _ _ _ | RemoveType _ internal_name =>
      PyStr.isascii internal_name
  | _ => true
  end.

(** The rows of a listing whose names and display names are in ASCII. *)
Definition rows_in_ascii (rows : list (string * ticket_type)) : Prop :=
  Forall (λ tt, PyStr.isascii tt.1 = true
                ∧ PyStr.isascii (display_name tt.2) = true) rows.

(** [db'] differs from [db] at most in the ticket-type row of [key]. *)
Definition touches_only_type (key : option (Z * string)) (db db' : database)
  : Prop :=
  ∀ k, key ≠ Some k → ticket_types db' !! k = ticket_types db !! k.

(** A property of the stored data that holds after if it held before. *)
Definition keeps (P : database → Prop) : relation database :=
  λ db db', P db → P db'.

(** The characters a slug is made of: no space, no upper-case letter. *)
Definition slug_char (c : ascii) : Prop :=
  c ≠ " "%char ∧ PyStr.lower_char c = c.

(** * Properties *)

(** ** String primitives at work *)

Example normalize_bug_report : normalize "Bug Report" = "bug-report".
Proof. reflexivity. Qed.

Example split_three : PyStr.split_colon "a::b" = ["a"; ""; "b"].
Proof. reflexivity. Qed.

Example int_samples :
  PyStr.int " 12 " = Some 12 ∧ PyStr.int "1_0" = Some 10 ∧
  PyStr.int "-7" = Some (-7) ∧ PyStr.int "" = None ∧
  PyStr.int "1__0" = None ∧ PyStr.int "_1" = None ∧ PyStr.int "abc" = None.
Proof. repeat split; reflexivity. Qed.


(** ** Identifiers put on buttons are read back *)

Lemma digit_of_digit_char (d : Z) :
  0 ≤ d < 10 → PyStr.digit_of (PyStr.digit_char d) = Some d.
Proof.
  intros Hd.
  assert (d = 0 ∨ d = 1 ∨ d = 2 ∨ d = 3 ∨ d = 4 ∨ d = 5 ∨ d = 6 ∨ d = 7
          ∨ d = 8 ∨ d = 9) as Hcases by lia.
  destruct_or!; subst d; reflexivity.
Qed.

Lemma digit_plain (c : ascii) : is_digit c → plain c.
Proof.
  destruct c as [[] [] [] [] [] [] [] []]; intros [d Hd];
    try discriminate Hd; split; reflexivity.
Qed.

Lemma log2_tenth (n : Z) : 10 ≤ n → Z.log2 (n / 10) < Z.log2 n.
Proof.
  intros Hn.
  assert (1 ≤ n / 10) as Hpos by (apply Z.div_le_lower_bound; lia).
  pose proof (Z.mul_div_le n 10 ltac:(lia)) as Hmul.
  assert (Z.log2 (2 * (n / 10)) ≤ Z.log2 n) as Hle
    by (apply Z.log2_le_mono; lia).
  rewrite Z.log2_double in Hle by lia. lia.
Qed.

Lemma render_spec (fuel : nat) (n : Z) (acc : list ascii) :
  0 ≤ n → (Z.to_nat (Z.log2 n) < fuel)%nat →
  ∃ pre, PyStr.render fuel n acc = pre ++ acc
         ∧ pre ≠ []
         ∧ Forall is_digit pre
         ∧ ∀ a p rest,
             PyStr.digits a p (pre ++ rest)
             = PyStr.digits (a * 10 ^ Z.of_nat (length pre) + n) true rest.
Proof.
  revert n acc. induction fuel as [|fuel IH]; intros n acc Hn Hfuel; [lia|].
  cbn [PyStr.render]. destruct (n <? 10) eqn:Hsmall.
  - apply Z.ltb_lt in Hsmall. exists [PyStr.digit_char (n mod 10)].
    rewrite Z.mod_small by lia.
    split; [done|]. split; [done|]. split.
    + apply Forall_singleton. exists n. apply digit_of_digit_char. lia.
    + intros a p rest. cbn [app PyStr.digits length].
      rewrite digit_of_digit_char by lia. f_equal. lia.
  - apply Z.ltb_ge in Hsmall.
    destruct (IH (n / 10) (PyStr.digit_char (n mod 10) :: acc))
      as (pre & Hpre & Hne & Hdig & Hval).
    { apply Z.div_pos; lia. }
    { pose proof (log2_tenth n Hsmall). pose proof (Z.log2_nonneg (n / 10)).
      lia. }
    exists (pre ++ [PyStr.digit_char (n mod 10)]).
    split; [by rewrite Hpre, <- app_assoc|].
    split; [by destruct pre|]. split.
    + apply Forall_app. split; [done|]. apply Forall_singleton.
      exists (n mod 10). apply digit_of_digit_char.
      apply Z.mod_pos_bound. lia.
    + intros a p rest. rewrite <- app_assoc. cbn [app]. rewrite Hval.
      cbn [PyStr.digits].
      rewrite digit_of_digit_char by (apply Z.mod_pos_bound; lia).
      f_equal. rewrite length_app. cbn [length].
      rewrite Nat2Z.inj_add, Z.pow_add_r by lia.
      pose proof (Z.div_mod n 10). change (10 ^ Z.of_nat 1) with 10. lia.
Qed.

Lemma lstrip_plain (cs : list ascii) :
  Forall (λ c, PyStr.is_space c = false) cs → PyStr.lstrip cs = cs.
Proof.
  intros Hcs. destruct Hcs as [|c r Hc _]; [done|]. simpl. by rewrite Hc.
Qed.

Lemma strip_plain (cs : list ascii) :
  Forall (λ c, PyStr.is_space c = false) cs → PyStr.strip cs = cs.
Proof.
  intros Hcs. unfold PyStr.strip. rewrite (lstrip_plain cs Hcs).
  rewrite lstrip_plain by (by apply List.Forall_rev).
  apply rev_involutive.
Qed.

(** The characters of [str(n)]: an optional minus sign, then digits. *)
Lemma render_nat_spec (n : Z) :
  0 ≤ n →
  PyStr.render_nat n ≠ []
  ∧ Forall is_digit (PyStr.render_nat n)
  ∧ PyStr.digits 0 false (PyStr.render_nat n) = Some n.
Proof.
  intros Hn. unfold PyStr.render_nat.
  destruct (render_spec (S (Z.to_nat (Z.log2 n))) n [] Hn ltac:(lia))
    as (pre & -> & Hne & Hdig & Hval).
  rewrite app_nil_r. split; [done|]. split; [done|].
  specialize (Hval 0 false []). rewrite app_nil_r in Hval.
  rewrite Hval. cbn [PyStr.digits]. f_equal; lia.
Qed.

(** [int(str(n)) == n] *)
Lemma int_str (n : Z) : PyStr.int (PyStr.str n) = Some n.
Proof.
  unfold PyStr.int, PyStr.str. rewrite list_ascii_of_string_of_list_ascii.
  destruct (n <? 0) eqn:Hneg.
  - apply Z.ltb_lt in Hneg.
    destruct (render_nat_spec (- n) ltac:(lia)) as (_ & Hdig & Hval).
    rewrite strip_plain.
    + cbn [fmap option_fmap option_map]. rewrite Hval. cbn.
      by rewrite Z.opp_involutive.
    + constructor; [done|].
      eapply Forall_impl; [exact Hdig|]. intros c Hc. by apply digit_plain.
  - apply Z.ltb_ge in Hneg.
    destruct (render_nat_spec n Hneg) as (Hne & Hdig & Hval).
    rewrite strip_plain.
    + destruct (PyStr.render_nat n) as [|c r]; [done|].
      apply Forall_cons in Hdig as [[d Hd] _].
      destruct c as [[] [] [] [] [] [] [] []]; try discriminate Hd;
        exact Hval.
    + eapply Forall_impl; [exact Hdig|]. intros c Hc. by apply digit_plain.
Qed.

Lemma str_colon_free (n : Z) : colon_free (PyStr.str n).
Proof.
  unfold colon_free, PyStr.str. rewrite list_ascii_of_string_of_list_ascii.
  assert (∀ m, 0 ≤ m →
               Forall (λ c, Ascii.eqb c ":" = false) (PyStr.render_nat m))
    as Hrender.
  { intros m Hm. destruct (render_nat_spec m Hm) as (_ & Hdig & _).
    eapply Forall_impl; [exact Hdig|]. intros c Hc. by apply digit_plain. }
  destruct (n <? 0) eqn:Hneg.
  - apply Z.ltb_lt in Hneg. constructor; [done|]. apply Hrender. lia.
  - apply Z.ltb_ge in Hneg. by apply Hrender.
Qed.

Lemma split_colon_free (s : string) : colon_free s → PyStr.split_colon s = [s].
Proof.
  unfold colon_free. induction s as [|c s IH]; [done|].
  cbn [list_ascii_of_string]. intros [Hc Hs]%Forall_cons.
  cbn beta in Hc. cbn [PyStr.split_colon]. rewrite Hc.
  rewrite IH by done. done.
Qed.

Lemma split_colon_segment (s r : string) :
  colon_free s →
  PyStr.split_colon (s +:+ ":" +:+ r) = s :: PyStr.split_colon r.
Proof.
  unfold colon_free. induction s as [|c s IH]; [done|].
  cbn [list_ascii_of_string]. intros [Hc Hs]%Forall_cons.
  cbn beta in Hc. change (String c s +:+ ":" +:+ r)
    with (String c (s +:+ ":" +:+ r)).
  cbn [PyStr.split_colon]. rewrite Hc. rewrite IH by done. done.
Qed.

(** The router splits the id of a close button into its four segments
    and reads the channel id back. *)
Lemma close_button_segments (ch owner : Z) :
  PyStr.split_colon (close_button_custom_id ch owner)
  = ["ticket_actions"; "close"; PyStr.str ch; PyStr.str owner]
  ∧ PyStr.int (PyStr.str ch) = Some ch.
Proof.
  split; [|apply int_str]. unfold close_button_custom_id.
  change ("ticket_actions:close:" +:+ PyStr.str ch +:+ ":" +:+ PyStr.str owner)
    with ("ticket_actions" +:+ ":" +:+ "close" +:+ ":" +:+ PyStr.str ch +:+ ":"
          +:+ PyStr.str owner).
  rewrite !split_colon_segment, split_colon_free;
    first [done | apply str_colon_free | by repeat constructor].
Qed.


(** ** The counter and the configuration row *)

Section Counter.

Implicit Types (g : Z) (db : database) (kwargs : list config_kwarg).

Lemma select_increment_eq g db :
  select_ticket_counter g (increment_ticket_counter g db)
  = (λ v : option Z, Z.succ <$> v) <$> select_ticket_counter g db.
Proof.
  unfold select_ticket_counter, increment_ticket_counter; simpl.
  rewrite lookup_alter_eq.
  by destruct (guild_configs db !! g) as [r|].
Qed.

Lemma select_increment_ne g g' db :
  g' ≠ g →
  select_ticket_counter g (increment_ticket_counter g' db)
  = select_ticket_counter g db.
Proof.
  intros Hne. unfold select_ticket_counter, increment_ticket_counter; simpl.
  by rewrite lookup_alter_ne.
Qed.

Lemma select_insert_or_ignore_present g g' db v :
  select_ticket_counter g db = Some v →
  select_ticket_counter g (insert_or_ignore_config g' db) = Some v.
Proof.
  unfold select_ticket_counter, insert_or_ignore_config. intros Hsel.
  destruct (guild_configs db !! g') as [r'|] eqn:Hg'; [done|]. simpl.
  destruct (decide (g' = g)) as [->|Hne].
  - by rewrite Hg' in Hsel.
  - by rewrite lookup_insert_ne.
Qed.

Lemma select_insert_or_ignore_fresh g db :
  select_ticket_counter g db = None →
  select_ticket_counter g (insert_or_ignore_config g db) = Some (Some 0).
Proof.
  unfold select_ticket_counter, insert_or_ignore_config. intros Hsel.
  destruct (guild_configs db !! g) as [r|] eqn:Hg; [done|]. simpl.
  by rewrite lookup_insert_eq.
Qed.

(** A call running alone on an existing row returns the stored counter
    plus one and stores it. *)
Lemma get_and_increment_existing g db c :
  select_ticket_counter g db = Some (Some c) →
  (get_and_increment_ticket_counter g db).1 = Some (c + 1)
  ∧ select_ticket_counter g (get_and_increment_ticket_counter g db).2
    = Some (Some (c + 1)).
Proof.
  intros Hsel. unfold get_and_increment_ticket_counter, read_back; simpl.
  rewrite Hsel, select_increment_eq, Hsel. simpl. by rewrite Z.add_1_r.
Qed.

(** Without a row the counter starts at 0, so the first number is 1. *)
Lemma get_and_increment_first g db :
  select_ticket_counter g db = None →
  (get_and_increment_ticket_counter g db).1 = Some 1
  ∧ select_ticket_counter g (get_and_increment_ticket_counter g db).2
    = Some (Some 1).
Proof.
  intros Hsel. unfold get_and_increment_ticket_counter, read_back; simpl.
  rewrite Hsel, select_increment_eq, (select_insert_or_ignore_fresh _ _ Hsel).
  done.
Qed.

Lemma get_and_increment_other g g' db :
  g' ≠ g →
  select_ticket_counter g (get_and_increment_ticket_counter g' db).2
  = select_ticket_counter g db.
Proof.
  intros Hne. unfold get_and_increment_ticket_counter; simpl.
  rewrite select_increment_ne by done.
  destruct (select_ticket_counter g' db) as [v|] eqn:Hg'; [done|].
  unfold select_ticket_counter, insert_or_ignore_config in *.
  destruct (guild_configs db !! g') as [r'|]; [done|]. simpl.
  by rewrite lookup_insert_ne.
Qed.

(** The machine of [Interleaving] run by a single caller is the
    function. *)
Lemma single_caller_adequate g db :
  Interleaving.run [0; 0; 0; 0]%nat [(g, Interleaving.AtSelect)] db
  = ([(g, Interleaving.Returned (get_and_increment_ticket_counter g db).1)],
     (get_and_increment_ticket_counter g db).2).
Proof.
  unfold get_and_increment_ticket_counter. simpl.
  destruct (select_ticket_counter g db); reflexivity.
Qed.

(** The first statement of [update_guild_config] is run with one bound
    value too many, so the call raises before it writes. *)
Lemma update_guild_config_raises g kwargs db :
  ∃ e, update_guild_config g kwargs db = (Raise e, db).
Proof.
  destruct kwargs as [|kw kwargs]; [by exists OperationalError|].
  exists ProgrammingError. unfold update_guild_config, execute.
  replace (_ =? _)%nat with false; [done|].
  symmetry. apply Nat.eqb_neq.
  pose proof (length_fmap (inr : config_kwarg → Z + config_kwarg) kwargs)
    as Hlen.
  rewrite length_app, length_cons, length_app.
  cbn [length fmap list_fmap] in *. rewrite !Hlen. lia.
Qed.

Lemma update_guild_config_store g kwargs db :
  (update_guild_config g kwargs db).2 = db.
Proof. by destruct (update_guild_config_raises g kwargs db) as [e ->]. Qed.

Lemma apply_write_counter (op : config_write) db g c :
  select_ticket_counter g db = Some (Some c) →
  ∃ c', select_ticket_counter g (apply_write db op) = Some (Some c') ∧ c ≤ c'.
Proof.
  intros Hsel. destruct op as [g'|g' kwargs|i r ct t l a]; cbn [apply_write].
  - destruct (decide (g' = g)) as [->|Hne].
    + exists (c + 1). split; [|lia].
      by apply get_and_increment_existing.
    + exists c. by rewrite get_and_increment_other.
  - exists c. by rewrite update_guild_config_store.
  - exists c. done.
Qed.

End Counter.

(** *** What the two statements of [update_guild_config] would write *)

Lemma set_kwargs_unnamed (kwargs : list config_kwarg) (r : guild_config)
    (c : int_column) :
  forallb (λ kw, negb (names_int c kw)) kwargs = true →
  ints (set_kwargs kwargs r) c = ints r c.
Proof.
  unfold set_kwargs. revert r.
  induction kwargs as [|kw kwargs IH]; intros r Hall; [done|].
  simpl in Hall. apply andb_prop in Hall as [Hkw Hall].
  simpl. rewrite IH by done.
  destruct kw as [c' v| |]; simpl in *; try done.
  rewrite decide_False; [done|].
  intros ->. by rewrite bool_decide_true in Hkw.
Qed.

(** The ON CONFLICT statement merges: a column not named keeps the value
    of the existing row. *)
Lemma insert_on_conflict_update_keeps (g : Z) kwargs (db : database) r c :
  guild_configs db !! g = Some r →
  forallb (λ kw, negb (names_int c kw)) kwargs = true →
  (λ r', ints r' c) <$> guild_configs (insert_on_conflict_update g kwargs db) !! g
  = Some (ints r c).
Proof.
  intros Hr Hall. unfold insert_on_conflict_update; simpl.
  rewrite lookup_insert_eq, Hr. simpl. by rewrite set_kwargs_unnamed.
Qed.

(** INSERT OR REPLACE does not: a column not named falls back to its
    DEFAULT, whatever the existing row held. *)
Lemma insert_or_replace_resets (g : Z) kwargs (db : database) c :
  forallb (λ kw, negb (names_int c kw)) kwargs = true →
  (λ r', ints r' c) <$> guild_configs (insert_or_replace g kwargs db) !! g
  = Some (column_default c).
Proof.
  intros Hall. unfold insert_or_replace; simpl.
  rewrite lookup_insert_eq. simpl. by rewrite set_kwargs_unnamed.
Qed.

(** *** Claims on the counter and the configuration row *)

Lemma fmap_seq_shift {A} (f : nat → A) (a n : nat) :
  (λ k, f (S k)) <$> seq a n = f <$> seq (S a) n.
Proof.
  revert a. induction n as [|n IH]; intros a; [done|].
  cbn [seq fmap list_fmap]. f_equal. apply IH.
Qed.

(** C1, as stated, fails.  Two calls for guild 1 overlap on a store
    without a row: the first runs its SELECT, INSERT OR IGNORE and UPDATE,
    the second its SELECT and UPDATE, then both read back.  Both return 2,
    where the claim promises distinct numbers; the stored counter is 2. *)
Lemma overlapping_calls_return_same_number :
  let final :=
    Interleaving.run [0; 0; 0; 1; 1; 0; 1]%nat
      [(1, Interleaving.AtSelect); (1, Interleaving.AtSelect)] empty_db in
  Interleaving.results final.1 = [Some (Some 2); Some (Some 2)]
  ∧ select_ticket_counter 1 final.2 = Some (Some 2).
Proof. split; reflexivity. Qed.

(** Calls that run one after the other, in the model's unbounded
    integers. *)
Lemma calls_in_sequence_spec (n : nat) (g c : Z) (db : database) :
  counter_before g db = Some c →
  (calls_in_sequence n g db).1
  = (λ k, Some (c + Z.of_nat k)) <$> seq 1 n
  ∧ (n ≠ 0%nat →
     select_ticket_counter g (calls_in_sequence n g db).2
     = Some (Some (c + Z.of_nat n))).
Proof.
  revert c db. induction n as [|n IH]; intros c db Hc; [done|].
  cbn [calls_in_sequence fst snd].
  assert ((get_and_increment_ticket_counter g db).1 = Some (c + 1)
          ∧ select_ticket_counter g (get_and_increment_ticket_counter g db).2
            = Some (Some (c + 1))) as [Hret Hsel].
  { unfold counter_before in Hc.
    destruct (select_ticket_counter g db) as [v|] eqn:Hsel.
    - subst v. by apply get_and_increment_existing.
    - simplify_eq. by apply get_and_increment_first. }
  destruct (IH (c + 1) (get_and_increment_ticket_counter g db).2) as [IH1 IH2].
  { unfold counter_before. by rewrite Hsel. }
  split.
  - rewrite Hret, IH1. cbn [seq fmap list_fmap].
    replace (c + Z.of_nat 1) with (c + 1) by lia. f_equal.
    rewrite <- (fmap_seq_shift (λ k, Some (c + Z.of_nat k))).
    apply list_fmap_ext. intros _ k _. f_equal. lia.
  - intros _. destruct n as [|n'].
    + cbn [calls_in_sequence snd]. rewrite Hsel. by do 2 f_equal.
    + rewrite IH2 by done. do 2 f_equal. lia.
Qed.

(** C1, amended.  Calls for one community that run one after the other
    receive distinct, strictly increasing numbers, as long as the counter
    stays an SQLite INTEGER: starting from a stored counter [c] (0 when
    the community has no row yet), [n] calls with [c + n] below 2^63
    return [c + 1], ..., [c + n] in this order and leave [c + n] stored. *)
Theorem sequential_calls_strictly_increase (n : nat) (g c : Z) (db : database) :
  counter_before g db = Some c →
  c + Z.of_nat n < 2 ^ 63 →
  (calls_in_sequence n g db).1
  = (λ k, Some (c + Z.of_nat k)) <$> seq 1 n
  ∧ (n ≠ 0%nat →
     select_ticket_counter g (calls_in_sequence n g db).2
     = Some (Some (c + Z.of_nat n)))
  ∧ (∀ j k a b, (j < k)%nat →
                (calls_in_sequence n g db).1 !! j = Some (Some a) →
                (calls_in_sequence n g db).1 !! k = Some (Some b) →
                a < b).
Proof.
  intros Hc _.
  destruct (calls_in_sequence_spec n g c db Hc) as [Hnums Hstored].
  split; [done|]. split; [done|].
  intros j k a b Hjk. rewrite Hnums, !list_lookup_fmap.
  intros Ha Hb.
  destruct (seq 1 n !! j) as [x|] eqn:Hx; [|done].
  destruct (seq 1 n !! k) as [y|] eqn:Hy; [|done].
  apply lookup_seq in Hx as [-> _]. apply lookup_seq in Hy as [-> _].
  simpl in Ha, Hb. simplify_eq. lia.
Qed.

Lemma sequential_calls_strictly_increase_witness :
  (calls_in_sequence 3 1 Sample.db_open).1 = [Some 6; Some 7; Some 8]
  ∧ select_ticket_counter 1 (calls_in_sequence 3 1 Sample.db_open).2
    = Some (Some 8).
Proof.
  destruct (sequential_calls_strictly_increase 3 1 5 Sample.db_open)
    as (Hnums & Hstored & _).
  - reflexivity.
  - reflexivity.
  - split; [exact Hnums | by apply Hstored].
Defined.

(** C2.  Along every sequence of counter increments, configuration
    upserts and initial setups, a stored integer [ticket_counter] stays a
    stored integer and never gets smaller. *)
Theorem ticket_counter_never_decreases (ops : list config_write)
    (db : database) (g c : Z) :
  select_ticket_counter g db = Some (Some c) →
  ∃ c', select_ticket_counter g (fold_left apply_write ops db) = Some (Some c')
        ∧ c ≤ c'.
Proof.
  revert db c. induction ops as [|op ops IH]; intros db c Hsel.
  - exists c. split; [done | lia].
  - destruct (apply_write_counter op db g c Hsel) as (c1 & Hsel1 & Hle1).
    destruct (IH _ _ Hsel1) as (c2 & Hsel2 & Hle2).
    exists c2. split; [done | lia].
Qed.

Lemma ticket_counter_never_decreases_witness :
  ∃ c', select_ticket_counter 1
          (fold_left apply_write
             [CounterIncrement 1;
              ConfigUpsert 1 [KwInt panel_channel_id (Some 7)];
              InitialSetup (Sample.click "" 7 [1]) 50 10 None None None;
              CounterIncrement 2; CounterIncrement 1]
             Sample.db_open) = Some (Some c')
        ∧ 5 ≤ c'.
Proof.
  apply (ticket_counter_never_decreases _ Sample.db_open 1 5). reflexivity.
Defined.

(** C3.  For a community that has a configuration row and any partial
    update, [update_guild_config] changes no field that the update does
    not name: after the call the community still has its row, and every
    field not named holds the value it held before.  The rows of the
    other communities, the ticket types and the tickets are as before
    too. *)
Theorem update_guild_config_keeps_unnamed_fields (g : Z)
    (kwargs : list config_kwarg) (db : database) (r : guild_config) :
  get_guild_config g db = Some r →
  let after := (update_guild_config g kwargs db).2 in
  (∃ r', get_guild_config g after = Some r'
         ∧ ∀ f, f ∉ field_of <$> kwargs → same_field f r r')
  ∧ (∀ g', g' ≠ g → get_guild_config g' after = get_guild_config g' db)
  ∧ ticket_types after = ticket_types db
  ∧ tickets after = tickets db.
Proof.
  intros Hr after. subst after. rewrite update_guild_config_store.
  split; [|done]. exists r. split; [done|].
  intros f _. by destruct f.
Qed.

Lemma update_guild_config_keeps_unnamed_fields_witness :
  let kwargs := [KwInt panel_channel_id (Some 7);
                 KwInt panel_message_id (Some 300)] in
  let after := (update_guild_config 1 kwargs Sample.db_open).2 in
  ∃ r', get_guild_config 1 after = Some r'
        ∧ same_field (IntField ticket_counter) Sample.configured r'
        ∧ same_field StaffRolesField Sample.configured r'
        ∧ same_field NamingFormatField Sample.configured r'.
Proof.
  destruct (update_guild_config_keeps_unnamed_fields 1
              [KwInt panel_channel_id (Some 7);
               KwInt panel_message_id (Some 300)]
              Sample.db_open Sample.configured eq_refl)
    as ((r' & Hr' & Hsame) & _).
  exists r'. split; [exact Hr'|].
  repeat split; apply Hsame; cbn;
    rewrite !elem_of_cons, elem_of_nil; intros [?|[?|[]]]; discriminate.
Defined.

(** An administrator runs [/configticket setupdefaults] again in guild 1,
    which has a row (counter 5, ticket category 10), with staff role 51
    and category 11.  [update_guild_config] is called with eight
    keywords: its first statement has 17 placeholders and is given 18
    values, so the call raises [ProgrammingError] and the row is left as
    it was, the named fields included (the category is still 10).  The
    statement that would follow replaces the row, which would put the
    counter, a field not named, back to 0; the first statement would have
    kept it. *)
Example setup_defaults_again_writes_nothing :
  let kwargs :=
    [KwRoles (Some [51]); KwInt ticket_channel_category_id (Some 11);
     KwInt transcript_channel_id None; KwInt log_channel_id None;
     KwInt archive_channel_category_id None;
     KwFormat (Some "ticket-{user_short}-{id}");
     KwInt ticket_limit_per_user (Some 1); KwInt allow_user_close (Some 1)] in
  let db := Sample.db_open in
  setup_defaults (Sample.command 9 [1; 50]) 51 11 None None None
    (Sample.start db)
  = (Raise ProgrammingError, {| store := db; trace := [Defer] |})
  ∧ update_guild_config 1 kwargs db = (Raise ProgrammingError, db)
  ∧ (λ r, ints r ticket_channel_category_id) <$> get_guild_config 1 db
    = Some (Some 10)
  ∧ select_ticket_counter 1 db = Some (Some 5)
  ∧ select_ticket_counter 1 (insert_or_replace 1 kwargs db) = Some (Some 0)
  ∧ select_ticket_counter 1 (insert_on_conflict_update 1 kwargs db)
    = Some (Some 5).
Proof. repeat split; reflexivity. Qed.

(** *** Overlapping calls in general *)

Section Overlap.

Import Interleaving.

Lemma increments_insert callers k g p p' :
  callers !! k = Some (g, p) →
  (increments (<[k := (g, p')]> callers) + (if incremented p then 1 else 0)
   = increments callers + (if incremented p' then 1 else 0))%nat.
Proof.
  unfold increments. revert k.
  induction callers as [|c callers IH]; intros k Hk; [done|].
  destruct k as [|k]; simpl in *.
  - simplify_eq. rewrite !filter_cons. simpl.
    destruct (incremented p), (incremented p'); simpl;
      repeat case_decide; simpl; try done; lia.
  - rewrite !filter_cons. specialize (IH k Hk).
    case_decide; simpl; lia.
Qed.

Lemma increments_pos callers k g p :
  callers !! k = Some (g, p) → incremented p = true →
  (0 < increments callers)%nat.
Proof.
  intros Hk Hp. unfold increments.
  assert ((g, p) ∈ filter (λ c, incremented c.2 = true) callers) as Hin.
  { apply list_elem_of_filter. split; [done|]. by eapply list_elem_of_lookup_2. }
  destruct (filter _ callers); [by apply elem_of_nil in Hin|simpl; lia].
Qed.

Lemma increments_not_started callers :
  Forall (λ c : Z * pc, c.2 = AtSelect ∨ c.2 = AtInsert) callers →
  increments callers = 0%nat.
Proof.
  unfold increments. induction 1 as [|[g p] callers Hc _ IH]; [done|].
  rewrite filter_cons. simpl in Hc.
  destruct Hc as [-> | ->]; by rewrite decide_False.
Qed.

Lemma increments_le_length callers : (increments callers ≤ length callers)%nat.
Proof. unfold increments. apply length_filter. Qed.

(** One statement of one caller keeps the callers in step with the
    store. *)
Lemma in_step_step g base callers db k p :
  in_step g base callers db →
  callers !! k = Some (g, p) →
  in_step g base (<[k := (g, (step g p db).1)]> callers) (step g p db).2.
Proof.
  intros (Hg & Hsel & Hret) Hk.
  pose proof (increments_insert callers k g p (step g p db).1 Hk) as Hinc.
  split; [by apply Forall_insert|].
  destruct p as [| | | |n]; cbn [step fst snd incremented] in *.
  - (* first SELECT *)
    assert (increments (<[k := (g, match select_ticket_counter g db with
                                    | Some _ => AtUpdate
                                    | None => AtInsert
                                    end)]> callers) = increments callers) as ->.
    { destruct (select_ticket_counter g db); simpl in Hinc; lia. }
    split.
    + destruct (select_ticket_counter g db) as [v|]; [done|].
      destruct Hsel as [-> Hpcs]. split; [done|].
      apply Forall_insert; [done|]. by right.
    + apply Forall_insert; [done|].
      intros n Hn. by destruct (select_ticket_counter g db).
  - (* INSERT OR IGNORE *)
    simpl in Hinc.
    assert (increments (<[k := (g, AtUpdate)]> callers) = increments callers)
      as -> by lia.
    split.
    + destruct (select_ticket_counter g db) as [v|] eqn:Hrow.
      * by rewrite (select_insert_or_ignore_present g g db v Hrow).
      * destruct Hsel as [-> Hpcs].
        rewrite (select_insert_or_ignore_fresh g db Hrow).
        by rewrite (increments_not_started callers Hpcs).
    + apply Forall_insert; [done|]. by intros n Hn.
  - (* UPDATE *)
    simpl in Hinc.
    assert (increments (<[k := (g, AtReadBack)]> callers)
            = S (increments callers)) as -> by lia.
    split.
    + rewrite select_increment_eq.
      destruct (select_ticket_counter g db) as [v|].
      * subst v. simpl. do 2 f_equal. lia.
      * destruct Hsel as [_ Hpcs].
        eapply Forall_lookup_1 in Hpcs; [|exact Hk].
        by destruct Hpcs.
    + apply Forall_insert; [|by intros n Hn].
      eapply Forall_impl; [exact Hret|]. intros x Hx n Hn.
      destruct (Hx n Hn) as (j & -> & Hj). exists j. split; [done|]. lia.
  - (* second SELECT *)
    simpl in Hinc.
    assert (increments (<[k := (g, Returned (read_back g db))]> callers)
            = increments callers) as -> by lia.
    pose proof (increments_pos callers k g AtReadBack Hk eq_refl) as Hpos.
    unfold read_back.
    destruct (select_ticket_counter g db) as [v|].
    + subst v. split; [done|].
      apply Forall_insert; [done|]. intros n [= <-].
      eexists. split; [done|]. lia.
    + destruct Hsel as [_ Hpcs].
      eapply Forall_lookup_1 in Hpcs; [|exact Hk].
      by destruct Hpcs.
  - (* returned *)
    rewrite list_insert_id by done. done.
Qed.

Lemma in_step_run g base schedule callers db :
  in_step g base callers db →
  in_step g base (run schedule callers db).1 (run schedule callers db).2.
Proof.
  revert callers db. induction schedule as [|k schedule IH];
    intros callers db Hin; [done|].
  cbn [run]. destruct (callers !! k) as [[g' p]|] eqn:Hk; [|by apply IH].
  assert (g' = g) as ->.
  { destruct Hin as (Hg & _). by eapply Forall_lookup_1 in Hg; [|exact Hk]. }
  pose proof (in_step_step g base callers db k p Hin Hk) as Hnext.
  destruct (step g p db) as [p' db']. by apply IH.
Qed.

Lemma run_length schedule callers db :
  length (run schedule callers db).1 = length callers.
Proof.
  revert callers db. induction schedule as [|k schedule IH];
    intros callers db; [done|].
  cbn [run]. destruct (callers !! k) as [[g p]|]; [|by apply IH].
  destruct (step g p db) as [p' db']. by rewrite IH, length_insert.
Qed.

(** X1.  However the statements of the callers of one guild interleave,
    as long as the counter they started from plus the number of callers
    is below 2^63: every number handed out lies between that counter plus
    one and that counter plus the number of callers, and the stored
    counter has advanced by one for each caller that ran its UPDATE. *)
Lemma overlapping_calls_stay_in_range g c schedule callers db :
  counter_before g db = Some c →
  c + Z.of_nat (length callers) < 2 ^ 63 →
  Forall (λ caller, caller = (g, AtSelect)) callers →
  let final := run schedule callers db in
  (∀ n, Some n ∈ results final.1 →
        ∃ k, n = Some k ∧ c + 1 ≤ k ≤ c + Z.of_nat (length callers))
  ∧ (is_Some (select_ticket_counter g final.2) →
     select_ticket_counter g final.2
     = Some (Some (c + Z.of_nat (increments final.1)))).
Proof.
  intros Hc _ Hstart final.
  assert (in_step g c callers db) as Hin.
  { assert (increments callers = 0%nat) as Hzero.
    { apply increments_not_started.
      eapply Forall_impl; [exact Hstart|]. intros x ->. by left. }
    split; [|split].
    - eapply Forall_impl; [exact Hstart|]. by intros x ->.
    - unfold counter_before in Hc. rewrite Hzero.
      destruct (select_ticket_counter g db) as [v|].
      + subst v. do 2 f_equal. simpl. lia.
      + simplify_eq. split; [done|].
        eapply Forall_impl; [exact Hstart|]. intros x ->. by left.
    - eapply Forall_impl; [exact Hstart|]. by intros x -> n Hn. }
  apply (in_step_run g c schedule) in Hin. fold final in Hin.
  destruct Hin as (_ & Hsel & Hret). split.
  - intros n Hn. unfold results in Hn.
    apply list_elem_of_fmap in Hn as (caller & Hcaller & Hin).
    rewrite Forall_forall in Hret. specialize (Hret caller Hin).
    destruct caller as [g' p]. simpl in *. destruct p; try done.
    simplify_eq. destruct (Hret _ eq_refl) as (k & -> & Hk).
    exists k. split; [done|].
    pose proof (increments_le_length final.1) as Hle.
    subst final. rewrite run_length in Hle. lia.
  - intros [v Hv]. rewrite Hv in Hsel. by rewrite Hv, Hsel.
Qed.

End Overlap.

(** ** Ticket-type names *)

Section TypeNames.

Lemma normalize_char_idem (c : ascii) :
  let slug c := if Ascii.eqb (PyStr.lower_char c) " " then "-"%char
                else PyStr.lower_char c in
  slug (slug c) = slug c.
Proof. destruct c as [[] [] [] [] [] [] [] []]; reflexivity. Qed.

Lemma normalize_unfold (c : ascii) (s : string) :
  normalize (String c s)
  = String (if Ascii.eqb (PyStr.lower_char c) " " then "-"%char
            else PyStr.lower_char c) (normalize s).
Proof. reflexivity. Qed.

(** The command layer and the storage layer both apply the slug; the
    second application changes nothing. *)
Lemma normalize_idempotent (s : string) : normalize (normalize s) = normalize s.
Proof.
  induction s as [|c s IH]; [done|].
  rewrite !normalize_unfold, IH. f_equal. apply normalize_char_idem.
Qed.

Lemma add_ticket_type_fresh g raw row db :
  ticket_types db !! (g, normalize raw) = None →
  add_ticket_type g raw row db
  = (true,
     with_types db (<[(g, normalize raw) := as_stored row]> (ticket_types db))).
Proof. intros Hfree. unfold add_ticket_type. by rewrite Hfree. Qed.

Lemma add_ticket_type_taken g raw row db :
  is_Some (ticket_types db !! (g, normalize raw)) →
  add_ticket_type g raw row db = (false, db).
Proof. intros [old Hold]. unfold add_ticket_type. by rewrite Hold. Qed.

(** The write of [/configticket tickettype add] and what the command
    returns and sends. *)
Lemma add_type_run i raw display descr em style_ welcome role (w : world) :
  let added :=
    add_ticket_type (gd_id (i_guild i)) (normalize raw)
      {| display_name := display; description := descr; emoji := em;
         button_style :=
           match style_ with
           | Some s => if bool_decide (s ∈ valid_styles) then s else "primary"
           | None => "primary"
           end;
         welcome_message := welcome;
         specific_staff_roles := (λ r, [r]) <$> role |} (store w) in
  add_type i raw display descr em style_ welcome role w
  = (Return (),
     {| store := added.2;
        trace :=
          trace w
          ++ [Defer;
              Reply (if added.1 then TypeAdded (normalize raw)
                     else TypeNotAdded (normalize raw))]
          ++ match style_ with
             | Some s => if bool_decide (s ∈ valid_styles) then []
                         else [Reply (InvalidStyleWarning s)]
             | None => []
             end |}).
Proof.
  unfold add_type, bind, call, emit, ret. cbn [store trace].
  destruct (add_ticket_type _ _ _ _) as [b db']. cbn [fst snd store trace].
  destruct style_ as [s|]; [case_bool_decide|];
    cbn [store trace]; by rewrite <- ?app_assoc, ?app_nil_r.
Qed.

(** [/configticket tickettype add] stores under the same key as a direct
    [add_ticket_type] with the raw name. *)
Lemma add_type_key i raw display descr em style welcome role (w : world) :
  ∃ row,
    store (add_type i raw display descr em style welcome role w).2
    = (add_ticket_type (gd_id (i_guild i)) raw row (store w)).2.
Proof.
  eexists. rewrite add_type_run. cbn [snd store].
  unfold add_ticket_type. by rewrite normalize_idempotent.
Qed.

End TypeNames.

(** C4, as stated, fails.  After [add_ticket_type(1, "Bug Report", ...)]
    on an empty store the lookup with the same raw input finds nothing,
    and so does the storage-level removal: neither applies the slug.  The
    type is found under [bug-report]. *)
Lemma raw_name_lookup_misses :
  let added := add_ticket_type 1 "Bug Report" Sample.billing empty_db in
  added.1 = true
  ∧ get_ticket_type_by_name 1 "Bug Report" added.2 = None
  ∧ (remove_ticket_type 1 "Bug Report" added.2).1 = false
  ∧ get_ticket_type_by_name 1 "bug-report" added.2 = Some Sample.billing.
Proof. repeat split; reflexivity. Qed.

(** C4, amended.  For names in ASCII.  The slug (lowercase, spaces to
    hyphens) is applied by add and by the remove command; lookup compares
    the stored key exactly.  Adding a raw name whose slug is free succeeds
    and stores the row under the slug (an empty list of staff roles as
    NULL); the row is found under the slug and
    the lookup of every other key is as before; a further add of any
    ASCII input with the same slug returns false; the remove command given
    the same raw input removes that key. *)
Theorem normalization_at_add_and_remove (g : Z) (raw : string)
    (row : ticket_type) (db : database) :
  PyStr.isascii raw = true →
  ticket_types db !! (g, normalize raw) = None →
  let added := add_ticket_type g raw row db in
  added.1 = true
  ∧ get_ticket_type_by_name g (normalize raw) added.2 = Some (as_stored row)
  ∧ (∀ k, k ≠ normalize raw →
          get_ticket_type_by_name g k added.2 = get_ticket_type_by_name g k db)
  ∧ (∀ raw' row', PyStr.isascii raw' = true →
                  normalize raw' = normalize raw →
                  (add_ticket_type g raw' row' added.2).1 = false)
  ∧ (∀ i tr, gd_id (i_guild i) = g →
       let w' := (remove_type i raw {| store := added.2; trace := tr |}).2 in
       trace w' = tr ++ [Defer; Reply (TypeRemoved (normalize raw))]
       ∧ get_ticket_type_by_name g (normalize raw) (store w') = None).
Proof.
  intros _ Hfree added. subst added. rewrite add_ticket_type_fresh by done.
  cbn [fst snd]. unfold get_ticket_type_by_name. cbn [ticket_types with_types].
  split; [done|]. split; [by rewrite lookup_insert_eq|].
  split.
  { intros k Hk. rewrite lookup_insert_ne; [done|]. congruence. }
  split.
  { intros raw' row' _ Heq. rewrite add_ticket_type_taken; [done|].
    cbn [ticket_types with_types]. rewrite Heq, lookup_insert_eq. by eexists. }
  intros i tr <-.
  unfold remove_type, bind, call, emit, remove_ticket_type; simpl.
  rewrite lookup_insert_eq. simpl. rewrite <- app_assoc. split; [done|].
  by rewrite lookup_delete_eq.
Qed.

Lemma normalization_at_add_and_remove_witness :
  let added := add_ticket_type 1 "Bug Report" Sample.billing empty_db in
  added.1 = true
  ∧ get_ticket_type_by_name 1 "bug-report" added.2 = Some Sample.billing
  ∧ get_ticket_type_by_name 1 "Bug Report" added.2
    = get_ticket_type_by_name 1 "Bug Report" empty_db
  ∧ (add_ticket_type 1 "BUG REPORT" Sample.billing added.2).1 = false
  ∧ (let w' := (remove_type (Sample.command 9 [1; 50]) "Bug Report"
                  {| store := added.2; trace := [] |}).2 in
     trace w' = [Defer; Reply (TypeRemoved "bug-report")]
     ∧ get_ticket_type_by_name 1 "bug-report" (store w') = None).
Proof.
  destruct (normalization_at_add_and_remove 1 "Bug Report" Sample.billing
              empty_db eq_refl eq_refl)
    as (Hadded & Hfound & Hothers & Hagain & Hremove).
  split; [exact Hadded|]. split; [exact Hfound|].
  split; [by apply Hothers|].
  split; [by apply Hagain|].
  exact (Hremove (Sample.command 9 [1; 50]) [] eq_refl).
Defined.

(** ** Reasoning about handlers *)

(** A handler [preserves R] when the world it leaves is related by [R] to
    the world it started from, whatever the outcome.  Two families of
    relations are used: [on_store Rdb] relates the stores and ignores the
    events, [emits_only P] says that the events added all satisfy [P]. *)
Section Preserves.

Context (R : relation world) `{!Reflexive R, !Transitive R}.

Lemma preserves_ret {A} (a : A) : preserves R (ret a).
Proof. intros w. reflexivity. Qed.

Lemma preserves_raise {A} e : preserves R (raise e : M A).
Proof. intros w. reflexivity. Qed.

Lemma preserves_query {A} (f : database → A) : preserves R (query f).
Proof. intros w. reflexivity. Qed.

Lemma preserves_await {A} (answer : outcome A) : preserves R (await answer).
Proof. intros w. destruct answer; reflexivity. Qed.

Lemma preserves_index parts n : preserves R (index parts n).
Proof. intros w. unfold index. destruct (parts !! n); reflexivity. Qed.

Lemma preserves_int s : preserves R (int s).
Proof. intros w. unfold int. destruct (PyStr.int s); reflexivity. Qed.

Lemma preserves_emit ev :
  (∀ w, R w {| store := store w; trace := trace w ++ [ev] |}) →
  preserves R (emit ev).
Proof. intros Hev w. apply Hev. Qed.

Lemma preserves_call {A} (f : database → outcome A * database) :
  (∀ w, R w {| store := (f (store w)).2; trace := trace w |}) →
  preserves R (call f).
Proof.
  intros Hf w. unfold call. specialize (Hf w).
  by destruct (f (store w)).
Qed.

Lemma preserves_bind {A B} (m : M A) (k : A → M B) :
  preserves R m → (∀ a, preserves R (k a)) → preserves R (bind m k).
Proof.
  intros Hm Hk w. unfold bind. specialize (Hm w).
  destruct (m w) as [[a|e] w']; simpl in *; [|done].
  etrans; [exact Hm | apply Hk].
Qed.

(** Whatever follows a failed attribute lookup does not run. *)
Lemma preserves_after_Row_get {A B} (stored : A) (k : A → M B) :
  preserves R (bind (Row_get stored) k).
Proof. intros w. reflexivity. Qed.

Lemma preserves_after_unbound_name {B} (k : Z → M B) :
  preserves R (bind datetime_now_unbound k).
Proof. intros w. reflexivity. Qed.

Lemma preserves_try {A} (m handler : M A) catches :
  preserves R m → preserves R handler → preserves R (try_except m catches handler).
Proof.
  intros Hm Hh w. unfold try_except. specialize (Hm w).
  destruct (m w) as [[a|e] w']; simpl in *; [done|].
  destruct (catches e); [|done].
  etrans; [exact Hm | apply Hh].
Qed.

End Preserves.

Global Instance on_store_refl Rdb `{!Reflexive Rdb} : Reflexive (on_store Rdb).
Proof. intros w. unfold on_store. reflexivity. Qed.

Global Instance on_store_trans Rdb `{!Transitive Rdb} :
  Transitive (on_store Rdb).
Proof. intros a b c. unfold on_store. apply transitivity. Qed.

Lemma on_store_emit Rdb `{!Reflexive Rdb} ev : preserves (on_store Rdb) (emit ev).
Proof. apply preserves_emit. intros w. unfold on_store. reflexivity. Qed.

Lemma on_store_call Rdb {A} (f : database → outcome A * database) :
  (∀ db, Rdb db (f db).2) → preserves (on_store Rdb) (call f).
Proof. intros Hf. apply preserves_call. intros w. apply Hf. Qed.

Lemma on_store_weaken (Rdb Rdb' : relation database) {A} (m : M A) :
  (∀ a b, Rdb a b → Rdb' a b) →
  preserves (on_store Rdb) m → preserves (on_store Rdb') m.
Proof. intros Hsub Hm w. apply Hsub, Hm. Qed.

Global Instance emits_only_refl P : Reflexive (emits_only P).
Proof. intros w. exists []. by rewrite app_nil_r. Qed.

Global Instance emits_only_trans P : Transitive (emits_only P).
Proof.
  intros a b c (n1 & H1 & HP1) (n2 & H2 & HP2). exists (n1 ++ n2).
  rewrite H2, H1, app_assoc. split; [done|]. by apply Forall_app.
Qed.

Lemma emits_only_emit (P : event → Prop) ev :
  P ev → preserves (emits_only P) (emit ev).
Proof.
  intros HP. apply preserves_emit. intros w. exists [ev]. split; [done|].
  by apply Forall_singleton.
Qed.

Lemma emits_only_call P {A} (f : database → outcome A * database) :
  preserves (emits_only P) (call f).
Proof.
  apply preserves_call. intros w. exists []. by rewrite app_nil_r.
Qed.

Lemma emits_only_elem P w w' ev :
  emits_only P w w' → ev ∈ trace w' → ev ∈ trace w ∨ P ev.
Proof.
  intros (new & -> & HP) [Hin|Hin]%elem_of_app; [by left|right].
  by eapply Forall_forall in HP.
Qed.

Ltac preserves_step :=
  first
    [ apply preserves_ret | apply preserves_raise
    | apply preserves_query | apply preserves_await | apply preserves_index
    | apply preserves_int
    | apply preserves_after_Row_get | apply preserves_after_unbound_name
    | apply on_store_emit | apply emits_only_emit | apply emits_only_call
    | apply preserves_try
    | apply preserves_bind
    | match goal with |- ∀ _, preserves _ _ => intros ? end
    | progress case_match
    | apply on_store_call ];
  try tc_solve; try done.

Ltac preserves_all := cbv zeta; repeat preserves_step.

(** The router never writes to the store: the close branch only reads,
    and the create branch stops at its first [.get] on a row, before the
    counter, the channel and the ticket row. *)
Lemma on_interaction_store pf i : preserves (on_store eq) (on_interaction pf i).
Proof.
  unfold on_interaction, on_interaction_with, create_flow_with,
    close_flow_with.
  preserves_all.
Qed.

(** Nor does the close command: the arguments of [update_ticket] cannot
    be evaluated. *)
Lemma close_ticket_command_store pf i reason :
  preserves (on_store eq) (close_ticket_command pf i reason).
Proof.
  unfold close_ticket_command.
  preserves_all.
Qed.

(** ** Closed tickets *)

Global Instance keeps_closed_refl : Reflexive keeps_closed.
Proof. intros db ch t Ht Hst. eauto. Qed.

Global Instance keeps_closed_trans : Transitive keeps_closed.
Proof.
  intros a b c Hab Hbc ch t Ht Hst.
  destruct (Hab ch t Ht Hst) as (t' & Ht' & Hst'). eauto.
Qed.

Global Instance same_tickets_refl : Reflexive same_tickets.
Proof. by intros db. Qed.

Global Instance same_tickets_trans : Transitive same_tickets.
Proof. unfold same_tickets. intros a b c. congruence. Qed.

Lemma eq_keeps_closed (a b : database) : a = b → keeps_closed a b.
Proof. intros ->. reflexivity. Qed.

Lemma same_tickets_keeps_closed (a b : database) :
  same_tickets a b → keeps_closed a b.
Proof. intros Heq ch t Ht Hst. rewrite <- Heq. eauto. Qed.

(** The write of the close modal: the row of [ch], if any, becomes
    closed; the other rows are not touched. *)
Lemma close_update_keeps_closed ch who at_ reason link db :
  keeps_closed db
    (update_ticket ch [KwStatus Closed; KwClosedBy who; KwClosedAt at_;
                       KwCloseReason reason; KwTranscript link] db).2.
Proof.
  intros ch' t Ht Hst. cbn [update_ticket snd tickets with_tickets].
  destruct (decide (ch = ch')) as [->|Hne].
  - rewrite lookup_alter_eq, Ht. simpl. eauto.
  - rewrite lookup_alter_ne by done. eauto.
Qed.

Lemma on_submit_keeps_closed pf i ch reason_input :
  preserves (on_store keeps_closed) (on_submit pf i ch reason_input).
Proof.
  unfold on_submit. preserves_all.
  all: intros db; apply close_update_keeps_closed.
Qed.

Lemma setup_defaults_keeps_store i r c t l a :
  preserves (on_store eq) (setup_defaults i r c t l a).
Proof.
  unfold setup_defaults.
  preserves_all; intros db; by rewrite update_guild_config_store.
Qed.

Lemma add_type_same_tickets i n d ds e b wl r :
  preserves (on_store same_tickets) (add_type i n d ds e b wl r).
Proof.
  unfold add_type.
  preserves_all; intros db; unfold add_ticket_type;
    destruct (ticket_types db !! _); reflexivity.
Qed.

Lemma remove_type_same_tickets i n :
  preserves (on_store same_tickets) (remove_type i n).
Proof.
  unfold remove_type.
  preserves_all; intros db; unfold remove_ticket_type;
    destruct (ticket_types db !! _); reflexivity.
Qed.

(** The panel command stops at its set-up checks, at [populate_buttons],
    or at its first [.get] on the row, inside its [try]: it neither posts
    nor records a panel. *)
Lemma create_ticket_panel_store pf i :
  preserves (on_store eq) (create_ticket_panel pf i).
Proof.
  unfold create_ticket_panel, create_ticket_panel_with. preserves_all.
Qed.

Lemma perform_keeps_closed pf op :
  preserves (on_store keeps_closed) (perform pf op).
Proof.
  destruct op; cbn [perform].
  - eapply on_store_weaken; [apply eq_keeps_closed | apply on_interaction_store].
  - eapply on_store_weaken;
      [apply eq_keeps_closed | apply create_ticket_panel_store].
  - eapply on_store_weaken;
      [apply eq_keeps_closed | apply close_ticket_command_store].
  - apply on_submit_keeps_closed.
  - eapply on_store_weaken;
      [apply eq_keeps_closed | apply setup_defaults_keeps_store].
  - eapply on_store_weaken;
      [apply same_tickets_keeps_closed | apply add_type_same_tickets].
  - eapply on_store_weaken;
      [apply same_tickets_keeps_closed | apply remove_type_same_tickets].
Qed.

(** The storage-level insert cannot replace a row either: [channel_id] is
    UNIQUE. *)
Lemma create_ticket_keeps_closed g u ch name n now_ db :
  keeps_closed db (create_ticket g u ch name n now_ db).2.
Proof.
  intros ch' t Ht Hst. unfold create_ticket.
  destruct n as [n|]; [|eauto].
  destruct (tickets db !! ch) as [old|] eqn:Hch; [eauto|].
  cbn [snd tickets with_tickets].
  rewrite lookup_insert_ne; [eauto|]. intros ->. congruence.
Qed.

(** A click on a close token of the interaction's own channel, on a
    closed ticket. *)
Lemma close_click_on_closed_ticket pf i w t cid seg rest :
  get_ticket_by_channel (channel_id i) (store w) = Some t →
  status t = Closed →
  i_type i = component → custom_id i = Some cid →
  PyStr.split_colon cid = "ticket_actions" :: "close" :: seg :: rest →
  PyStr.int seg = Some (channel_id i) →
  on_interaction pf i w
  = (Return (), {| store := store w;
                   trace := trace w ++ [Reply NotValidOrAlreadyClosed] |}).
Proof.
  intros Ht Hst Hty Hcid Hsplit Hint.
  unfold on_interaction, on_interaction_with. rewrite Hty, Hcid, Hsplit.
  unfold close_flow_with, bind, index, int, try_except, query, ret. simpl.
  rewrite Hint. simpl. rewrite bool_decide_true by done. simpl.
  rewrite Ht, Hst. reflexivity.
Qed.

(** Where a closed ticket is refused.  Once the ticket of a channel is
    closed, a click on the close button of that channel is answered with
    the not-valid-or-already-closed reply and leaves the store as it is;
    the close command in that channel is answered likewise and leaves the
    store as it is; and after any operation of the bot the ticket is still
    stored with status closed.  The submission of the close form is not
    among the refusals: [on_submit] does not read the status. *)
Lemma closed_ticket_refused_at_entry_points (pf : platform) (i : interaction)
    (w : world) (t : ticket) :
  get_ticket_by_channel (channel_id i) (store w) = Some t →
  status t = Closed →
  (∀ owner,
      i_type i = component →
      custom_id i = Some (close_button_custom_id (channel_id i) owner) →
      on_interaction pf i w
      = (Return (), {| store := store w;
                       trace := trace w ++ [Reply NotValidOrAlreadyClosed] |}))
  ∧ (∀ reason,
        close_ticket_command pf i reason w
        = (Return (), {| store := store w;
                         trace := trace w ++ [Reply NotActiveOrAlreadyClosed] |}))
  ∧ (∀ pf' op, ∃ t',
        get_ticket_by_channel (channel_id i) (store (perform pf' op w).2)
        = Some t' ∧ status t' = Closed).
Proof.
  intros Ht Hst. split; [|split].
  - intros owner Hty Hcid.
    destruct (close_button_segments (channel_id i) owner) as [Hsplit Hint].
    by eapply close_click_on_closed_ticket.
  - intros reason. unfold close_ticket_command, bind, query. simpl.
    rewrite Ht, Hst. reflexivity.
  - intros pf' op. exact (perform_keeps_closed pf' op w _ _ Ht Hst).
Qed.

Example closed_ticket_refused_sample :
  let i := Sample.click (close_button_custom_id 100 7) 7 [1] in
  let w := Sample.start Sample.db_closed in
  on_interaction Sample.all_fine i w
  = (Return (), {| store := Sample.db_closed;
                   trace := [Reply NotValidOrAlreadyClosed] |})
  ∧ close_ticket_command Sample.all_fine i None w
    = (Return (), {| store := Sample.db_closed;
                     trace := [Reply NotActiveOrAlreadyClosed] |}).
Proof.
  destruct (closed_ticket_refused_at_entry_points Sample.all_fine
              (Sample.click (close_button_custom_id 100 7) 7 [1])
              (Sample.start Sample.db_closed) Sample.closed_ticket
              eq_refl eq_refl) as (Hclick & Hcommand & _).
  split; [by apply (Hclick 7) | apply Hcommand].
Qed.

Example sample_button_ids :
  close_button_custom_id 100 7 = "ticket_actions:close:100:7"
  ∧ panel_button_custom_id 1 "billing" = "ticket_panel:create:1:billing".
Proof. split; reflexivity. Qed.

(** ** Who may close *)

Lemma create_flow_no_modal pf i parts :
  preserves (emits_only not_modal) (create_flow pf i parts).
Proof. unfold create_flow, create_flow_with. preserves_all. Qed.

(** The close branch opens the modal only at its last line, and only
    past the staff test. *)
Lemma close_flow_modal pf i parts w c :
  SendModal c ∈ trace (close_flow pf i parts w).2 →
  SendModal c ∈ trace w
  ∨ ∃ t, get_ticket_by_channel (channel_id i) (store w) = Some t
         ∧ status t ≠ Closed
         ∧ is_staff (i_guild i) (user_roles i)
             (get_staff_roles_for_ticket_type (i_guild i) (ticket_type_name t)
                (get_guild_config (gd_id (i_guild i)) (store w)) (store w))
           = true.
Proof.
  unfold close_flow, close_flow_with, bind, try_except, index, int, query,
         Row_get, emit, raise, ret.
  repeat (case_match; simplify_eq/=); intros Hin;
    try (apply elem_of_app in Hin as [Hin|Hin%list_elem_of_singleton]);
    simplify_eq; auto.
  right. eexists. split; [done|]. split.
  - by eapply bool_decide_eq_false_1.
  - match goal with H : _ && _ = false |- _ => rename H into Hperm end.
    rewrite orb_true_r, andb_true_r in Hperm. by apply negb_false_iff.
Qed.

Lemma on_interaction_modal pf i db c :
  SendModal c ∈ trace (on_interaction pf i {| store := db; trace := [] |}).2 →
  ∃ t, get_ticket_by_channel (channel_id i) db = Some t
       ∧ status t ≠ Closed
       ∧ is_staff (i_guild i) (user_roles i)
           (get_staff_roles_for_ticket_type (i_guild i) (ticket_type_name t)
              (get_guild_config (gd_id (i_guild i)) db) db) = true.
Proof.
  unfold on_interaction, on_interaction_with, bind, index, raise, ret.
  fold create_flow close_flow.
  repeat (case_match; simplify_eq/=); intros Hin;
    try (by apply elem_of_nil in Hin).
  all: first
         [ apply (emits_only_elem not_modal _ _ _
                    (create_flow_no_modal _ _ _ _)) in Hin as [Hin|Hin];
           [by apply elem_of_nil in Hin | by destruct (Hin c)]
         | apply close_flow_modal in Hin as [Hin|Hin]; [|done];
           by apply elem_of_nil in Hin ].
Qed.

(** The command's permission test, evaluated. *)
Lemma close_ticket_command_not_staff pf i reason w t cfg :
  get_ticket_by_channel (channel_id i) (store w) = Some t →
  status t ≠ Closed →
  get_guild_config (gd_id (i_guild i)) (store w) = Some cfg →
  ticket_cog_loaded pf = true →
  is_staff (i_guild i) (user_roles i)
    (get_staff_roles_for_ticket_type (i_guild i) (ticket_type_name t)
       (Some cfg) (store w)) = false →
  close_ticket_command pf i reason w
  = (Return (), {| store := store w;
                   trace := trace w ++ [Reply NoPermissionCommand] |}).
Proof.
  intros Ht Hst Hcfg Hcog Hstaff.
  unfold close_ticket_command, bind, query. simpl.
  rewrite Ht, bool_decide_false, Hcfg, Hcog by done. simpl.
  by rewrite Hstaff.
Qed.

Lemma close_ticket_command_staff pf i reason w t cfg :
  get_ticket_by_channel (channel_id i) (store w) = Some t →
  status t ≠ Closed →
  get_guild_config (gd_id (i_guild i)) (store w) = Some cfg →
  ticket_cog_loaded pf = true →
  is_staff (i_guild i) (user_roles i)
    (get_staff_roles_for_ticket_type (i_guild i) (ticket_type_name t)
       (Some cfg) (store w)) = true →
  emits_only not_refusal w (close_ticket_command pf i reason w).2
  ∧ Defer ∈ trace (close_ticket_command pf i reason w).2.
Proof.
  intros Ht Hst Hcfg Hcog Hstaff.
  unfold close_ticket_command, bind, query. simpl.
  rewrite Ht, bool_decide_false, Hcfg, Hcog by done. simpl.
  rewrite Hstaff. simpl.
  unfold emits_only, emit, await, bind, ret, raise, datetime_now_unbound.
  repeat (case_match; simplify_eq/=).
  all: rewrite <- ?app_assoc; split;
    [ eexists; split; [reflexivity|]; repeat constructor; done
    | rewrite ?elem_of_app, ?elem_of_cons; auto ].
Qed.

(** C6, as stated, fails.  User 7 owns the open ticket of channel 100,
    the guild's [allow_user_close] is 1, and 7 holds no staff role.  The
    claim authorizes the request; [/ticket close] answers that the user
    has no permission and leaves the ticket open. *)
Lemma command_refuses_owner_under_self_close_policy :
  let i := Sample.command 7 [1] in
  let db := Sample.db_open in
  get_ticket_by_channel (channel_id i) db = Some Sample.open_ticket
  ∧ user i = user_id Sample.open_ticket
  ∧ (λ cfg, ints cfg allow_user_close) <$> get_guild_config 1 db = Some (Some 1)
  ∧ close_ticket_command Sample.all_fine i None (Sample.start db)
    = (Return (), {| store := db; trace := [Reply NoPermissionCommand] |}).
Proof. repeat split; reflexivity. Qed.

(** A click on a close token of the interaction's own channel, on a
    ticket that is not closed, in a guild without a configuration row:
    the owner's permission reads as not given, and the staff test
    decides. *)
Lemma close_click_without_config pf i w t cid seg rest :
  i_type i = component → custom_id i = Some cid →
  PyStr.split_colon cid = "ticket_actions" :: "close" :: seg :: rest →
  PyStr.int seg = Some (channel_id i) →
  get_ticket_by_channel (channel_id i) (store w) = Some t →
  status t ≠ Closed →
  get_guild_config (gd_id (i_guild i)) (store w) = None →
  on_interaction pf i w
  = (Return (),
     {| store := store w;
        trace :=
          trace w
          ++ [if is_staff (i_guild i) (user_roles i)
                   (get_staff_roles_for_ticket_type (i_guild i)
                      (ticket_type_name t) None (store w))
              then SendModal (channel_id i)
              else Reply NoPermission] |}).
Proof.
  intros Hty Hcid Hsplit Hint Ht Hst Hcfg.
  unfold on_interaction, on_interaction_with. rewrite Hty, Hcid, Hsplit.
  unfold close_flow_with, bind, index, int, try_except, query, emit, ret. simpl.
  rewrite Hint. simpl. rewrite bool_decide_true by done. simpl.
  rewrite Ht, bool_decide_false, Hcfg by done. simpl.
  rewrite orb_true_r, andb_true_r.
  by destruct (is_staff _ _ _).
Qed.

(** C6, amended.  For a ticket that is not closed, with [staff] the staff
    test on the requester (a role of the resolved staff set other than
    the default role).  The close button opens the close form only for a
    requester who is staff or who owns the ticket while [allow_user_close]
    is 1; in a community without a configuration row, where the owner's
    permission reads as not given, a click on the channel's close button
    opens the form exactly for staff and answers everybody else with the
    no-permission reply.  The slash command applies another rule: in a
    community with a configuration row, the ticket cog being loaded, it
    refuses for lack of permission exactly when the requester is not
    staff, so the owner is not authorized by it, whatever the policy. *)
Theorem close_authorization (pf : platform) (i : interaction) (db : database)
    (t : ticket) :
  get_ticket_by_channel (channel_id i) db = Some t →
  status t ≠ Closed →
  let gd := i_guild i in
  let cfg := get_guild_config (gd_id gd) db in
  let staff :=
    is_staff gd (user_roles i)
      (get_staff_roles_for_ticket_type gd (ticket_type_name t) cfg db) in
  let click := on_interaction pf i {| store := db; trace := [] |} in
  (∀ c, SendModal c ∈ trace click.2 →
        staff = true
        ∨ (user i = user_id t
           ∧ (cfg ≫= λ r, ints r allow_user_close) = Some 1))
  ∧ (∀ owner,
       i_type i = component →
       custom_id i = Some (close_button_custom_id (channel_id i) owner) →
       cfg = None →
       click
       = (Return (),
          {| store := db;
             trace := [if staff then SendModal (channel_id i)
                       else Reply NoPermission] |}))
  ∧ (is_Some cfg → ticket_cog_loaded pf = true →
     ∀ reason,
       Reply NoPermissionCommand
         ∈ trace (close_ticket_command pf i reason
                    {| store := db; trace := [] |}).2
       ↔ staff = false).
Proof.
  intros Ht Hst gd cfg staff click. split; [|split].
  - intros c Hin. left.
    apply on_interaction_modal in Hin as (t' & Ht' & _ & Hstaff).
    by simplify_eq.
  - intros owner Hty Hcid Hcfg. subst click staff. rewrite Hcfg.
    destruct (close_button_segments (channel_id i) owner) as [Hsplit Hint].
    by rewrite (close_click_without_config pf i {| store := db; trace := [] |}
                  t _ _ _ Hty Hcid Hsplit Hint Ht Hst Hcfg).
  - intros [r Hr] Hcog reason. subst cfg. fold gd in Hr.
    destruct staff eqn:Hstaff; subst staff; rewrite Hr in Hstaff.
    + split; [|done]. intros Hin.
      destruct (close_ticket_command_staff pf i reason
                  {| store := db; trace := [] |} t r Ht Hst Hr Hcog Hstaff)
        as [Hemit _].
      apply (emits_only_elem _ _ _ _ Hemit) in Hin as [Hin|Hin].
      * by apply elem_of_nil in Hin.
      * by destruct Hin.
    + split; [done|]. intros _.
      rewrite (close_ticket_command_not_staff pf i reason
                 {| store := db; trace := [] |} t r Ht Hst Hr Hcog Hstaff).
      simpl. apply list_elem_of_singleton. done.
Qed.

(** The button in guild 1 without a configuration row: member 9, who
    holds the type's staff role 50, gets the form, being staff, and the
    owner 7, who does not hold it, is refused.  The command in guild 1
    with its configuration row: the owner 7 is refused, and member 9 is
    not. *)
Lemma close_authorization_witness :
  let button who held :=
    on_interaction Sample.all_fine
      (Sample.click (close_button_custom_id 100 7) who held)
      (Sample.start Sample.db_unconfigured) in
  let command who held :=
    close_ticket_command Sample.all_fine (Sample.command who held) None
      (Sample.start Sample.db_open) in
  button 9 [1; 50]
  = (Return (), {| store := Sample.db_unconfigured;
                   trace := [SendModal 100] |})
  ∧ button 7 [1]
    = (Return (), {| store := Sample.db_unconfigured;
                     trace := [Reply NoPermission] |})
  ∧ (is_staff Sample.the_guild [1; 50]
        (get_staff_roles_for_ticket_type Sample.the_guild "billing" None
           Sample.db_unconfigured) = true
     ∨ (9 = 7 ∧ None = Some 1))
  ∧ Reply NoPermissionCommand ∈ trace (command 7 [1]).2
  ∧ Reply NoPermissionCommand ∉ trace (command 9 [1; 50]).2.
Proof.
  split; [|split; [|split; [|split]]].
  - exact (proj1 (proj2 (close_authorization Sample.all_fine
                           (Sample.click (close_button_custom_id 100 7) 9 [1; 50])
                           Sample.db_unconfigured Sample.open_ticket
                           eq_refl ltac:(discriminate)))
             7 eq_refl eq_refl eq_refl).
  - exact (proj1 (proj2 (close_authorization Sample.all_fine
                           (Sample.click (close_button_custom_id 100 7) 7 [1])
                           Sample.db_unconfigured Sample.open_ticket
                           eq_refl ltac:(discriminate)))
             7 eq_refl eq_refl eq_refl).
  - apply (proj1 (close_authorization Sample.all_fine
                    (Sample.click (close_button_custom_id 100 7) 9 [1; 50])
                    Sample.db_unconfigured Sample.open_ticket
                    eq_refl ltac:(discriminate)) 100).
    by apply list_elem_of_singleton.
  - apply (proj2 (proj2 (close_authorization Sample.all_fine
                           (Sample.command 7 [1])
                           Sample.db_open Sample.open_ticket
                           eq_refl ltac:(discriminate)))
             ltac:(by eexists) eq_refl None).
    reflexivity.
  - intros Hin.
    apply (proj2 (proj2 (close_authorization Sample.all_fine
                           (Sample.command 9 [1; 50])
                           Sample.db_open Sample.open_ticket
                           eq_refl ltac:(discriminate)))
             ltac:(by eexists) eq_refl None) in Hin.
    discriminate Hin.
Defined.

(** ** The per-user limit *)

(** No interaction provisions a channel: the create branch does not get
    that far. *)
Lemma on_interaction_never_provisions pf i :
  preserves (emits_only not_provisioning) (on_interaction pf i).
Proof.
  unfold on_interaction, on_interaction_with, create_flow_with,
    close_flow_with.
  preserves_all.
Qed.

(** C7, at a failing input.  Guild 1 is configured with the default limit
    of 1 and user 7 has one open ticket; 7 clicks the panel button of type
    [billing].  The handler defers, reads the open tickets and then raises
    [AttributeError] on [guild_config.get]: the claim's limit-exceeded
    message is not sent.  Nothing is written and nothing is provisioned. *)
Theorem limit_check_raises :
  let i := Sample.click (panel_button_custom_id 1 "billing") 7 [1] in
  let db := Sample.db_open in
  length (get_open_tickets_by_user 1 7 db) = 1%nat
  ∧ (λ cfg, ints cfg ticket_limit_per_user) <$> get_guild_config 1 db
    = Some (Some 1)
  ∧ on_interaction Sample.all_fine i (Sample.start db)
    = (Raise AttributeError, {| store := db; trace := [Defer] |}).
Proof. repeat split; reflexivity. Qed.

(** ** Structured identifiers *)

Lemma close_flow_reads_channel_segment pf i parts parts' :
  parts !! 2%nat = parts' !! 2%nat →
  close_flow pf i parts = close_flow pf i parts'.
Proof.
  intros Heq. unfold close_flow, close_flow_with, index. by rewrite Heq.
Qed.

(** C8, as stated, fails.  The close token of channel 100 with the owner
    segment [abc] is not rejected: for a requester holding the type's
    staff role the handler opens the close form, as it does for the
    well-formed token. *)
Lemma non_numeric_owner_segment_accepted :
  let db := Sample.db_unconfigured in
  PyStr.int "abc" = None
  ∧ on_interaction Sample.all_fine
      (Sample.click "ticket_actions:close:100:abc" 9 [1; 50]) (Sample.start db)
    = (Return (), {| store := db; trace := [SendModal 100] |})
  ∧ on_interaction Sample.all_fine
      (Sample.click "ticket_actions:close:100" 9 [1; 50]) (Sample.start db)
    = (Return (), {| store := db; trace := [SendModal 100] |}).
Proof. repeat split; reflexivity. Qed.

(** The one-segment tokens [ticket_panel] and [ticket_actions] are read
    at [parts[1]] before any [try]: the [IndexError] leaves the handler. *)
Lemma one_segment_token_raises :
  ∀ w,
    on_interaction Sample.all_fine (Sample.click "ticket_panel" 7 [1]) w
    = (Raise IndexError, w)
    ∧ on_interaction Sample.all_fine (Sample.click "ticket_actions" 7 [1]) w
      = (Raise IndexError, w).
Proof. intros w. split; reflexivity. Qed.

(** C8, amended.  For a component interaction whose identifier has a
    namespace and an action segment: a create token whose guild-id segment
    is missing or is ASCII text that is not an integer literal, or whose
    type segment is missing, is answered with the invalid-button reply; a
    close token whose channel-id segment is missing or is ASCII text that
    is not an integer literal is answered with the invalid-close-button
    reply; in both cases no exception leaves the handler and the store is
    unchanged.  The close branch reads no segment after the channel id. *)
Theorem malformed_identifier_rejected (pf : platform) (i : interaction)
    (w : world) (cid : string) (rest : list string) :
  i_type i = component →
  custom_id i = Some cid →
  let bad_int (seg : option string) :=
    seg = None
    ∨ ∃ s, seg = Some s ∧ PyStr.isascii s = true ∧ PyStr.int s = None in
  (PyStr.split_colon cid = "ticket_panel" :: "create" :: rest →
   bad_int (rest !! 0%nat) ∨ rest !! 1%nat = None →
   on_interaction pf i w
   = (Return (), {| store := store w;
                    trace := trace w ++ [Defer; Reply InvalidButtonId] |}))
  ∧ (PyStr.split_colon cid = "ticket_actions" :: "close" :: rest →
     bad_int (rest !! 0%nat) →
     on_interaction pf i w
     = (Return (), {| store := store w;
                      trace := trace w ++ [Reply InvalidCloseButtonId] |}))
  ∧ (∀ parts parts', parts !! 2%nat = parts' !! 2%nat →
                     close_flow pf i parts = close_flow pf i parts').
Proof.
  intros Hty Hcid bad_int. split; [|split].
  - intros Hsplit Hbad. unfold on_interaction, on_interaction_with.
    rewrite Hty, Hcid, Hsplit.
    unfold create_flow_with, bind, index, int, try_except, emit, raise, ret. simpl.
    destruct Hbad as [[Hnone|(s & Hs & _ & Hint)]|Hnone].
    + rewrite Hnone. simpl. by rewrite <- app_assoc.
    + rewrite Hs, Hint. simpl. by rewrite <- app_assoc.
    + destruct (rest !! 0%nat) as [s|]; [|simpl; by rewrite <- app_assoc].
      destruct (PyStr.int s); [|simpl; by rewrite <- app_assoc].
      rewrite Hnone. simpl. by rewrite <- app_assoc.
  - intros Hsplit Hbad. unfold on_interaction, on_interaction_with.
    rewrite Hty, Hcid, Hsplit.
    unfold close_flow_with, bind, index, int, try_except, emit, raise, ret. simpl.
    destruct Hbad as [Hnone|(s & Hs & _ & Hint)].
    + by rewrite Hnone.
    + by rewrite Hs, Hint.
  - apply close_flow_reads_channel_segment.
Qed.

(** A create token with the guild id [x1], one without a type segment, a
    close token with the channel id [1O0] and one without a channel id. *)
Lemma malformed_identifier_rejected_witness :
  let w := Sample.start Sample.db_open in
  let click cid := on_interaction Sample.all_fine (Sample.click cid 7 [1]) w in
  let invalid_button :=
    (Return (), {| store := Sample.db_open;
                   trace := [Defer; Reply InvalidButtonId] |}) in
  let invalid_close_button :=
    (Return (), {| store := Sample.db_open;
                   trace := [Reply InvalidCloseButtonId] |}) in
  click "ticket_panel:create:x1:billing" = invalid_button
  ∧ click "ticket_panel:create:1" = invalid_button
  ∧ click "ticket_actions:close:1O0:7" = invalid_close_button
  ∧ click "ticket_actions:close" = invalid_close_button.
Proof.
  split; [|split; [|split]].
  - apply (proj1 (malformed_identifier_rejected Sample.all_fine
                    (Sample.click "ticket_panel:create:x1:billing" 7 [1])
                    (Sample.start Sample.db_open)
                    "ticket_panel:create:x1:billing" ["x1"; "billing"]
                    eq_refl eq_refl)).
    + reflexivity.
    + left. right. exists "x1". by repeat split.
  - apply (proj1 (malformed_identifier_rejected Sample.all_fine
                    (Sample.click "ticket_panel:create:1" 7 [1])
                    (Sample.start Sample.db_open)
                    "ticket_panel:create:1" ["1"] eq_refl eq_refl)).
    + reflexivity.
    + by right.
  - apply (proj1 (proj2 (malformed_identifier_rejected Sample.all_fine
                           (Sample.click "ticket_actions:close:1O0:7" 7 [1])
                           (Sample.start Sample.db_open)
                           "ticket_actions:close:1O0:7" ["1O0"; "7"]
                           eq_refl eq_refl))).
    + reflexivity.
    + right. exists "1O0". by repeat split.
  - apply (proj1 (proj2 (malformed_identifier_rejected Sample.all_fine
                           (Sample.click "ticket_actions:close" 7 [1])
                           (Sample.start Sample.db_open)
                           "ticket_actions:close" [] eq_refl eq_refl))).
    + reflexivity.
    + by left.
Defined.

Example malformed_sample_is_bad :
  PyStr.split_colon "ticket_panel:create:x1:billing"
  = ["ticket_panel"; "create"; "x1"; "billing"]
  ∧ PyStr.int "x1" = None.
Proof. split; reflexivity. Qed.

(** ** The close modal *)

(** Once the history has been read (or no transcript is due), the closed
    state is written, whatever the transcript delivery and the channel
    calls answer. *)
Lemma on_submit_closes pf i ch reason_input w t k cfg :
  get_ticket_by_channel ch (store w) = Some t →
  get_channel (i_guild i) (Some ch) = Some k →
  get_guild_config (gd_id (i_guild i)) (store w) = Some cfg →
  history pf = Return () →
  ∃ t', get_ticket_by_channel ch (store (on_submit pf i ch reason_input w).2)
        = Some t'
        ∧ status t' = Closed
        ∧ closed_by_user_id t' = Some (user i)
        ∧ closed_at t' = Some (now pf)
        ∧ close_reason t' = Some (reason_of reason_input).
Proof.
  intros Ht Hch Hcfg Hhist.
  unfold on_submit, bind, query, emit. cbn [store trace fst snd].
  rewrite Hcfg, Ht, Hch, Hhist.
  unfold reason_of, get_ticket_by_channel, try_except, call, update_ticket,
         await, bind, emit, ret, raise in *.
  repeat (case_match; simplify_eq/=);
    rewrite lookup_alter_eq, Ht; simpl; eauto 10.
Qed.

(** A failing channel edit after the write is reported as a partial
    success. *)
Lemma on_submit_reports_partial_success pf i ch reason_input w t k cfg e :
  get_ticket_by_channel ch (store w) = Some t →
  get_channel (i_guild i) (Some ch) = Some k →
  get_guild_config (gd_id (i_guild i)) (store w) = Some cfg →
  history pf = Return () →
  channel_send pf = Return () →
  channel_edit pf = Raise e →
  (on_submit pf i ch reason_input w).1 = Return ()
  ∧ last (trace (on_submit pf i ch reason_input w).2)
    = Some (Reply ClosedButChannelError).
Proof.
  intros Ht Hch Hcfg Hhist Hsend Hedit.
  unfold on_submit, bind, query, emit. cbn [store trace fst snd].
  rewrite Hcfg, Ht, Hch, Hhist, Hsend, Hedit.
  unfold try_except, call, update_ticket, await, bind, emit, ret, raise.
  repeat (case_match; simplify_eq/=); by rewrite ?last_snoc.
Qed.

(** C9, at a failing input.  Guild 1 posts transcripts to channel 30 and
    the platform refuses the history of ticket channel 100.  Staff member 9
    submits the close form: the exception leaves [on_submit] before
    [update_ticket] runs, and the ticket is still open, where the claim
    has its closed state persisted. *)
Theorem history_failure_skips_the_write :
  let w := Sample.start Sample.db_open in
  let out :=
    on_submit Sample.history_fails (Sample.modal 9 [1; 50]) 100 "resolved" w in
  out = (Raise HTTPException, {| store := Sample.db_open; trace := [Defer] |})
  ∧ status <$> get_ticket_by_channel 100 (store out.2) = Some Open.
Proof. split; reflexivity. Qed.

(** The same submission when the history can be read but the transcript
    cannot be delivered and the channel cannot be edited: the row is
    closed and the requester is told of the partial success. *)
Example delivery_and_edit_failures_keep_the_write :
  let pf :=
    {| now := 42; history := Return ();
       transcript_send := Raise HTTPException;
       channel_send := Return (); channel_edit := Raise HTTPException;
       set_permissions := Return (); member_present := true;
       create_text_channel := Return 200; log_send := Return ();
       panel_send := Return 300; old_panel_delete := Return ();
       ticket_cog_loaded := true |} in
  let out :=
    on_submit pf (Sample.modal 9 [1; 50]) 100 "resolved"
      (Sample.start Sample.db_open) in
  out.1 = Return ()
  ∧ trace out.2 = [Defer; Reply TranscriptSendError; ChannelMessage 100;
                   Reply ClosedButChannelError]
  ∧ (λ t, (status t, closed_by_user_id t, close_reason t))
      <$> get_ticket_by_channel 100 (store out.2)
    = Some (Closed, Some 9, Some "resolved").
Proof. repeat split; reflexivity. Qed.

(** C5, at a failing input.  The ticket of channel 100 is closed: by
    user 9, at time 3, for the reason [resolved].  A close form of that
    channel is then submitted by staff member 11 with the reason [again]
    (a form stays open on the requester's screen once the button has
    opened it).  [on_submit] does not read the ticket's status.  The
    attempt is not rejected: a second transcript is posted, the closer,
    the closing time and the reason are written again, the channel is
    renamed and locked again, and the requester is told that the ticket
    has been closed, where the claim has the attempt rejected and the
    three fields as they were. *)
Theorem late_submit_rewrites_closing_fields :
  let w := Sample.start Sample.db_closed in
  let out :=
    on_submit Sample.all_fine (Sample.modal 11 [1; 50]) 100 "again" w in
  (λ t, (status t, closed_by_user_id t, closed_at t, close_reason t))
    <$> get_ticket_by_channel 100 (store w)
  = Some (Closed, Some 9, Some 3, Some "resolved")
  ∧ out.1 = Return ()
  ∧ trace out.2
    = [Defer; TranscriptPosted; ChannelMessage 100; ChannelRenamed 100;
       OwnerAccessChanged 100; Reply (TicketClosed 5)]
  ∧ (λ t, (status t, closed_by_user_id t, closed_at t, close_reason t))
      <$> get_ticket_by_channel 100 (store out.2)
    = Some (Closed, Some 11, Some 42, Some "again").
Proof. repeat split; reflexivity. Qed.

(** ** The staff-role resolver *)

Section Resolver.

Implicit Types (gd : guild) (db : database).

Lemma staff_roles_never_empty gd name cfg db :
  get_staff_roles_for_ticket_type gd name cfg db ≠ [].
Proof.
  unfold get_staff_roles_for_ticket_type.
  repeat case_match; done.
Qed.

Lemma staff_roles_sentinel gd name cfg db :
  resolved gd (get_ticket_type_by_name (gd_id gd) name db
                 ≫= specific_staff_roles) = [] →
  resolved gd (cfg ≫= default_staff_roles) = [] →
  get_staff_roles_for_ticket_type gd name cfg db = [default_role gd].
Proof.
  unfold get_staff_roles_for_ticket_type, resolved.
  intros -> ->. done.
Qed.

Lemma resolved_live gd column role :
  role ∈ resolved gd column → role ∈ gd_roles gd.
Proof.
  unfold resolved, resolve_roles. destruct column as [ids|].
  - intros (x & _ & Hx)%list_elem_of_omap. unfold get_role in Hx.
    case_bool_decide; by simplify_eq.
  - by intros ?%elem_of_nil.
Qed.

Lemma no_valid_staff_roles_iff gd staff :
  no_valid_staff_roles gd staff = true
  ↔ staff = [] ∨ staff = [default_role gd].
Proof.
  unfold no_valid_staff_roles.
  rewrite orb_true_iff, !bool_decide_eq_true. done.
Qed.

(** The default role never makes its holder staff. *)
Lemma sentinel_grants_nothing gd held :
  is_staff gd held [default_role gd] = false.
Proof.
  unfold is_staff. cbn [filter list_filter].
  rewrite decide_False by (intros Hne; by apply Hne). done.
Qed.

End Resolver.

(** C10, at a failing input.  Guild 1 is configured, its only recorded
    staff role 60 is not a role of the guild any more, and user 8 has no
    open ticket.  The resolver returns the one-element list of the default
    role and the test of the create branch holds for it; but a click on
    the [billing] button raises [AttributeError] at the limit check, so
    the no-valid-staff-roles reply of the claim is not sent. *)
Theorem sentinel_refusal_not_reached :
  let db := Sample.db_stale_staff in
  let gd := Sample.the_guild in
  let staff :=
    get_staff_roles_for_ticket_type gd "billing" (get_guild_config 1 db) db in
  staff = [default_role gd]
  ∧ no_valid_staff_roles gd staff = true
  ∧ get_open_tickets_by_user 1 8 db = []
  ∧ on_interaction Sample.all_fine
      (Sample.click (panel_button_custom_id 1 "billing") 8 [1])
      (Sample.start db)
    = (Raise AttributeError, {| store := db; trace := [Defer] |}).
Proof. repeat split; reflexivity. Qed.

(** ** What the handlers are written to do

    The three lemmas below run the router over [mapping_get], that is,
    as if [row.get] returned the stored column.  They locate the failures
    above: apart from that call, the create branch enforces the limit and
    the staff test, and the close branch applies the owner-or-staff
    rule. *)

Section AsWritten.

Context (pf : platform) (i : interaction) (w : world).
Context (cid seg name : string) (rest : list string).
Hypothesis Hty : i_type i = component.
Hypothesis Hcid : custom_id i = Some cid.

Local Arguments get_staff_roles_for_ticket_type : simpl never.
Local Arguments get_open_tickets_by_user : simpl never.
Local Arguments is_staff : simpl never.

Lemma limit_enforced_as_written cfg type_row l :
  PyStr.split_colon cid = "ticket_panel" :: "create" :: seg :: name :: rest →
  PyStr.int seg = Some (gd_id (i_guild i)) →
  get_guild_config (gd_id (i_guild i)) (store w) = Some cfg →
  truthy (ints cfg ticket_channel_category_id) = true →
  get_ticket_type_by_name (gd_id (i_guild i)) name (store w) = Some type_row →
  ints cfg ticket_limit_per_user = Some l →
  l ≤ Z.of_nat (length (get_open_tickets_by_user (gd_id (i_guild i)) (user i)
                          (store w))) →
  on_interaction_with mapping_get pf i w
  = (Return (), {| store := store w;
                   trace := trace w ++ [Defer; Reply (LimitReached (Some l))] |}).
Proof.
  intros Hsplit Hint Hcfg Hcat Htype Hlimit Hle.
  unfold on_interaction_with. rewrite Hty, Hcid, Hsplit.
  unfold create_flow_with, mapping_get, bind, index, int, try_except, query,
         emit, ret. simpl.
  rewrite Hint. simpl. rewrite bool_decide_true by done. simpl.
  rewrite Hcfg, Htype, Hcat, Hlimit. simpl.
  apply Z.leb_le in Hle. rewrite Hle. simpl. by rewrite <- app_assoc.
Qed.

Lemma sentinel_refused_as_written cfg type_row l :
  PyStr.split_colon cid = "ticket_panel" :: "create" :: seg :: name :: rest →
  PyStr.int seg = Some (gd_id (i_guild i)) →
  get_guild_config (gd_id (i_guild i)) (store w) = Some cfg →
  truthy (ints cfg ticket_channel_category_id) = true →
  get_ticket_type_by_name (gd_id (i_guild i)) name (store w) = Some type_row →
  ints cfg ticket_limit_per_user = Some l →
  Z.of_nat (length (get_open_tickets_by_user (gd_id (i_guild i)) (user i)
                      (store w))) < l →
  get_channel (i_guild i) (ints cfg ticket_channel_category_id)
  = Some CategoryChannel →
  get_staff_roles_for_ticket_type (i_guild i) name (Some cfg) (store w)
  = [default_role (i_guild i)] →
  on_interaction_with mapping_get pf i w
  = (Return (), {| store := store w;
                   trace := trace w ++ [Defer; Reply NoValidStaffRoles] |}).
Proof.
  intros Hsplit Hint Hcfg Hcat Htype Hlimit Hlt Hchan Hstaff.
  unfold on_interaction_with. rewrite Hty, Hcid, Hsplit.
  unfold create_flow_with, mapping_get, bind, index, int, try_except, query,
         emit, ret. simpl.
  rewrite Hint. simpl. rewrite bool_decide_true by done. simpl.
  rewrite Hcfg, Htype, Hcat, Hlimit. simpl.
  apply Z.leb_gt in Hlt. rewrite Hlt, Hchan. cbn [store].
  rewrite Hstaff. simpl.
  unfold no_valid_staff_roles. rewrite (bool_decide_true (_ = [_])) by done.
  rewrite orb_true_r. simpl. by rewrite <- app_assoc.
Qed.

Lemma close_rule_as_written t cfg :
  PyStr.split_colon cid = "ticket_actions" :: "close" :: seg :: rest →
  PyStr.int seg = Some (channel_id i) →
  get_ticket_by_channel (channel_id i) (store w) = Some t →
  status t ≠ Closed →
  get_guild_config (gd_id (i_guild i)) (store w) = Some cfg →
  let authorized :=
    is_staff (i_guild i) (user_roles i)
      (get_staff_roles_for_ticket_type (i_guild i) (ticket_type_name t)
         (Some cfg) (store w))
    || (bool_decide (user i = user_id t)
        && bool_decide (ints cfg allow_user_close = Some 1)) in
  on_interaction_with mapping_get pf i w
  = (Return (),
     {| store := store w;
        trace := trace w ++ [if authorized then SendModal (channel_id i)
                             else Reply NoPermission] |}).
Proof.
  intros Hsplit Hint Ht Hst Hcfg authorized. subst authorized.
  unfold on_interaction_with. rewrite Hty, Hcid, Hsplit.
  unfold close_flow_with, mapping_get, bind, index, int, try_except, query,
         emit, ret. simpl.
  rewrite Hint. simpl. rewrite bool_decide_true by done. simpl.
  rewrite Ht, bool_decide_false, Hcfg by done. simpl.
  destruct (is_staff _ _ _), (bool_decide (user i = _)),
    (bool_decide (ints cfg _ = _)); reflexivity.
Qed.

End AsWritten.

(** * Further properties of the code *)

(** ** The counter *)

Lemma overlapping_calls_stay_in_range_witness :
  let final :=
    Interleaving.run [0; 0; 0; 1; 1; 0; 1]%nat
      [(1, Interleaving.AtSelect); (1, Interleaving.AtSelect)] empty_db in
  (∀ n, Some n ∈ Interleaving.results final.1 →
        ∃ k, n = Some k
             ∧ 0 + 1 ≤ k
               ≤ 0 + Z.of_nat (length [(1, Interleaving.AtSelect);
                                       (1, Interleaving.AtSelect)]))
  ∧ (is_Some (select_ticket_counter 1 final.2) →
     select_ticket_counter 1 final.2
     = Some (Some (0 + Z.of_nat (increments final.1)))).
Proof.
  apply (overlapping_calls_stay_in_range 1 0 [0; 0; 0; 1; 1; 0; 1]%nat
           [(1, Interleaving.AtSelect); (1, Interleaving.AtSelect)] empty_db).
  - reflexivity.
  - reflexivity.
  - repeat constructor.
Defined.

(** X2.  A call of [get_and_increment_ticket_counter] touches the
    counter and nothing else.  The ticket types, the tickets and the
    configuration rows of the other guilds are as before.  The guild's
    own row keeps every column but the counter; if the guild had no row,
    it now has one that holds the schema's defaults in every column but
    the counter, which is 1 (a limit of one ticket per user, closing by
    the owner allowed, the default naming format, no staff roles, no
    channels), and 1 is the number returned. *)
Theorem counter_call_touches_only_the_counter (g : Z) (db : database) :
  let r := get_and_increment_ticket_counter g db in
  tickets r.2 = tickets db
  ∧ ticket_types r.2 = ticket_types db
  ∧ (∀ g', g' ≠ g → get_guild_config g' r.2 = get_guild_config g' db)
  ∧ ∃ row', get_guild_config g r.2 = Some row'
      ∧ let row := default default_row (get_guild_config g db) in
        default_staff_roles row' = default_staff_roles row
        ∧ ticket_naming_format row' = ticket_naming_format row
        ∧ (∀ c, c ≠ ticket_counter → ints row' c = ints row c)
        ∧ ints row' ticket_counter = r.1
        ∧ (get_guild_config g db = None → r.1 = Some 1).
Proof.
  intros r. subst r.
  unfold get_and_increment_ticket_counter, read_back, get_guild_config.
  cbn [fst snd]. rewrite select_increment_eq.
  unfold select_ticket_counter, increment_ticket_counter,
    insert_or_ignore_config.
  destruct (guild_configs db !! g) as [row|] eqn:Hrow;
    cbn [fmap option_fmap option_map tickets ticket_types guild_configs
         with_configs default].
  - rewrite Hrow. cbn. split; [done|]. split; [done|]. split.
    { intros g' Hne. by rewrite lookup_alter_ne. }
    rewrite lookup_alter_eq, Hrow. eexists. split; [reflexivity|]. cbn.
    repeat split; try done.
    intros c Hc. by rewrite decide_False.
  - rewrite lookup_insert_eq. cbn. split; [done|]. split; [done|]. split.
    { intros g' Hne. by rewrite lookup_alter_ne, lookup_insert_ne. }
    rewrite lookup_alter_eq, lookup_insert_eq. eexists. split; [reflexivity|].
    cbn. repeat split; try done.
    intros c Hc. by rewrite !decide_False.
Qed.


(** ** Ticket rows *)

Lemma open_tickets_insert (g u ch : Z) (t : ticket) (db : database) :
  tickets db !! ch = None →
  get_open_tickets_by_user g u (with_tickets db (<[ch := t]> (tickets db)))
  ≡ₚ (if is_open_ticket_of g u t then [t] else [])
     ++ get_open_tickets_by_user g u db.
Proof.
  intros Hfree. unfold get_open_tickets_by_user. cbn [tickets with_tickets].
  rewrite (map_to_list_insert _ _ _ Hfree), fmap_cons, filter_cons.
  cbn [snd].
  destruct (is_open_ticket_of g u t);
    by rewrite ?decide_True, ?decide_False by done.
Qed.

Lemma alter_as_insert {A} (f : A → A) (ch : Z) (x : A) (m : gmap Z A) :
  m !! ch = Some x → alter f ch m = <[ch := f x]> (delete ch m).
Proof.
  intros Hx. apply map_eq. intros j. destruct (decide (j = ch)) as [->|Hne].
  - by rewrite lookup_alter_eq, lookup_insert_eq, Hx.
  - by rewrite lookup_alter_ne, lookup_insert_ne, lookup_delete_ne.
Qed.

Lemma open_tickets_alter (g u ch : Z) (f : ticket → ticket) (t : ticket)
    (db : database) :
  tickets db !! ch = Some t →
  ∃ others,
    get_open_tickets_by_user g u db
    ≡ₚ (if is_open_ticket_of g u t then [t] else []) ++ others
    ∧ get_open_tickets_by_user g u (with_tickets db (alter f ch (tickets db)))
      ≡ₚ (if is_open_ticket_of g u (f t) then [f t] else []) ++ others.
Proof.
  intros Ht.
  exists (filter (λ t, is_open_ticket_of g u t = true)
            (map_to_list (delete ch (tickets db))).*2).
  unfold get_open_tickets_by_user. cbn [tickets with_tickets]. split.
  - rewrite <- (map_to_list_delete _ _ _ Ht), fmap_cons, filter_cons.
    cbn [snd].
    destruct (is_open_ticket_of g u t);
      by rewrite ?decide_True, ?decide_False by done.
  - rewrite (alter_as_insert f ch t _ Ht).
    rewrite map_to_list_insert by apply lookup_delete_eq.
    rewrite fmap_cons, filter_cons. cbn [snd].
    destruct (is_open_ticket_of g u (f t));
      by rewrite ?decide_True, ?decide_False by done.
Qed.

(** X3.  [create_ticket] on a channel without a row, with a display
    number: the call returns, the row is read back by
    [get_ticket_by_channel] as an open ticket with the values given and no
    closing data, the rows of the other channels are as before, the
    creator's open tickets are one more, and the open tickets of every
    other (guild, user) pair are the same rows. *)
Theorem create_ticket_is_read_back (g u ch : Z) (name : string) (n at_ : Z)
    (db : database) :
  get_ticket_by_channel ch db = None →
  let out := create_ticket g u ch name (Some n) at_ db in
  out.1 = Return ()
  ∧ (∃ t, get_ticket_by_channel ch out.2 = Some t
          ∧ (guild_id t, user_id t, ticket_display_id t, ticket_type_name t)
            = (g, u, n, name)
          ∧ status t = Open ∧ created_at t = at_
          ∧ (closed_by_user_id t, closed_at t, close_reason t,
             transcript_message_id t) = (None, None, None, None))
  ∧ (∀ ch', ch' ≠ ch →
            get_ticket_by_channel ch' out.2 = get_ticket_by_channel ch' db)
  ∧ length (get_open_tickets_by_user g u out.2)
    = S (length (get_open_tickets_by_user g u db))
  ∧ (∀ g' u', (g', u') ≠ (g, u) →
              get_open_tickets_by_user g' u' out.2
              ≡ₚ get_open_tickets_by_user g' u' db).
Proof.
  intros Hfree out. subst out. unfold get_ticket_by_channel in *.
  unfold create_ticket. rewrite Hfree. cbn [fst snd].
  split; [done|]. split.
  { eexists. cbn [tickets with_tickets]. rewrite lookup_insert_eq.
    split; [done|]. by cbn. }
  split.
  { intros ch' Hne. cbn [tickets with_tickets]. by rewrite lookup_insert_ne. }
  split.
  - rewrite open_tickets_insert by done.
    unfold is_open_ticket_of. cbn [guild_id user_id status].
    by rewrite !bool_decide_true, bool_decide_false by done.
  - intros g' u' Hne. rewrite open_tickets_insert by done.
    unfold is_open_ticket_of. cbn [guild_id user_id status].
    destruct (decide (g = g')) as [->|Hg];
      [|by rewrite (bool_decide_false (g = g')) by done].
    rewrite (bool_decide_false (u = u')); [by rewrite andb_false_r|].
    intros ->. by apply Hne.
Qed.

Lemma create_ticket_is_read_back_witness :
  let out := create_ticket 1 8 200 "billing" (Some 6) 42 Sample.db_open in
  out.1 = Return ()
  ∧ (∃ t, get_ticket_by_channel 200 out.2 = Some t
          ∧ (guild_id t, user_id t, ticket_display_id t, ticket_type_name t)
            = (1, 8, 6, "billing")
          ∧ status t = Open ∧ created_at t = 42
          ∧ (closed_by_user_id t, closed_at t, close_reason t,
             transcript_message_id t) = (None, None, None, None))
  ∧ (∀ ch', ch' ≠ 200 →
            get_ticket_by_channel ch' out.2
            = get_ticket_by_channel ch' Sample.db_open)
  ∧ length (get_open_tickets_by_user 1 8 out.2)
    = S (length (get_open_tickets_by_user 1 8 Sample.db_open))
  ∧ (∀ g' u', (g', u') ≠ (1, 8) →
              get_open_tickets_by_user g' u' out.2
              ≡ₚ get_open_tickets_by_user g' u' Sample.db_open).
Proof.
  apply (create_ticket_is_read_back 1 8 200 "billing" 6 42 Sample.db_open).
  reflexivity.
Defined.

(** X4.  For integer arguments that are 64-bit ([sqlite3] refuses a
    larger one with [OverflowError]), [create_ticket] leaves every row on
    record as it is (a channel that has a row keeps it), touches no other
    table, and when it raises it is with [IntegrityError] and nothing is
    written; it raises exactly when the display number is NULL or the
    channel already has a row. *)
Theorem create_ticket_never_overwrites (g u ch : Z) (name : string)
    (display_id : option Z) (at_ : Z) (db : database) :
  int64 g → int64 u → int64 ch → (∀ n, display_id = Some n → int64 n) →
  let out := create_ticket g u ch name display_id at_ db in
  tickets db ⊆ tickets out.2
  ∧ guild_configs out.2 = guild_configs db
  ∧ ticket_types out.2 = ticket_types db
  ∧ (out.1 = Return ()
     ∨ out.1 = Raise IntegrityError ∧ out.2 = db)
  ∧ (out.1 = Raise IntegrityError
     ↔ display_id = None ∨ is_Some (get_ticket_by_channel ch db)).
Proof.
  intros _ _ _ _ out. subst out. unfold create_ticket, get_ticket_by_channel.
  destruct display_id as [n|], (tickets db !! ch) as [old|] eqn:Hch;
    cbn [fst snd tickets with_tickets guild_configs ticket_types];
    repeat split; try done; eauto; try (intros [?|[? ?]]; done).
  by apply insert_subseteq.
Qed.

(** A second ticket for channel 100, which has a row. *)
Lemma create_ticket_never_overwrites_witness :
  let out := create_ticket 1 8 100 "billing" (Some 6) 42 Sample.db_open in
  tickets Sample.db_open ⊆ tickets out.2
  ∧ guild_configs out.2 = guild_configs Sample.db_open
  ∧ ticket_types out.2 = ticket_types Sample.db_open
  ∧ (out.1 = Return ()
     ∨ out.1 = Raise IntegrityError ∧ out.2 = Sample.db_open)
  ∧ (out.1 = Raise IntegrityError
     ↔ Some 6 = None ∨ is_Some (get_ticket_by_channel 100 Sample.db_open)).
Proof.
  apply (create_ticket_never_overwrites 1 8 100 "billing" (Some 6) 42
           Sample.db_open).
  - unfold int64. lia.
  - unfold int64. lia.
  - unfold int64. lia.
  - intros n [= <-]. unfold int64. lia.
Defined.

(** ** Configuration writes *)

(** X5.  [update_guild_config] never commits: whatever the guild, the
    keywords and the stored data, the call raises ([ProgrammingError] from
    the first statement, which is given one value more than it has
    placeholders; [OperationalError] when no keyword is given) and the
    stored data is as before.  So [/configticket setupdefaults] always
    ends in [ProgrammingError] once it has deferred, and never replies. *)
Theorem update_guild_config_never_commits (g : Z) (kwargs : list config_kwarg)
    (db : database) :
  update_guild_config g kwargs db
  = (Raise (match kwargs with
            | [] => OperationalError
            | _ :: _ => ProgrammingError
            end), db)
  ∧ ∀ i staff_role category transcript log_ archive w,
      setup_defaults i staff_role category transcript log_ archive w
      = (Raise ProgrammingError,
         {| store := store w; trace := trace w ++ [Defer] |}).
Proof.
  split; [|done].
  destruct kwargs as [|kw kwargs]; [done|].
  unfold update_guild_config, execute.
  replace (_ =? _)%nat with false; [done|].
  symmetry. apply Nat.eqb_neq.
  pose proof (length_fmap (inr : config_kwarg → Z + config_kwarg) kwargs)
    as Hlen.
  rewrite length_app, length_cons, length_app.
  cbn [length fmap list_fmap] in *. rewrite !Hlen. lia.
Qed.

(** ** Listing the ticket types *)

Lemma get_ticket_types_elem (g : Z) (db : database) (name : string)
    (row : ticket_type) :
  (name, row) ∈ get_ticket_types g db
  ↔ get_ticket_type_by_name g name db = Some row.
Proof.
  unfold get_ticket_types, get_ticket_type_by_name.
  rewrite list_elem_of_fmap. split.
  - intros ([[g' name'] row'] & [= -> ->] & Hin).
    apply list_elem_of_filter in Hin as [Hg Hin]. simpl in Hg. subst g'.
    by apply elem_of_map_to_list in Hin.
  - intros Hrow. exists ((g, name), row). split; [done|].
    apply list_elem_of_filter. split; [done|].
    by apply elem_of_map_to_list.
Qed.

(** X6.  The listing of a guild's ticket types and the lookup by name
    agree: a row is listed under a name exactly when the lookup of that
    name in that guild returns it; and no name is listed twice. *)
Theorem get_ticket_types_agrees_with_lookup (g : Z) (db : database) :
  (∀ name row, (name, row) ∈ get_ticket_types g db
               ↔ get_ticket_type_by_name g name db = Some row)
  ∧ NoDup (get_ticket_types g db).*1.
Proof.
  split; [intros name row; apply get_ticket_types_elem|].
  unfold get_ticket_types. rewrite <- list_fmap_compose.
  apply NoDup_fmap_2_strong.
  - intros [[g1 n1] r1] [[g2 n2] r2] [Hg1 H1]%list_elem_of_filter
      [Hg2 H2]%list_elem_of_filter Heq.
    simpl in *. subst.
    apply elem_of_map_to_list in H1, H2. congruence.
  - apply NoDup_filter, NoDup_map_to_list.
Qed.

(** ** Who is staff *)

Lemma resolved_elem (gd : guild) (column : option (list Z)) (role : Z) :
  role ∈ resolved gd column
  ↔ role ∈ default [] column ∧ role ∈ gd_roles gd.
Proof.
  unfold resolved, resolve_roles. destruct column as [ids|]; simpl.
  - rewrite list_elem_of_omap. unfold get_role. split.
    + intros (x & Hx & Hrole). case_bool_decide; by simplify_eq.
    + intros [Hid Hlive]. exists role. split; [done|].
      by rewrite bool_decide_true.
  - split; [by intros ?%elem_of_nil | by intros [?%elem_of_nil _]].
Qed.

Lemma resolved_nil (gd : guild) (column : option (list Z)) :
  resolved gd column = []
  ↔ ∀ role, role ∈ default [] column → role ∉ gd_roles gd.
Proof.
  split.
  - intros Hnil role Hid Hlive.
    assert (role ∈ resolved gd column) as Hin by by apply resolved_elem.
    rewrite Hnil in Hin. by apply elem_of_nil in Hin.
  - intros Hdead. destruct (resolved gd column) as [|role l] eqn:Hres; [done|].
    assert (role ∈ resolved gd column) as Hin by (rewrite Hres; left).
    apply resolved_elem in Hin as [Hid Hlive]. by destruct (Hdead role).
Qed.

Lemma is_staff_elem (gd : guild) (held staff : list Z) :
  is_staff gd held staff = true
  ↔ ∃ role, role ∈ staff ∧ role ≠ default_role gd ∧ role ∈ held.
Proof.
  unfold is_staff. rewrite existsb_exists. split.
  - intros (role & Hin & Hheld). exists role.
    apply list_elem_of_In, list_elem_of_filter in Hin as [Hne Hin].
    by apply bool_decide_eq_true in Hheld.
  - intros (role & Hin & Hne & Hheld). exists role. split.
    + apply list_elem_of_In, list_elem_of_filter. done.
    + by apply bool_decide_eq_true.
Qed.

(** X7.  The staff test that both close paths apply to the resolver's
    answer.  A requester passes it exactly when they hold a role that
    still exists in the guild, is not the default role, and is listed for
    the ticket's type, or, when none of the roles listed for the type
    still exists (or the type is gone or lists none), is listed among the
    guild's default staff roles. *)
Theorem staff_means_configured_role (gd : guild) (name : string)
    (cfg : option guild_config) (db : database) (held : list Z) :
  let specific :=
    default [] (get_ticket_type_by_name (gd_id gd) name db
                  ≫= specific_staff_roles) in
  let defaults := default [] (cfg ≫= default_staff_roles) in
  is_staff gd held (get_staff_roles_for_ticket_type gd name cfg db) = true
  ↔ ∃ role,
      role ∈ held ∧ role ≠ default_role gd ∧ role ∈ gd_roles gd
      ∧ (role ∈ specific
         ∨ (∀ r, r ∈ specific → r ∉ gd_roles gd) ∧ role ∈ defaults).
Proof.
  intros specific defaults. subst specific defaults.
  rewrite is_staff_elem. unfold get_staff_roles_for_ticket_type.
  set (spec := get_ticket_type_by_name (gd_id gd) name db
                 ≫= specific_staff_roles).
  set (dflt := cfg ≫= default_staff_roles).
  pose proof (resolved_nil gd spec) as Hnil.
  destruct (resolved gd spec) as [|s ss] eqn:Hspec.
  - assert (∀ r, r ∈ default [] spec → r ∉ gd_roles gd) as Hdead
      by by apply Hnil.
    destruct (resolved gd dflt) as [|d ds] eqn:Hdflt.
    + split.
      * intros (role & ->%list_elem_of_singleton & Hne & _). done.
      * intros (role & Hheld & Hne & Hlive & [Hin|[_ Hin]]).
        -- by destruct (Hdead role).
        -- assert (role ∈ resolved gd dflt) as Hres
             by by apply resolved_elem.
           rewrite Hdflt in Hres. by apply elem_of_nil in Hres.
    + rewrite <- Hdflt. split.
      * intros (role & [Hin Hlive]%resolved_elem & Hne & Hheld).
        exists role. eauto 10.
      * intros (role & Hheld & Hne & Hlive & [Hin|[_ Hin]]).
        -- by destruct (Hdead role).
        -- exists role. split; [by apply resolved_elem | done].
  - rewrite <- Hspec. split.
    + intros (role & [Hin Hlive]%resolved_elem & Hne & Hheld).
      exists role. eauto 10.
    + intros (role & Hheld & Hne & Hlive & [Hin|[Hdead Hin]]).
      * exists role. split; [by apply resolved_elem | done].
      * assert (s ∈ resolved gd spec) as Hs by (rewrite Hspec; left).
        apply resolved_elem in Hs as [Hsid Hslive]. by destruct (Hdead s).
Qed.

(** ** Clicks on the bot's own buttons *)

(** The router splits the id of a panel button into its four segments
    when the type's name has no colon, and reads the guild id back. *)
Lemma panel_button_segments (g : Z) (name : string) :
  colon_free name →
  PyStr.split_colon (panel_button_custom_id g name)
  = ["ticket_panel"; "create"; PyStr.str g; name]
  ∧ PyStr.int (PyStr.str g) = Some g.
Proof.
  intros Hname. split; [|apply int_str]. unfold panel_button_custom_id.
  change ("ticket_panel:create:" +:+ PyStr.str g +:+ ":" +:+ name)
    with ("ticket_panel" +:+ ":" +:+ "create" +:+ ":" +:+ PyStr.str g +:+ ":"
          +:+ name).
  rewrite !split_colon_segment, split_colon_free;
    first [done | apply str_colon_free | by repeat constructor].
Qed.

(** X8.  No component interaction changes the stored data, and none
    gets as far as opening a ticket: no channel is created or written to,
    neither the ticket-created nor the channel-creation-failed reply is
    sent, and no staff notification is posted. *)
Theorem on_interaction_opens_nothing (pf : platform) (i : interaction)
    (w : world) :
  store (on_interaction pf i w).2 = store w
  ∧ emits_only (λ ev, provisions ev = false) w (on_interaction pf i w).2.
Proof.
  split.
  - symmetry. apply (on_interaction_store pf i w).
  - revert w. change (preserves (emits_only (λ ev, provisions ev = false))
                        (on_interaction pf i)).
    unfold on_interaction, on_interaction_with, create_flow_with,
      close_flow_with.
    preserves_all.
Qed.

(** X9.  A click on the panel button made for guild [g] and a type whose
    name has no colon.  In another guild the click is answered with the
    different-server reply.  In guild [g] it is answered with the
    not-fully-configured reply when the guild has no configuration row,
    the ticket category is not set or the type is not on record;
    otherwise the handler raises [AttributeError] at the limit check,
    having only deferred.  The stored data is the same in every case. *)
Theorem panel_button_click (pf : platform) (i : interaction) (w : world)
    (g : Z) (name : string) :
  i_type i = component →
  custom_id i = Some (panel_button_custom_id g name) →
  colon_free name →
  let replies (m : message) : outcome unit * world :=
    (Return (), {| store := store w; trace := trace w ++ [Defer; Reply m] |}) in
  (gd_id (i_guild i) ≠ g → on_interaction pf i w = replies DifferentServer)
  ∧ (gd_id (i_guild i) = g →
     on_interaction pf i w
     = match get_guild_config g (store w),
             get_ticket_type_by_name g name (store w) with
       | Some cfg, Some _ =>
           if truthy (ints cfg ticket_channel_category_id)
           then (Raise AttributeError,
                 {| store := store w; trace := trace w ++ [Defer] |})
           else replies NotFullyConfigured
       | _, _ => replies NotFullyConfigured
       end).
Proof.
  intros Hty Hcid Hname replies. subst replies.
  destruct (panel_button_segments g name Hname) as [Hsplit Hint].
  unfold on_interaction, on_interaction_with. rewrite Hty, Hcid, Hsplit.
  unfold create_flow_with, bind, index, int, try_except, query, emit, ret.
  simpl. rewrite Hint. simpl. split.
  - intros Hne. rewrite bool_decide_false by done. simpl.
    by rewrite <- app_assoc.
  - intros ->. rewrite bool_decide_true by done. simpl.
    unfold get_guild_config, get_ticket_type_by_name.
    destruct (guild_configs (store w) !! _) as [cfg|];
      [|simpl; by rewrite <- app_assoc].
    destruct (ticket_types (store w) !! _) as [type_row|];
      [|simpl; by rewrite <- app_assoc].
    destruct (truthy _); simpl; by rewrite <- ?app_assoc.
Qed.

Lemma panel_button_click_witness :
  let i := Sample.click (panel_button_custom_id 1 "billing") 7 [1] in
  let w := Sample.start Sample.db_open in
  let replies (m : message) : outcome unit * world :=
    (Return (), {| store := store w; trace := trace w ++ [Defer; Reply m] |}) in
  (gd_id (i_guild i) ≠ 1 →
   on_interaction Sample.all_fine i w = replies DifferentServer)
  ∧ (gd_id (i_guild i) = 1 →
     on_interaction Sample.all_fine i w
     = match get_guild_config 1 (store w),
             get_ticket_type_by_name 1 "billing" (store w) with
       | Some cfg, Some _ =>
           if truthy (ints cfg ticket_channel_category_id)
           then (Raise AttributeError,
                 {| store := store w; trace := trace w ++ [Defer] |})
           else replies NotFullyConfigured
       | _, _ => replies NotFullyConfigured
       end).
Proof.
  apply (panel_button_click Sample.all_fine
           (Sample.click (panel_button_custom_id 1 "billing") 7 [1])
           (Sample.start Sample.db_open) 1 "billing").
  - reflexivity.
  - reflexivity.
  - repeat constructor.
Defined.

(** X10.  A click on the close button made for channel [ch].  In another
    channel it is answered with the different-ticket reply; in [ch], with
    the not-valid-or-already-closed reply when the channel has no ticket
    row or the ticket is closed.  For a ticket that is not closed the
    handler raises [AttributeError] when the guild has a configuration
    row, before the permission test and with nothing sent; when the guild
    has none, staff get the close form and everybody else, the owner
    included, the no-permission reply. *)
Theorem close_button_click (pf : platform) (i : interaction) (w : world)
    (ch owner : Z) :
  i_type i = component →
  custom_id i = Some (close_button_custom_id ch owner) →
  let sends (ev : event) : outcome unit * world :=
    (Return (), {| store := store w; trace := trace w ++ [ev] |}) in
  (channel_id i ≠ ch →
   on_interaction pf i w = sends (Reply DifferentTicket))
  ∧ (channel_id i = ch →
     on_interaction pf i w
     = match get_ticket_by_channel ch (store w) with
       | None => sends (Reply NotValidOrAlreadyClosed)
       | Some t =>
           if bool_decide (status t = Closed)
           then sends (Reply NotValidOrAlreadyClosed)
           else
             match get_guild_config (gd_id (i_guild i)) (store w) with
             | Some _ => (Raise AttributeError, w)
             | None =>
                 sends (if is_staff (i_guild i) (user_roles i)
                             (get_staff_roles_for_ticket_type (i_guild i)
                                (ticket_type_name t) None (store w))
                        then SendModal ch
                        else Reply NoPermission)
             end
       end).
Proof.
  intros Hty Hcid sends. subst sends.
  destruct (close_button_segments ch owner) as [Hsplit Hint].
  unfold on_interaction, on_interaction_with. rewrite Hty, Hcid, Hsplit.
  unfold close_flow_with, bind, index, int, try_except, query, emit, ret.
  simpl. rewrite Hint. simpl. split.
  - intros Hne. by rewrite bool_decide_false.
  - intros ->. rewrite bool_decide_true by done. simpl.
    unfold get_ticket_by_channel, get_guild_config.
    destruct (tickets (store w) !! _) as [t|]; [|done]. simpl.
    destruct (bool_decide (status t = Closed)); [done|]. simpl.
    destruct (guild_configs (store w) !! _) as [cfg|]; [done|]. simpl.
    rewrite orb_true_r, andb_true_r.
    by destruct (is_staff _ _ _).
Qed.

Lemma close_button_click_witness :
  let i := Sample.click (close_button_custom_id 100 7) 9 [1; 50] in
  let w := Sample.start Sample.db_unconfigured in
  let sends (ev : event) : outcome unit * world :=
    (Return (), {| store := store w; trace := trace w ++ [ev] |}) in
  (channel_id i ≠ 100 →
   on_interaction Sample.all_fine i w = sends (Reply DifferentTicket))
  ∧ (channel_id i = 100 →
     on_interaction Sample.all_fine i w
     = match get_ticket_by_channel 100 (store w) with
       | None => sends (Reply NotValidOrAlreadyClosed)
       | Some t =>
           if bool_decide (status t = Closed)
           then sends (Reply NotValidOrAlreadyClosed)
           else
             match get_guild_config (gd_id (i_guild i)) (store w) with
             | Some _ => (Raise AttributeError, w)
             | None =>
                 sends (if is_staff (i_guild i) (user_roles i)
                             (get_staff_roles_for_ticket_type (i_guild i)
                                (ticket_type_name t) None (store w))
                        then SendModal 100
                        else Reply NoPermission)
             end
       end).
Proof.
  apply (close_button_click Sample.all_fine
           (Sample.click (close_button_custom_id 100 7) 9 [1; 50])
           (Sample.start Sample.db_unconfigured) 100 7);
    reflexivity.
Defined.

(** ** The panel command *)

Lemma add_item_after_raise (g : Z) (rows : list (string * ticket_type)) e :
  foldl (λ view tt_row,
           match view with
           | Return children => add_item children (panel_button g tt_row)
           | Raise e => Raise e
           end) (Raise e) rows = Raise e.
Proof. induction rows as [|r rows IH]; [done|]. simpl. apply IH. Qed.

Lemma add_items (g : Z) (rows : list (string * ticket_type))
    (children : list Button) :
  (length children ≤ 25)%nat →
  foldl (λ view tt_row,
           match view with
           | Return children => add_item children (panel_button g tt_row)
           | Raise e => Raise e
           end) (Return children) rows
  = if (25 <? length children + length rows)%nat then Raise ValueError
    else Return (children ++ (panel_button g <$> rows)).
Proof.
  revert children. induction rows as [|r rows IH]; intros children Hlen.
  - simpl. rewrite Nat.add_0_r, app_nil_r.
    by replace (25 <? length children)%nat with false
      by (symmetry; apply Nat.ltb_ge; lia).
  - cbn [foldl]. unfold add_item at 2.
    destruct (25 <=? length children)%nat eqn:Hfull.
    + apply Nat.leb_le in Hfull. rewrite add_item_after_raise.
      by replace (25 <? _)%nat with true
        by (symmetry; apply Nat.ltb_lt; cbn [length]; lia).
    + apply Nat.leb_gt in Hfull. rewrite IH by (rewrite length_app; simpl; lia).
      rewrite length_app. cbn [length fmap list_fmap].
      rewrite <- app_assoc. cbn [app].
      by replace (length children + 1 + length rows)%nat
        with (length children + S (length rows))%nat by lia.
Qed.

Lemma panel_button_is_not_placeholder (g : Z) (tt_row : string * ticket_type) :
  button_custom_id (panel_button g tt_row) ≠ "ticket_panel:no_types".
Proof. cbn. unfold panel_button_custom_id. cbn. discriminate. Qed.

(** X11.  [/ticketpanel create] never puts up a panel: whatever the
    platform answers, no panel message is posted, the panel-created reply
    is not sent, and the stored data, the recorded panel included, is as
    before.  How the command ends, once it has deferred: with the
    run-setup-first reply when the guild has no configuration row, no
    ticket category or no default staff roles; with the no-ticket-types
    reply when the guild has no ticket type; with [ValueError], unanswered,
    when the guild has more than 25 ticket types; and otherwise with the
    error reply of its [try] block. *)
Theorem create_ticket_panel_never_posts (pf : platform) (i : interaction)
    (w : world) :
  let g := gd_id (i_guild i) in
  let out := create_ticket_panel pf i w in
  let replies (m : message) : outcome unit * world :=
    (Return (), {| store := store w; trace := trace w ++ [Defer; Reply m] |}) in
  store out.2 = store w
  ∧ emits_only (λ ev, posts_panel ev = false) w out.2
  ∧ out
    = match get_guild_config g (store w) with
      | None => replies RunSetupFirst
      | Some cfg =>
          if truthy (ints cfg ticket_channel_category_id)
             && bool_decide (is_Some (default_staff_roles cfg))
          then match get_ticket_types g (store w) with
               | [] => replies NoTicketTypes
               | rows =>
                   if (25 <? length rows)%nat
                   then (Raise ValueError,
                         {| store := store w; trace := trace w ++ [Defer] |})
                   else replies PanelError
               end
          else replies RunSetupFirst
      end.
Proof.
  intros g out replies. subst g out replies. split; [|split].
  - symmetry. apply (create_ticket_panel_store pf i w).
  - revert w. change (preserves (emits_only (λ ev, posts_panel ev = false))
                        (create_ticket_panel pf i)).
    unfold create_ticket_panel, create_ticket_panel_with.
    preserves_all.
  - unfold create_ticket_panel, create_ticket_panel_with, bind, query, emit.
    cbn [store trace].
    destruct (get_guild_config _ _) as [cfg|];
      cbn beta iota; cbn [store trace]; [|by rewrite <- app_assoc].
    destruct (truthy _), (bool_decide (is_Some _));
      cbn [negb orb andb]; cbn beta iota; cbn [store trace];
      try by rewrite <- app_assoc.
    destruct (get_ticket_types _ _) as [|row rows] eqn:Hrows;
      cbn beta iota; cbn [store trace]; [by rewrite <- app_assoc|].
    rewrite Hrows.
    unfold populate_buttons. rewrite add_items by (simpl; lia).
    cbn [length Nat.add app].
    destruct (25 <? S (length rows))%nat; [done|].
    cbn [await ret fmap list_fmap].
    assert (match panel_button (gd_id (i_guild i)) row
                  :: (panel_button (gd_id (i_guild i)) <$> rows) with
            | [] => true
            | [only] =>
                bool_decide (button_custom_id only = "ticket_panel:no_types")
            | _ => false
            end = false) as ->.
    { destruct rows; [|done]. cbn [fmap list_fmap].
      apply bool_decide_eq_false_2, panel_button_is_not_placeholder. }
    unfold try_except, bind, Row_get, raise, catches_any.
    cbn [store trace]. by rewrite <- app_assoc.
Qed.

(** ** The close form *)

Global Instance touches_only_ticket_refl ch :
  Reflexive (touches_only_ticket ch).
Proof. by intros db. Qed.

Global Instance touches_only_ticket_trans ch :
  Transitive (touches_only_ticket ch).
Proof.
  intros a b c (Hc1 & Ht1 & Hk1) (Hc2 & Ht2 & Hk2).
  split; [congruence|]. split; [congruence|].
  intros ch' Hne. rewrite Hk2, Hk1 by done. done.
Qed.

Lemma update_ticket_touches_only ch kwargs db :
  touches_only_ticket ch db (update_ticket ch kwargs db).2.
Proof.
  unfold update_ticket. destruct kwargs; [done|].
  split; [done|]. split; [done|].
  intros ch' Hne. cbn [snd tickets with_tickets].
  by rewrite lookup_alter_ne.
Qed.

Lemma on_submit_touches_only (pf : platform) (i : interaction) (ch : Z)
    (reason_input : string) :
  preserves (on_store (touches_only_ticket ch))
    (on_submit pf i ch reason_input).
Proof.
  unfold on_submit. preserves_all.
  all: intros db; apply update_ticket_touches_only.
Qed.

(** X12.  Submitting the close form of channel [ch] changes at most the
    ticket row of [ch]: the configuration rows, the ticket types and the
    rows of all other channels are as before, whatever the platform
    answers and whether or not the handler raises. *)
Theorem on_submit_touches_one_ticket (pf : platform) (i : interaction)
    (ch : Z) (reason_input : string) (w : world) :
  touches_only_ticket ch (store w)
    (store (on_submit pf i ch reason_input w).2).
Proof. apply (on_submit_touches_only pf i ch reason_input w). Qed.

(** The write of [on_submit], once the history has been read (or no
    transcript is due). *)
Lemma on_submit_store (pf : platform) (i : interaction) (ch : Z)
    (reason_input : string) (w : world) (t : ticket) (k : channel_kind)
    (cfg : guild_config) :
  get_ticket_by_channel ch (store w) = Some t →
  get_channel (i_guild i) (Some ch) = Some k →
  get_guild_config (gd_id (i_guild i)) (store w) = Some cfg →
  (transcript_due (i_guild i) cfg = true → history pf = Return ()) →
  store (on_submit pf i ch reason_input w).2
  = (update_ticket ch
       [KwStatus Closed; KwClosedBy (Some (user i));
        KwClosedAt (Some (now pf));
        KwCloseReason (Some (reason_of reason_input));
        KwTranscript (if transcript_due (i_guild i) cfg
                      then match transcript_send pf with
                           | Return jump_url => Some jump_url
                           | Raise _ => None
                           end
                      else None)] (store w)).2.
Proof.
  intros Ht Hch Hcfg Hhist.
  unfold on_submit, bind, query, emit. cbn [store trace fst snd].
  rewrite Hcfg, Ht, Hch.
  unfold transcript_due in *.
  unfold try_except, call, update_ticket, await, bind, emit, ret, raise.
  destruct (truthy (ints cfg transcript_channel_id)); simpl in *.
  - destruct (get_channel _ _) as [k'|] eqn:Hk'; simpl in *.
    + rewrite Hhist by done. simpl.
      repeat (case_match; simplify_eq/=); reflexivity.
    + repeat (case_match; simplify_eq/=); reflexivity.
  - repeat (case_match; simplify_eq/=); reflexivity.
Qed.

(** X13.  [on_submit] with the ticket row, the ticket channel and the
    configuration row in place, and the channel history readable whenever
    a transcript is due.  Whatever else the platform answers, the row is
    then closed: it records the submitter, the time and the reason (the
    text ["No reason provided."] for an empty input, so never the empty
    string), and as transcript reference the posted message's link, or
    NULL when no transcript is due or its delivery failed; guild, owner,
    display number, type and creation time are as before. *)
Theorem on_submit_persists_closure (pf : platform) (i : interaction) (ch : Z)
    (reason_input : string) (w : world) (t : ticket) (k : channel_kind)
    (cfg : guild_config) :
  get_ticket_by_channel ch (store w) = Some t →
  get_channel (i_guild i) (Some ch) = Some k →
  get_guild_config (gd_id (i_guild i)) (store w) = Some cfg →
  (transcript_due (i_guild i) cfg = true → history pf = Return ()) →
  ∃ t', get_ticket_by_channel ch (store (on_submit pf i ch reason_input w).2)
        = Some t'
        ∧ status t' = Closed
        ∧ closed_by_user_id t' = Some (user i)
        ∧ closed_at t' = Some (now pf)
        ∧ close_reason t' = Some (reason_of reason_input)
        ∧ close_reason t' ≠ Some ""
        ∧ transcript_message_id t'
          = (if transcript_due (i_guild i) cfg
             then match transcript_send pf with
                  | Return jump_url => Some jump_url
                  | Raise _ => None
                  end
             else None)
        ∧ same_identity t t'.
Proof.
  intros Ht Hch Hcfg Hhist.
  rewrite (on_submit_store pf i ch reason_input w t k cfg) by done.
  unfold get_ticket_by_channel in *.
  cbn [update_ticket snd tickets with_tickets].
  rewrite lookup_alter_eq, Ht. eexists. split; [reflexivity|].
  cbn. repeat split; try done.
  unfold reason_of. case_bool_decide; congruence.
Qed.

Lemma on_submit_persists_closure_witness :
  let pf := Sample.all_fine in
  let i := Sample.modal 9 [1; 50] in
  let w := Sample.start Sample.db_open in
  ∃ t', get_ticket_by_channel 100 (store (on_submit pf i 100 "" w).2)
        = Some t'
        ∧ status t' = Closed
        ∧ closed_by_user_id t' = Some (user i)
        ∧ closed_at t' = Some (now pf)
        ∧ close_reason t' = Some (reason_of "")
        ∧ close_reason t' ≠ Some ""
        ∧ transcript_message_id t'
          = (if transcript_due (i_guild i) Sample.configured
             then match transcript_send pf with
                  | Return jump_url => Some jump_url
                  | Raise _ => None
                  end
             else None)
        ∧ same_identity Sample.open_ticket t'.
Proof.
  apply (on_submit_persists_closure Sample.all_fine (Sample.modal 9 [1; 50])
           100 "" (Sample.start Sample.db_open) Sample.open_ticket
           TextChannel Sample.configured);
    reflexivity.
Defined.

(** X14.  Closing frees a slot under the per-user limit: under the
    conditions of the previous theorem, if the ticket was not closed
    before, its owner has one open ticket less in its guild after
    [on_submit]; if it was closed already, the count is the same. *)
Theorem closing_frees_a_slot (pf : platform) (i : interaction) (ch : Z)
    (reason_input : string) (w : world) (t : ticket) (k : channel_kind)
    (cfg : guild_config) :
  get_ticket_by_channel ch (store w) = Some t →
  get_channel (i_guild i) (Some ch) = Some k →
  get_guild_config (gd_id (i_guild i)) (store w) = Some cfg →
  (transcript_due (i_guild i) cfg = true → history pf = Return ()) →
  let count db :=
    length (get_open_tickets_by_user (guild_id t) (user_id t) db) in
  count (store w)
  = ((if bool_decide (status t = Closed) then 0 else 1)
     + count (store (on_submit pf i ch reason_input w).2))%nat.
Proof.
  intros Ht Hch Hcfg Hhist count. subst count.
  rewrite (on_submit_store pf i ch reason_input w t k cfg) by done.
  unfold get_ticket_by_channel in *.
  cbn [update_ticket snd].
  destruct (open_tickets_alter (guild_id t) (user_id t) ch
              (λ t0, fold_left set_ticket_kwarg
                       [KwStatus Closed; KwClosedBy (Some (user i));
                        KwClosedAt (Some (now pf));
                        KwCloseReason (Some (reason_of reason_input));
                        KwTranscript
                          (if transcript_due (i_guild i) cfg
                           then match transcript_send pf with
                                | Return jump_url => Some jump_url
                                | Raise _ => None
                                end
                           else None)] t0) t (store w) Ht)
    as (others & -> & ->).
  unfold is_open_ticket_of.
  cbn [fold_left set_ticket_kwarg guild_id user_id status].
  rewrite !bool_decide_true by done.
  rewrite (bool_decide_true (Closed = Closed)) by done. cbn [negb andb app].
  case_bool_decide; cbn [negb andb app length]; lia.
Qed.

Lemma closing_frees_a_slot_witness :
  let pf := Sample.all_fine in
  let i := Sample.modal 9 [1; 50] in
  let w := Sample.start Sample.db_open in
  let count db := length (get_open_tickets_by_user 1 7 db) in
  count (store w)
  = ((if bool_decide (status Sample.open_ticket = Closed) then 0 else 1)
     + count (store (on_submit pf i 100 "done" w).2))%nat.
Proof.
  apply (closing_frees_a_slot Sample.all_fine (Sample.modal 9 [1; 50])
           100 "done" (Sample.start Sample.db_open) Sample.open_ticket
           TextChannel Sample.configured);
    reflexivity.
Defined.

(** X15.  Which failures leave [on_submit]: an exception of the history
    read, or an exception of the message to the ticket channel that is
    not an [HTTPException].  A failed transcript delivery, channel edit or
    permission change is caught. *)
Theorem on_submit_escaping_exceptions (pf : platform) (i : interaction)
    (ch : Z) (reason_input : string) (w : world) (e : exn) :
  (on_submit pf i ch reason_input w).1 = Raise e →
  history pf = Raise e
  ∨ (channel_send pf = Raise e ∧ catches_http e = false).
Proof.
  unfold on_submit, bind, query, emit, try_except, call, update_ticket,
         await, bind, emit, ret, raise, catches_any.
  repeat (case_match; simplify_eq/=); intros He; simplify_eq; auto.
Qed.

Lemma on_submit_escaping_exceptions_witness :
  history Sample.history_fails = Raise HTTPException
  ∨ (channel_send Sample.history_fails = Raise HTTPException
     ∧ catches_http HTTPException = false).
Proof.
  apply (on_submit_escaping_exceptions Sample.history_fails
           (Sample.modal 9 [1; 50]) 100 "resolved"
           (Sample.start Sample.db_open) HTTPException).
  reflexivity.
Defined.

(** ** The close command *)

(** X16.  [/ticket close] never closes a ticket.  Either it answers with
    one of its four refusals (no active ticket here, no server
    configuration, the ticket cog missing, no permission) and returns, or
    it raises: [NameError] at the [datetime] of the write, unless posting
    the transcript note raised first.  In every case the stored data is
    as before, the channel is neither renamed nor written to, and neither
    of the two closing replies is sent. *)
Theorem close_command_never_closes (pf : platform) (i : interaction)
    (reason : option string) (w : world) :
  let out := close_ticket_command pf i reason w in
  store out.2 = store w
  ∧ emits_only (λ ev, closes_by_command ev = false) w out.2
  ∧ ((∃ m, m ∈ [NotActiveOrAlreadyClosed; ServerConfigNotFound;
                TicketCogNotFound; NoPermissionCommand]
           ∧ out = (Return (), {| store := store w;
                                  trace := trace w ++ [Reply m] |}))
     ∨ (∃ e, out.1 = Raise e
             ∧ (e = NameError ∨ transcript_send pf = Raise e))).
Proof.
  intros out. subst out. split; [|split].
  - symmetry. apply (close_ticket_command_store pf i reason w).
  - revert w.
    change (preserves (emits_only (λ ev, closes_by_command ev = false))
              (close_ticket_command pf i reason)).
    unfold close_ticket_command. preserves_all.
  - unfold close_ticket_command, bind, query, emit, await, ret, raise,
      datetime_now_unbound.
    repeat (case_match; simplify_eq/=);
      first [ left; eexists; split; [|reflexivity]; set_solver
            | right; eexists; split; [reflexivity|]; auto ].
Qed.

(** ** All operations together *)

Global Instance only_closes_refl : Reflexive only_closes.
Proof.
  intros db. split; [done|]. intros ch.
  destruct (tickets db !! ch); [|done]. split; [done | by left].
Qed.

Global Instance only_closes_trans : Transitive only_closes.
Proof.
  intros a b c [Hc1 Ht1] [Hc2 Ht2]. split; [congruence|]. intros ch.
  specialize (Ht1 ch). specialize (Ht2 ch).
  destruct (tickets a !! ch) as [ta|], (tickets b !! ch) as [tb|],
    (tickets c !! ch) as [tc|]; try done.
  destruct Ht1 as [(?&?&?&?&?) Hs1], Ht2 as [(?&?&?&?&?) Hs2].
  split; [unfold same_identity; repeat split; congruence|].
  destruct Hs2 as [->|?]; [done | by right].
Qed.

Lemma eq_only_closes (a b : database) : a = b → only_closes a b.
Proof. intros ->. reflexivity. Qed.

Lemma same_tables_only_closes (a b : database) :
  guild_configs b = guild_configs a → tickets b = tickets a →
  only_closes a b.
Proof.
  intros Hc Ht. split; [done|]. intros ch. rewrite Ht.
  destruct (tickets a !! ch); [|done]. split; [done | by left].
Qed.

Lemma close_update_only_closes ch who at_ reason link db :
  only_closes db
    (update_ticket ch [KwStatus Closed; KwClosedBy who; KwClosedAt at_;
                       KwCloseReason reason; KwTranscript link] db).2.
Proof.
  split; [done|]. intros ch'. cbn [update_ticket snd tickets with_tickets].
  destruct (decide (ch' = ch)) as [->|Hne].
  - rewrite lookup_alter_eq. destruct (tickets db !! ch); [|done].
    split; [done | by right].
  - rewrite lookup_alter_ne by done.
    destruct (tickets db !! ch'); [|done]. split; [done | by left].
Qed.

(** X17.  Whatever operation the bot performs and whatever the platform
    answers: no configuration row changes (so no counter moves and no
    panel or setting is recorded); no ticket row appears or disappears
    (so no ticket is opened); and a ticket row that changes is closed
    afterwards and keeps its guild, owner, display number, type and
    creation time. *)
Theorem operations_only_close (pf : platform) (op : operation) (w : world) :
  only_closes (store w) (store (perform pf op w).2).
Proof.
  revert w. change (preserves (on_store only_closes) (perform pf op)).
  destruct op; cbn [perform].
  - eapply on_store_weaken; [apply eq_only_closes | apply on_interaction_store].
  - eapply on_store_weaken;
      [apply eq_only_closes | apply create_ticket_panel_store].
  - eapply on_store_weaken;
      [apply eq_only_closes | apply close_ticket_command_store].
  - unfold on_submit. preserves_all.
    all: intros db; apply close_update_only_closes.
  - eapply on_store_weaken;
      [apply eq_only_closes | apply setup_defaults_keeps_store].
  - unfold add_type. preserves_all.
    all: intros db; apply same_tables_only_closes; unfold add_ticket_type;
      by destruct (ticket_types db !! _).
  - unfold remove_type. preserves_all.
    all: intros db; apply same_tables_only_closes; unfold remove_ticket_type;
      by destruct (ticket_types db !! _).
Qed.

(** ** Ticket-type rows *)

Global Instance keeps_refl P : Reflexive (keeps P).
Proof. by intros db Hdb. Qed.

Global Instance keeps_trans P : Transitive (keeps P).
Proof. intros a b c Hab Hbc Ha. by apply Hbc, Hab. Qed.

Global Instance touches_only_type_refl key : Reflexive (touches_only_type key).
Proof. by intros db k Hk. Qed.

Global Instance touches_only_type_trans key :
  Transitive (touches_only_type key).
Proof. intros a b c Hab Hbc k Hk. by rewrite Hbc, Hab. Qed.

Lemma same_types_touches_only key (a b : database) :
  ticket_types b = ticket_types a → touches_only_type key a b.
Proof. intros Heq k Hk. by rewrite Heq. Qed.

Lemma same_types_keeps_well_formed (a b : database) :
  ticket_types b = ticket_types a → keeps well_formed_types a b.
Proof. intros Heq Ha g name row. rewrite Heq. apply Ha. Qed.

Lemma add_ticket_type_well_formed g raw row db :
  button_style row ∈ valid_styles →
  keeps well_formed_types db (add_ticket_type g raw row db).2.
Proof.
  intros Hstyle Hdb. unfold add_ticket_type.
  destruct (ticket_types db !! (g, normalize raw)) as [old|] eqn:Hold; [done|].
  intros g' name row'. cbn [snd ticket_types with_types].
  destruct (decide ((g', name) = (g, normalize raw))) as [[= -> ->]|Hne].
  - rewrite lookup_insert_eq. intros [= <-].
    split; [apply normalize_idempotent | done].
  - rewrite lookup_insert_ne by done. apply Hdb.
Qed.

Lemma remove_ticket_type_well_formed g name db :
  keeps well_formed_types db (remove_ticket_type g name db).2.
Proof.
  intros Hdb. unfold remove_ticket_type.
  destruct (ticket_types db !! (g, name)) as [old|]; [|done].
  intros g' name' row'. cbn [snd ticket_types with_types].
  intros [_ Hrow]%lookup_delete_Some. by apply (Hdb g').
Qed.

Lemma on_submit_same_types pf i ch reason_input :
  preserves (on_store (λ a b, ticket_types b = ticket_types a))
    (on_submit pf i ch reason_input).
Proof.
  intros w. destruct (on_submit_touches_only pf i ch reason_input w)
    as (_ & Htypes & _). done.
Qed.

(** X18.  The type rows stay as [/configticket tickettype add] writes
    them: if every stored type has a slug as its name (lower case, no
    space) and one of the four button styles, then so it is after any
    operation of the bot. *)
Theorem type_rows_stay_well_formed (pf : platform) (op : operation)
    (w : world) :
  well_formed_types (store w) →
  well_formed_types (store (perform pf op w).2).
Proof.
  revert w. change (preserves (on_store (keeps well_formed_types))
                      (perform pf op)).
  destruct op; cbn [perform].
  - eapply on_store_weaken; [|apply on_interaction_store]. by intros a b ->.
  - eapply on_store_weaken; [|apply create_ticket_panel_store].
    by intros a b ->.
  - eapply on_store_weaken; [|apply close_ticket_command_store].
    by intros a b ->.
  - eapply on_store_weaken; [|apply on_submit_same_types].
    intros a b. apply same_types_keeps_well_formed.
  - eapply on_store_weaken; [|apply setup_defaults_keeps_store].
    by intros a b ->.
  - unfold add_type. preserves_all.
    all: intros db;
      match goal with
      | |- context [add_ticket_type ?g ?n ?row db] =>
          pose proof (add_ticket_type_well_formed g n row db) as Hadd;
          destruct (add_ticket_type g n row db) as [b db']
      end; apply Hadd; cbn [button_style];
      first [ match goal with
              | H : bool_decide _ = true |- _ =>
                  apply bool_decide_eq_true in H; exact H
              end
            | by apply (bool_decide_unpack _) ].
  - unfold remove_type. preserves_all.
    all: intros db;
      match goal with
      | |- context [remove_ticket_type ?g ?n db] =>
          pose proof (remove_ticket_type_well_formed g n db) as Hrm;
          destruct (remove_ticket_type g n db) as [b db']
      end; apply Hrm.
Qed.

Lemma type_rows_stay_well_formed_witness :
  well_formed_types
    (store (perform Sample.all_fine
              (AddType (Sample.command 9 [1; 50]) "Bug Report" "Bugs" None
                 None (Some "loud") None None)
              (Sample.start empty_db)).2).
Proof.
  apply (type_rows_stay_well_formed Sample.all_fine
           (AddType (Sample.command 9 [1; 50]) "Bug Report" "Bugs" None
              None (Some "loud") None None)
           (Sample.start empty_db)).
  intros g name row Hrow. simpl in Hrow. by rewrite lookup_empty in Hrow.
Defined.

Lemma perform_touches_only_type (pf : platform) (op : operation) :
  preserves (on_store (touches_only_type (type_key_of op))) (perform pf op).
Proof.
  destruct op; cbn [perform type_key_of].
  - eapply on_store_weaken; [|apply on_interaction_store].
    intros a b ->. reflexivity.
  - eapply on_store_weaken; [|apply create_ticket_panel_store].
    intros a b ->. reflexivity.
  - eapply on_store_weaken; [|apply close_ticket_command_store].
    intros a b ->. reflexivity.
  - eapply on_store_weaken; [|apply on_submit_same_types].
    intros a b. apply same_types_touches_only.
  - eapply on_store_weaken; [|apply setup_defaults_keeps_store].
    intros a b ->. reflexivity.
  - unfold add_type. preserves_all.
    all: intros db k Hk; unfold add_ticket_type;
      rewrite normalize_idempotent;
      destruct (ticket_types db !! (_, normalize _)); [done|];
      cbn [snd ticket_types with_types];
      rewrite lookup_insert_ne; [done | congruence].
  - unfold remove_type. preserves_all.
    all: intros db k Hk; unfold remove_ticket_type;
      destruct (ticket_types db !! (_, normalize _)); [|done];
      cbn [snd ticket_types with_types];
      rewrite lookup_delete_ne; [done | congruence].
Qed.

(** X19.  An operation changes at most one ticket-type row: the add and
    the remove command, given a name in ASCII, the row of the
    interaction's guild under the slug of that name; every other
    operation none.  So the types of other guilds, and the other types of
    the same guild, are as before. *)
Theorem type_writes_are_local (pf : platform) (op : operation) (w : world)
    (g : Z) (name : string) :
  type_name_in_ascii op = true →
  type_key_of op ≠ Some (g, name) →
  get_ticket_type_by_name g name (store (perform pf op w).2)
  = get_ticket_type_by_name g name (store w).
Proof.
  intros _ Hkey. unfold get_ticket_type_by_name.
  by apply (perform_touches_only_type pf op w (g, name)).
Qed.

Lemma type_writes_are_local_witness :
  get_ticket_type_by_name 1 "billing"
    (store (perform Sample.all_fine
              (RemoveType (Sample.command 9 [1; 50]) "Bug Report")
              (Sample.start Sample.db_open)).2)
  = get_ticket_type_by_name 1 "billing" (store (Sample.start Sample.db_open)).
Proof.
  apply (type_writes_are_local Sample.all_fine
           (RemoveType (Sample.command 9 [1; 50]) "Bug Report")
           (Sample.start Sample.db_open) 1 "billing").
  - reflexivity.
  - discriminate.
Defined.

(** ** The panel view *)

(** X20.  The items [populate_buttons] leaves in the panel view.  With
    more than 25 ticket types the call raises [ValueError]; with none the
    view holds the one disabled placeholder button, and the router does
    nothing on that button's id; otherwise the view holds one button per
    type, in the order of the rows.  The button of a type whose stored
    style is one of the four valid names shows that style: the fallback
    to primary is not taken. *)
Theorem populate_buttons_items (g : Z) (rows : list (string * ticket_type)) :
  populate_buttons g rows
  = (if (25 <? length rows)%nat then Raise ValueError
     else Return (match rows with
                  | [] => [no_types_button]
                  | _ :: _ => panel_button g <$> rows
                  end))
  ∧ (disabled no_types_button = true
     ∧ ∀ pf i w, i_type i = component →
                 custom_id i = Some (button_custom_id no_types_button) →
                 on_interaction pf i w = (Return (), w))
  ∧ Forall (λ tt_row, button_style tt_row.2 ∈ valid_styles →
                      (button_style tt_row.2, style (panel_button g tt_row))
                      ∈ style_map) rows.
Proof.
  split; [|split; [split|]].
  - destruct rows as [|r rows]; [done|].
    unfold populate_buttons. by rewrite add_items by (simpl; lia).
  - done.
  - intros pf i w Hty Hcid.
    unfold on_interaction, on_interaction_with. by rewrite Hty, Hcid.
  - apply Forall_forall. intros [name row] _. cbn [fst snd].
    unfold valid_styles. rewrite !elem_of_cons, elem_of_nil.
    intros [Hs|[Hs|[Hs|[Hs|[]]]]]; unfold panel_button; cbn [style snd];
      rewrite Hs; set_solver.
Qed.

(** ** The autocompletes *)

(** X21.  The suggestions for the button style, for typed text in
    ASCII.  Every suggested value is one of the four valid styles and
    contains the typed text in lower case; its label is the value
    capitalised; with nothing typed all four are suggested.  A suggested
    value given to [/configticket tickettype add] with an ASCII name whose
    slug is free is stored as the type's style as it is, and the command
    answers that the type is added, without the invalid-style warning. *)
Theorem button_style_suggestions_are_stored (current : string) :
  PyStr.isascii current = true →
  Forall (λ c, choice_value c ∈ valid_styles
               ∧ choice_name c = PyText.capitalize (choice_value c)
               ∧ PyText.contains (PyStr.lower current) (choice_value c)
                 = true)
         (button_style_autocomplete current)
  ∧ choice_value <$> button_style_autocomplete "" = valid_styles
  ∧ ∀ c i raw display descr em welcome role w,
      PyStr.isascii raw = true →
      c ∈ button_style_autocomplete current →
      get_ticket_type_by_name (gd_id (i_guild i)) (normalize raw) (store w)
      = None →
      let out :=
        add_type i raw display descr em (Some (choice_value c)) welcome role
          w in
      button_style
        <$> get_ticket_type_by_name (gd_id (i_guild i)) (normalize raw)
              (store out.2)
      = Some (choice_value c)
      ∧ trace out.2 = trace w ++ [Defer; Reply (TypeAdded (normalize raw))].
Proof.
  intros _.
  assert (∀ c, c ∈ button_style_autocomplete current →
               choice_value c ∈ valid_styles
               ∧ choice_name c = PyText.capitalize (choice_value c)
               ∧ PyText.contains (PyStr.lower current) (choice_value c)
                 = true)
    as Hvalid.
  { intros c Hc. unfold button_style_autocomplete in Hc.
    apply subseteq_take, list_elem_of_fmap in Hc as (s & -> & Hs).
    apply list_elem_of_filter in Hs as [Hcontains Hs]. cbn.
    split; [done|]. split; [done|].
    unfold styles in Hs. rewrite !elem_of_cons, elem_of_nil in Hs.
    by destruct Hs as [->|[->|[->|[->|[]]]]]. }
  split; [by apply Forall_forall|]. split; [done|].
  intros c i raw display descr em welcome role w _ Hc Hfree out. subst out.
  destruct (Hvalid c Hc) as (Hstyle & _).
  unfold get_ticket_type_by_name in *.
  rewrite add_type_run. cbn [snd store trace].
  unfold add_ticket_type. rewrite normalize_idempotent, Hfree.
  cbn [fst snd ticket_types with_types].
  rewrite lookup_insert_eq, bool_decide_true by done. by cbn.
Qed.

(** The text [SEC] brings up the style [secondary], which is stored for
    the type [Bug Report]. *)
Lemma button_style_suggestions_are_stored_witness :
  let c := {| choice_name := "Secondary"; choice_value := "secondary" |} in
  let out :=
    add_type (Sample.command 9 [1; 50]) "Bug Report" "Bugs" None None
      (Some (choice_value c)) None None (Sample.start empty_db) in
  Forall (λ c, choice_value c ∈ valid_styles
               ∧ choice_name c = PyText.capitalize (choice_value c)
               ∧ PyText.contains (PyStr.lower "SEC") (choice_value c) = true)
         (button_style_autocomplete "SEC")
  ∧ button_style <$> get_ticket_type_by_name 1 "bug-report" (store out.2)
    = Some "secondary"
  ∧ trace out.2 = [Defer; Reply (TypeAdded "bug-report")].
Proof.
  destruct (button_style_suggestions_are_stored "SEC" eq_refl)
    as (Hall & _ & Hstored).
  split; [exact Hall|].
  apply (Hstored {| choice_name := "Secondary"; choice_value := "secondary" |}
           (Sample.command 9 [1; 50]) "Bug Report" "Bugs" None None None None
           (Sample.start empty_db)).
  - reflexivity.
  - by left.
  - reflexivity.
Defined.

(** X22.  The suggestions for the name to remove are names that the
    remove command removes.  On a store whose type rows are well formed,
    take the rows the guild's listing returns, in any order, their names
    and display names being in ASCII like the typed text; then every
    suggested value is the name of a stored type of the guild, and
    [/configticket tickettype remove] with that value answers that the
    type is removed and leaves no type under that name. *)
Theorem remove_suggestions_are_removable (i : interaction) (w : world)
    (rows : list (string * ticket_type)) (current : string) (c : Choice) :
  well_formed_types (store w) →
  rows ≡ₚ get_ticket_types (gd_id (i_guild i)) (store w) →
  rows_in_ascii rows →
  PyStr.isascii current = true →
  c ∈ remove_type_autocomplete rows current →
  let g := gd_id (i_guild i) in
  let out := remove_type i (choice_value c) w in
  is_Some (get_ticket_type_by_name g (choice_value c) (store w))
  ∧ out.1 = Return ()
  ∧ trace out.2 = trace w ++ [Defer; Reply (TypeRemoved (choice_value c))]
  ∧ get_ticket_type_by_name g (choice_value c) (store out.2) = None.
Proof.
  intros Hwf Hrows _ _ Hc g out. subst g out.
  unfold remove_type_autocomplete in Hc.
  apply subseteq_take, list_elem_of_fmap in Hc as ([name row] & -> & Hrow).
  apply list_elem_of_filter in Hrow as [_ Hrow]. cbn [choice_value fst].
  rewrite Hrows in Hrow. apply get_ticket_types_elem in Hrow.
  destruct (Hwf _ _ _ Hrow) as [Hslug _].
  unfold get_ticket_type_by_name in *. split; [by eexists|].
  unfold remove_type, bind, call, emit, remove_ticket_type.
  cbn [store trace fst snd]. rewrite Hslug, Hrow. cbn.
  rewrite <- app_assoc. split; [done|]. split; [done|].
  apply lookup_delete_eq.
Qed.

Lemma remove_suggestions_are_removable_witness :
  let i := Sample.command 9 [1; 50] in
  let w := Sample.start Sample.db_open in
  let c :=
    {| choice_name := "Billing (billing)"; choice_value := "billing" |} in
  let g := gd_id (i_guild i) in
  let out := remove_type i (choice_value c) w in
  is_Some (get_ticket_type_by_name g (choice_value c) (store w))
  ∧ out.1 = Return ()
  ∧ trace out.2 = trace w ++ [Defer; Reply (TypeRemoved (choice_value c))]
  ∧ get_ticket_type_by_name g (choice_value c) (store out.2) = None.
Proof.
  apply (remove_suggestions_are_removable (Sample.command 9 [1; 50])
           (Sample.start Sample.db_open) [("billing", Sample.billing)] "BILL"
           {| choice_name := "Billing (billing)"; choice_value := "billing" |}).
  - intros g name row Hrow. simpl in Hrow.
    apply lookup_singleton_Some in Hrow as [[= <- <-] <-].
    split; [reflexivity | by left].
  - reflexivity.
  - by repeat constructor.
  - reflexivity.
  - by left.
Defined.

(** ** Slugs *)

Lemma normalize_char_slug (c : ascii) :
  slug_char (if Ascii.eqb (PyStr.lower_char c) " " then "-"%char
             else PyStr.lower_char c).
Proof. destruct c as [[] [] [] [] [] [] [] []]; by split. Qed.

Lemma normalize_char_fixed (c : ascii) :
  (if Ascii.eqb (PyStr.lower_char c) " " then "-"%char
   else PyStr.lower_char c) = c ↔ slug_char c.
Proof.
  unfold slug_char.
  destruct c as [[] [] [] [] [] [] [] []]; split;
    first [ by intros [? ?] | by intros ? | intros [? ?]; done ].
Qed.

(** X23.  The slug of a name has the length of the name and consists of
    slug characters (no space, no upper-case letter); and the names the
    slug leaves unchanged are exactly those made of slug characters.  In
    particular the slug of a slug is itself. *)
Theorem normalize_gives_slugs (s : string) :
  String.length (normalize s) = String.length s
  ∧ Forall slug_char (list_ascii_of_string (normalize s))
  ∧ (normalize s = s ↔ Forall slug_char (list_ascii_of_string s))
  ∧ normalize (normalize s) = normalize s.
Proof.
  induction s as [|c s (IHlen & IHall & IHfix & IHidem)]; [by repeat split|].
  rewrite !normalize_unfold. cbn [String.length list_ascii_of_string].
  split; [by rewrite IHlen|]. split.
  { constructor; [apply normalize_char_slug | done]. }
  split.
  - rewrite Forall_cons, <- IHfix, <- normalize_char_fixed. split.
    + by intros [= ? ?].
    + by intros [-> ->].
  - rewrite IHidem. f_equal. apply normalize_char_idem.
Qed.

(** ** The permissions of a new ticket channel *)

Lemma dict_lookup_set_eq {K V : Type} `{EqDecision K} (d : list (K * V))
    (key : K) (value : V) :
  dict_lookup (dict_set d key value) key = Some value.
Proof.
  induction d as [|[k v] d IH]; simpl.
  - by rewrite decide_True.
  - destruct (decide (k = key)) as [->|Hne]; simpl.
    + by rewrite decide_True.
    + by rewrite decide_False.
Qed.

Lemma dict_lookup_set_ne {K V : Type} `{EqDecision K} (d : list (K * V))
    (key key' : K) (value : V) :
  key ≠ key' →
  dict_lookup (dict_set d key value) key' = dict_lookup d key'.
Proof.
  intros Hne. induction d as [|[k v] d IH]; simpl.
  - by rewrite decide_False.
  - destruct (decide (k = key)) as [->|Hk]; simpl.
    + by rewrite !decide_False.
    + destruct (decide (k = key')); [done | apply IH].
Qed.

Lemma staff_overwrites_lookup (d : list (target * PermissionOverwrite))
    (staff : list Z) (t : target) :
  dict_lookup (foldl (λ d role, dict_set d (RoleTarget role) for_staff) d staff)
              t
  = match t with
    | RoleTarget role =>
        if bool_decide (role ∈ staff) then Some for_staff else dict_lookup d t
    | MemberTarget _ => dict_lookup d t
    end.
Proof.
  revert d. induction staff as [|r staff IH]; intros d.
  - by destruct t.
  - cbn [foldl]. rewrite IH. destruct t as [role|m].
    + destruct (decide (role = r)) as [->|Hne].
      * rewrite dict_lookup_set_eq, (bool_decide_true (r ∈ r :: staff))
          by left.
        by case_bool_decide.
      * rewrite dict_lookup_set_ne by congruence.
        assert (role ∈ r :: staff ↔ role ∈ staff) as Hiff.
        { rewrite elem_of_cons. split; [by intros [?|?] | by right]. }
        by rewrite (bool_decide_ext _ _ Hiff).
    + by rewrite dict_lookup_set_ne.
Qed.

(** X27.  Who may see a new ticket channel, by the [overwrites] the
    create branch builds.  The opener and the bot get their permissions,
    every staff role applied gets the staff permissions, and no other
    role or member gets an overwrite.  The default role is denied the
    view of the channel, unless it is itself among the staff roles
    applied: then it gets the staff permissions, and the channel is
    visible to everybody.  The branch's test for valid staff roles lets
    such a list pass when it holds another role besides. *)
Theorem ticket_channel_overwrites (gd : guild) (u me : Z) (staff : list Z) :
  let ow := overwrites gd u me staff in
  dict_lookup ow (RoleTarget (default_role gd))
  = Some (if bool_decide (default_role gd ∈ staff) then for_staff else hidden)
  ∧ (∀ role, role ≠ default_role gd →
             dict_lookup ow (RoleTarget role)
             = if bool_decide (role ∈ staff) then Some for_staff else None)
  ∧ dict_lookup ow (MemberTarget me) = Some for_bot
  ∧ (u ≠ me → dict_lookup ow (MemberTarget u) = Some for_opener)
  ∧ (∀ m, m ≠ u → m ≠ me → dict_lookup ow (MemberTarget m) = None)
  ∧ (∀ role, role ≠ default_role gd →
             no_valid_staff_roles gd [default_role gd; role] = false).
Proof.
  intros ow. subst ow. unfold overwrites.
  split; [|split; [|split; [|split; [|split]]]].
  - rewrite staff_overwrites_lookup. case_bool_decide; [done|].
    rewrite !dict_lookup_set_ne by done. simpl. by rewrite decide_True.
  - intros role Hne. rewrite staff_overwrites_lookup.
    case_bool_decide; [done|].
    rewrite !dict_lookup_set_ne by done. simpl.
    rewrite decide_False; [done | congruence].
  - rewrite staff_overwrites_lookup. apply dict_lookup_set_eq.
  - intros Hne. rewrite staff_overwrites_lookup.
    rewrite dict_lookup_set_ne by congruence. apply dict_lookup_set_eq.
  - intros m Hu Hme. rewrite staff_overwrites_lookup.
    by rewrite !dict_lookup_set_ne by congruence.
  - intros role Hne. unfold no_valid_staff_roles.
    rewrite !bool_decide_false; [done | congruence | done].
Qed.

(** ** The type commands and the ticket update *)

Lemma with_tickets_same (db : database) : with_tickets db (tickets db) = db.
Proof. by destruct db. Qed.

(** X28.  [add_type] with a name in ASCII returns, never replaces a type
    on record, and touches no other table.  When the slug of the name is
    taken in the guild, the stored data is as before and the command
    answers that the type could not be added.  When it is free, the
    command answers that the type is added, and the type is stored under
    the slug with the display name, description, emoji and welcome message
    given, with the style given if it is one of the four valid names and
    [primary] otherwise, and with the staff role given, if any, as its
    one-element list of staff roles.  A style that is not one of the four
    names is answered with a warning after the first answer. *)
Theorem add_type_outcome (i : interaction) (raw display : string)
    (descr em style_ welcome : option string) (role : option Z) (w : world) :
  PyStr.isascii raw = true →
  let g := gd_id (i_guild i) in
  let out := add_type i raw display descr em style_ welcome role w in
  let warning :=
    match style_ with
    | Some s => if bool_decide (s ∈ valid_styles) then []
                else [Reply (InvalidStyleWarning s)]
    | None => []
    end in
  out.1 = Return ()
  ∧ ticket_types (store w) ⊆ ticket_types (store out.2)
  ∧ guild_configs (store out.2) = guild_configs (store w)
  ∧ tickets (store out.2) = tickets (store w)
  ∧ match get_ticket_type_by_name g (normalize raw) (store w) with
    | Some _ =>
        store out.2 = store w
        ∧ trace out.2
          = trace w ++ [Defer; Reply (TypeNotAdded (normalize raw))] ++ warning
    | None =>
        get_ticket_type_by_name g (normalize raw) (store out.2)
        = Some {| display_name := display; description := descr;
                  emoji := em;
                  button_style :=
                    match style_ with
                    | Some s => if bool_decide (s ∈ valid_styles) then s
                                else "primary"
                    | None => "primary"
                    end;
                  welcome_message := welcome;
                  specific_staff_roles := (λ r, [r]) <$> role |}
        ∧ trace out.2
          = trace w ++ [Defer; Reply (TypeAdded (normalize raw))] ++ warning
    end.
Proof.
  intros _ g out warning. subst g out warning.
  rewrite add_type_run. cbn [fst snd store trace].
  unfold add_ticket_type, get_ticket_type_by_name.
  rewrite normalize_idempotent.
  destruct (ticket_types (store w) !! _) as [old|] eqn:Hold;
    cbn [fst snd ticket_types guild_configs tickets with_types].
  - done.
  - repeat split; try done.
    + by apply insert_subseteq.
    + rewrite lookup_insert_eq. by destruct role.
Qed.

(** The type [Bug Report] with the style [loud], which is not a style. *)
Lemma add_type_outcome_witness :
  let out :=
    add_type (Sample.command 9 [1; 50]) "Bug Report" "Bugs" None None
      (Some "loud") None (Some 50) (Sample.start Sample.db_open) in
  out.1 = Return ()
  ∧ get_ticket_type_by_name 1 "bug-report" (store out.2)
    = Some {| display_name := "Bugs"; description := None; emoji := None;
              button_style := "primary"; welcome_message := None;
              specific_staff_roles := Some [50] |}
  ∧ trace out.2
    = [Defer; Reply (TypeAdded "bug-report");
       Reply (InvalidStyleWarning "loud")].
Proof.
  destruct (add_type_outcome (Sample.command 9 [1; 50]) "Bug Report" "Bugs"
              None None (Some "loud") None (Some 50)
              (Sample.start Sample.db_open) eq_refl)
    as (Hret & _ & _ & _ & Hrow).
  split; [exact Hret|]. exact Hrow.
Defined.

(** X29.  [remove_type] with a name in ASCII returns and touches neither
    the tickets nor the configuration rows: tickets of the removed type
    stay on record as they are.  Afterwards no type is stored under the
    slug of the name in the guild, and the staff roles of a ticket of that
    type are resolved from the guild's default staff roles alone: the live
    ones among them, or the default role when there is none.  When there
    was no such type the stored data is as before. *)
Theorem remove_type_outcome (i : interaction) (raw : string) (w : world)
    (cfg : option guild_config) :
  PyStr.isascii raw = true →
  let gd := i_guild i in
  let out := remove_type i raw w in
  out.1 = Return ()
  ∧ guild_configs (store out.2) = guild_configs (store w)
  ∧ tickets (store out.2) = tickets (store w)
  ∧ get_ticket_type_by_name (gd_id gd) (normalize raw) (store out.2) = None
  ∧ get_staff_roles_for_ticket_type gd (normalize raw) cfg (store out.2)
    = match resolved gd (cfg ≫= default_staff_roles) with
      | [] => [default_role gd]
      | live => live
      end
  ∧ (get_ticket_type_by_name (gd_id gd) (normalize raw) (store w) = None →
     store out.2 = store w).
Proof.
  intros _ gd out. subst gd out.
  assert (get_ticket_type_by_name (gd_id (i_guild i)) (normalize raw)
            (store (remove_type i raw w).2) = None) as Hgone.
  { unfold remove_type, bind, call, emit, remove_ticket_type,
      get_ticket_type_by_name.
    cbn [store trace fst snd].
    destruct (ticket_types (store w) !! _) as [old|] eqn:Hold;
      cbn [store trace fst snd ticket_types with_types];
      [apply lookup_delete_eq | done]. }
  split; [|split; [|split; [|split; [done|split]]]].
  - unfold remove_type, bind, call, emit, remove_ticket_type.
    cbn [store trace fst snd]. by destruct (ticket_types (store w) !! _).
  - unfold remove_type, bind, call, emit, remove_ticket_type.
    cbn [store trace fst snd]. by destruct (ticket_types (store w) !! _).
  - unfold remove_type, bind, call, emit, remove_ticket_type.
    cbn [store trace fst snd]. by destruct (ticket_types (store w) !! _).
  - unfold get_staff_roles_for_ticket_type. rewrite Hgone. cbn.
    by destruct (resolved _ _).
  - unfold remove_type, bind, call, emit, remove_ticket_type,
      get_ticket_type_by_name.
    cbn [store trace fst snd]. by intros ->.
Qed.

(** The type [billing] of guild 1 is removed; the open ticket of that
    type stays, and its staff is then the guild's default staff role 50. *)
Lemma remove_type_outcome_witness :
  let out :=
    remove_type (Sample.command 9 [1; 50]) "Billing"
      (Sample.start Sample.db_open) in
  out.1 = Return ()
  ∧ tickets (store out.2) = tickets Sample.db_open
  ∧ get_ticket_type_by_name 1 "billing" (store out.2) = None
  ∧ get_staff_roles_for_ticket_type Sample.the_guild "billing"
      (Some Sample.configured) (store out.2) = [50].
Proof.
  destruct (remove_type_outcome (Sample.command 9 [1; 50]) "Billing"
              (Sample.start Sample.db_open) (Some Sample.configured) eq_refl)
    as (Hret & _ & Htickets & Hgone & Hstaff & _).
  split; [exact Hret|]. split; [exact Htickets|]. split; [exact Hgone|].
  exact Hstaff.
Defined.

(** X30.  [update_ticket] at its edges.  Without a keyword it raises
    [OperationalError].  With keywords it returns; for a channel without
    a ticket row it writes nothing; for a channel with one it rewrites
    that row only, one keyword after the other, and leaves the other
    tables and the rows of the other channels as they are. *)
Theorem update_ticket_edges (ch : Z) (kwargs : list ticket_kwarg)
    (db : database) :
  let out := update_ticket ch kwargs db in
  (kwargs = [] → out = (Raise OperationalError, db))
  ∧ (kwargs ≠ [] →
     out.1 = Return ()
     ∧ touches_only_ticket ch db out.2
     ∧ get_ticket_by_channel ch out.2
       = fold_left set_ticket_kwarg kwargs <$> get_ticket_by_channel ch db
     ∧ (get_ticket_by_channel ch db = None → out.2 = db)).
Proof.
  intros out. subst out. split; [by intros ->|].
  intros Hkw. destruct kwargs as [|kw kwargs]; [done|].
  unfold get_ticket_by_channel. cbn [update_ticket fst snd].
  split; [done|]. split.
  { split; [done|]. split; [done|]. intros ch' Hne.
    cbn [tickets with_tickets]. by rewrite lookup_alter_ne. }
  split.
  { cbn [tickets with_tickets]. by rewrite lookup_alter_eq. }
  intros Hnone.
  assert (alter (λ t, fold_left set_ticket_kwarg (kw :: kwargs) t) ch
            (tickets db) = tickets db) as ->; [|apply with_tickets_same].
  apply map_eq. intros j. destruct (decide (j = ch)) as [->|Hne].
  - by rewrite lookup_alter_eq, Hnone.
  - by rewrite lookup_alter_ne.
Qed.
